(** * GHMC: inward entries, company materials and the create-invoice form

  A shallow embedding of the parts of the GHMC chemical-waste application
  that its specification makes statements about, followed by the
  properties proved of them.

  Definitions:
  - [Js]: the ECMAScript built-ins the sources call (string trimming,
    [parseInt], [padStart], [Set] de-duplication, number arithmetic);
  - [Inward]: [InwardService] and [InwardController] over an explicit
    database state, in a state-and-error monad;
  - [Companies]: the role-based stripping of [CompaniesController];
  - [InvoiceForm]: the state, the derived totals, the event handlers and
    the effects of [CreateInvoiceModal], as a transition system;
  - [Samples], [FormSamples]: small databases and requests to run them on;
  - [InwardStats]: [InwardService.getStats] and its handler;
  - [CompanyMaterials]: the handlers of [CompaniesController] that add and
    update a material;
  - [DataTable]: the pagination bar of the [DataTable] component;
  - [MoreSamples]: a database with invoices.

  Properties: [JsProps], [JsMoreProps], [InwardProps], [CompaniesProps],
  [InvoiceFormProps]; then [InwardMoreProps], [CompanyMaterialsProps],
  [DataTableProps], [InvoiceFormMoreProps].

  Numbers are exact rationals ([Q]), extended with NaN and the infinities
  where the service divides; IEEE rounding and the sign of zero are not
  modelled; integers are exact, as those of JavaScript are below 2^53 in
  absolute value.  Strings are UTF-8 byte strings. *)

From Stdlib Require Import ZArith QArith Qround Qabs List String Ascii Bool Lia Lqa.
From Stdlib Require Import DecimalString Decimal DecimalZ.
From stdpp Require Import base option list strings gmap.
Import ListNotations.

Local Open Scope string_scope.
Local Open Scope Z_scope.

(* ===================================================================== *)
(** * ECMAScript built-ins                                                *)
(* ===================================================================== *)

Module Js.

(** ** Numbers *)

(** A JS number: a finite value, NaN, or an infinity ([Inf true] is
    [+Infinity]). *)
Inductive num : Type :=
| Fin (q : Q)
| NaN
| Inf (positive : bool).

Definition ofZ (z : Z) : num := Fin (inject_Z z).

(** [x || 0]-style truthiness of a number: NaN and zero are falsy. *)
Definition truthy_num (x : num) : bool :=
  match x with
  | Fin q => negb (Qeq_bool q 0)
  | NaN => false
  | Inf _ => true
  end.

Definition sign_pos (q : Q) : bool := Qle_bool 0 q.

Definition sub (x y : num) : num :=
  match x, y with
  | Fin a, Fin b => Fin (a - b)
  | NaN, _ | _, NaN => NaN
  | Inf s, Inf t => if Bool.eqb s t then NaN else Inf s
  | Inf s, Fin _ => Inf s
  | Fin _, Inf t => Inf (negb t)
  end.

Definition mul (x y : num) : num :=
  match x, y with
  | Fin a, Fin b => Fin (a * b)
  | NaN, _ | _, NaN => NaN
  | Inf s, Inf t => Inf (Bool.eqb s t)
  | Inf s, Fin b | Fin b, Inf s =>
      if Qeq_bool b 0 then NaN else Inf (Bool.eqb s (sign_pos b))
  end.

Definition div (x y : num) : num :=
  match x, y with
  | Fin a, Fin b =>
      if Qeq_bool b 0
      then (if Qeq_bool a 0 then NaN else Inf (sign_pos a))
      else Fin (a / b)
  | NaN, _ | _, NaN => NaN
  | Inf _, Inf _ => NaN
  | Inf s, Fin b => Inf (Bool.eqb s (sign_pos b))
  | Fin _, Inf _ => Fin 0
  end.

(** [x < y]; any comparison with NaN is false. *)
Definition lt (x y : num) : bool :=
  match x, y with
  | Fin a, Fin b => negb (Qle_bool b a)
  | NaN, _ | _, NaN => false
  | Inf s, Inf t => negb s && t
  | Inf s, Fin _ => negb s
  | Fin _, Inf t => t
  end.

Definition gt (x y : num) : bool := lt y x.

(** [Math.ceil]. *)
Definition Math_ceil (x : num) : num :=
  match x with
  | Fin q => Fin (inject_Z (Qceiling q))
  | NaN => NaN
  | Inf s => Inf s
  end.

(** [x.toFixed(2)] of a finite number, as the number of hundredths that
    it prints: the one nearest to [x], and of two that are equally near the
    one farther from zero. *)
Definition toFixed2 (x : Q) : Z :=
  if Qle_bool 0 x
  then Qfloor (x * 100 + (1 # 2))
  else - Qfloor (- x * 100 + (1 # 2)).

(** ** Characters and strings *)

(** Strings are UTF-8.  White space is what [String.prototype.trim] and
    [parseInt] skip: the one-byte characters TAB, LF, VT, FF, CR and SPACE,
    the two-byte character U+00A0, and the three-byte characters U+1680,
    U+2000 to U+200A, U+2028, U+2029, U+202F, U+205F, U+3000 and U+FEFF. *)
Definition is_space (c : ascii) : bool :=
  let n := nat_of_ascii c in
  ((9 <=? n) && (n <=? 13))%nat || (n =? 32)%nat.

(** The first byte of a white-space character of two or three bytes. *)
Definition ws_lead (c : ascii) : bool :=
  let n := nat_of_ascii c in
  ((n =? 194) || (n =? 225) || (n =? 226) || (n =? 227) || (n =? 239))%nat.

Definition is_space2 (c1 c2 : ascii) : bool :=
  ((nat_of_ascii c1 =? 194) && (nat_of_ascii c2 =? 160))%nat.

Definition is_space3 (c1 c2 c3 : ascii) : bool :=
  let a := nat_of_ascii c1 in
  let b := nat_of_ascii c2 in
  let c := nat_of_ascii c3 in
  ((a =? 225) && (b =? 154) && (c =? 128)
   || (a =? 226) && (b =? 128)
      && ((128 <=? c) && (c <=? 138) || (c =? 168) || (c =? 169) || (c =? 175))
   || (a =? 226) && (b =? 129) && (c =? 159)
   || (a =? 227) && (b =? 128) && (c =? 128)
   || (a =? 239) && (b =? 187) && (c =? 191))%nat.

Fixpoint trimStart (s : string) : string :=
  match s with
  | EmptyString => EmptyString
  | String c r =>
      if is_space c then trimStart r
      else if negb (ws_lead c) then s
      else match r with
           | String c2 r2 =>
               if is_space2 c c2 then trimStart r2
               else match r2 with
                    | String c3 r3 => if is_space3 c c2 c3 then trimStart r3 else s
                    | EmptyString => s
                    end
           | EmptyString => s
           end
  end.

Fixpoint rev_string_acc (s acc : string) : string :=
  match s with
  | EmptyString => acc
  | String c r => rev_string_acc r (String c acc)
  end.

Definition rev_string (s : string) : string := rev_string_acc s "".

(** [trimStart] on a string whose bytes are in reverse order. *)
Fixpoint trimStart_reversed (s : string) : string :=
  match s with
  | EmptyString => EmptyString
  | String c r =>
      if is_space c then trimStart_reversed r
      else match r with
           | String c2 r2 =>
               if is_space2 c2 c then trimStart_reversed r2
               else match r2 with
                    | String c3 r3 =>
                        if is_space3 c3 c2 c then trimStart_reversed r3 else s
                    | EmptyString => s
                    end
           | EmptyString => s
           end
  end.

Definition trimEnd (s : string) : string :=
  rev_string (trimStart_reversed (rev_string s)).

(** [s.trim()]. *)
Definition trim (s : string) : string := trimEnd (trimStart s).

(** [s.startsWith(p)]. *)
Definition startsWith (p s : string) : bool := String.prefix p s.

(** [s.split(sep)] for a one-character separator: never empty. *)
Fixpoint split (sep : ascii) (s : string) : list string :=
  match s with
  | EmptyString => [""]
  | String c r =>
      if Ascii.eqb c sep then "" :: split sep r
      else match split sep r with
           | seg :: segs => String c seg :: segs
           | [] => [String c ""]
           end
  end.

(** [xs.pop()] as used on a fresh array: its last element. *)
Definition pop (xs : list string) : option string := List.last (map Some xs) None.

(** Value of a digit in radix 10 or 16. *)
Definition digit_value (radix : Z) (c : ascii) : option Z :=
  let n := Z.of_nat (nat_of_ascii c) in
  let v :=
    if (48 <=? n) && (n <=? 57) then Some (n - 48)
    else if (97 <=? n) && (n <=? 102) then Some (n - 87)
    else if (65 <=? n) && (n <=? 70) then Some (n - 55)
    else None in
  match v with
  | Some d => if d <? radix then Some d else None
  | None => None
  end.

(** Longest prefix of digits, read most significant first; [None] when
    the prefix is empty. *)
Fixpoint read_digits (radix : Z) (s : string) (acc : option Z) : option Z :=
  match s with
  | EmptyString => acc
  | String c r =>
      match digit_value radix c with
      | Some d => read_digits radix r (Some (radix * default 0 acc + d))
      | None => acc
      end
  end.

Definition strip_hex_prefix (s : string) : option string :=
  match s with
  | String "0" (String "x" r) | String "0" (String "X" r) => Some r
  | _ => None
  end.

(** [parseInt(s)] without a radix argument: leading white space, an
    optional sign, an optional [0x], then digits.  [None] is NaN. *)
Definition parseInt_string (s : string) : option Z :=
  let t := trimStart s in
  let '(neg, body) :=
    match t with
    | String "-" r => (true, r)
    | String "+" r => (false, r)
    | _ => (false, t)
    end in
  let magnitude :=
    match strip_hex_prefix body with
    | Some r => read_digits 16 r None
    | None => read_digits 10 body None
    end in
  (fun m => if neg : bool then - m else m) <$> magnitude.

(** [String(n)] for an integer [n]. *)
Definition string_of_Z (z : Z) : string :=
  NilZero.string_of_int (Z.to_int z).

Fixpoint repeat_char (c : ascii) (n : nat) : string :=
  match n with
  | O => ""
  | S k => String c (repeat_char c k)
  end.

(** [s.padStart(width, c)] for a one-character filler. *)
Definition padStart (width : nat) (c : ascii) (s : string) : string :=
  repeat_char c (width - String.length s) ++ s.

Definition lower_char (c : ascii) : ascii :=
  let n := nat_of_ascii c in
  if ((65 <=? n) && (n <=? 90))%nat then ascii_of_nat (n + 32) else c.

Fixpoint toLowerCase (s : string) : string :=
  match s with
  | EmptyString => EmptyString
  | String c r => String (lower_char c) (toLowerCase r)
  end.

(** [s.includes(p)]. *)
Fixpoint includes (p s : string) : bool :=
  String.prefix p s ||
  match s with
  | EmptyString => false
  | String _ r => includes p r
  end.

(** ** Values that arrive untyped *)

(** A query parameter or option: a string or a number. *)
Inductive val : Type :=
| VStr (s : string)
| VNum (n : num).

(** [parseInt(v)] as a number.  A number is first printed; for a finite
    value the integer part of the print is read back, NaN and the
    infinities print as words and give NaN.  (Numbers that print in
    exponent notation, below 1e-6 or from 1e21 on, are not modelled.) *)
Definition parseInt (v : val) : num :=
  match v with
  | VStr s => from_option ofZ NaN (parseInt_string s)
  | VNum (Fin q) => ofZ (Qnum q ÷ Zpos (Qden q))
  | VNum _ => NaN
  end.

(** ** [Set] *)

(** [[...new Set(xs)]]: the elements in order of first occurrence. *)
Fixpoint set_spread_from (seen xs : list string) : list string :=
  match xs with
  | [] => []
  | x :: r =>
      if bool_decide (x ∈ seen) then set_spread_from seen r
      else x :: set_spread_from (x :: seen) r
  end.

Definition set_spread (xs : list string) : list string := set_spread_from [] xs.

End Js.

(* ===================================================================== *)
(** * Inward entries: service and controller                              *)
(* ===================================================================== *)

Module Inward.
Import Js.

(** ** Errors *)

(** The error classes of [utils/errors.js] that the service throws, and the
    errors the Prisma client raises by itself. *)
Inductive AppError : Type :=
| NotFoundError (resource : string)
| ValidationError (message : string)
| PrismaError (code : string).

Inductive ErrorKind : Type := NotFound | Validation | Internal.

Definition kind_of (e : AppError) : ErrorKind :=
  match e with
  | NotFoundError _ => NotFound
  | ValidationError _ => Validation
  | PrismaError _ => Internal
  end.

(** ** Tables *)

(** Rows carry the columns that the service reads, writes or selects.
    A stored date is a time value.  Of Prisma's validation of the values it
    is given, the refusal of an invalid date is modelled; foreign keys and
    the refusal of numbers that are not finite are not. *)
Record Company : Type := {
  c_id : string;
  c_name : string;
  c_gstNumber : option string;
  c_address : option string
}.

Record Invoice : Type := {
  i_id : string;
  i_invoiceNo : string;
  i_grandTotal : Q;
  i_paymentReceived : Q;
  i_paymentReceivedOn : option Z
}.

Record InwardMaterial : Type := {
  m_id : string;
  m_inwardEntryId : string;
  m_transporterName : option string;
  m_rate : option Q;
  m_amount : option Q;
  m_createdAt : Z
}.

Record InwardEntry : Type := {
  e_id : string;
  e_srNo : Z;
  e_date : Z;
  e_lotNo : option string;
  e_companyId : string;
  e_manifestNo : string;
  e_vehicleNo : option string;
  e_wasteName : string;
  e_rate : option num;
  e_category : option string;
  e_quantity : num;
  e_unit : string;
  e_month : option string;
  e_invoiceId : option string;
  e_createdAt : Z
}.

Record Db : Type := {
  inwardEntries : list InwardEntry;
  companies : list Company;
  invoices : list Invoice;
  inwardMaterials : list InwardMaterial
}.

Definition with_inwardEntries (rows : list InwardEntry) (db : Db) : Db :=
  {| inwardEntries := rows;
     companies := companies db;
     invoices := invoices db;
     inwardMaterials := inwardMaterials db |}.

(** What the database and the clock supply to one request: the date of
    [new Date()], the id and the creation time of a row it inserts. *)
Record World : Type := {
  fullYear : Z;
  monthIndex : Z;
  timestamp : Z;
  freshId : string
}.

(** ** The monad of a request: database state and thrown errors *)

Definition M (A : Type) : Type := Db -> (AppError + A) * Db.

Definition ret {A : Type} (a : A) : M A := fun db => (inr a, db).

Definition throw {A : Type} (e : AppError) : M A := fun db => (inl e, db).

Definition bind {A B : Type} (m : M A) (k : A -> M B) : M B :=
  fun db =>
    match m db with
    | (inl e, db') => (inl e, db')
    | (inr a, db') => k a db'
    end.

Definition query {A : Type} (f : Db -> A) : M A := fun db => (inr (f db), db).

Notation "'let*' x ':=' c 'in' k" := (bind c (fun x => k))
  (at level 10, x name, c at level 100, k at level 200).

(** ** JavaScript truthiness of request fields *)

Definition truthy_str (o : option string) : bool :=
  match o with
  | Some s => negb (String.eqb s "")
  | None => false
  end.

Definition truthy_val (o : option val) : bool :=
  match o with
  | Some (VStr s) => negb (String.eqb s "")
  | Some (VNum n) => truthy_num n
  | None => false
  end.

(** [x?.trim() || null]. *)
Definition trim_or_null (o : option string) : option string :=
  match o with
  | Some s => let t := trim s in if String.eqb t "" then None else Some t
  | None => None
  end.

(** ** Views returned with their relations *)

Record CompanyRef : Type := {
  cr_id : string;
  cr_name : string;
  cr_gstNumber : option string
}.

Record MaterialRef : Type := {
  mr_id : string;
  mr_transporterName : option string;
  mr_rate : option Q;
  mr_amount : option Q
}.

Definition company_ref (c : Company) : CompanyRef :=
  {| cr_id := c_id c; cr_name := c_name c; cr_gstNumber := c_gstNumber c |}.

Definition material_ref (m : InwardMaterial) : MaterialRef :=
  {| mr_id := m_id m;
     mr_transporterName := m_transporterName m;
     mr_rate := m_rate m;
     mr_amount := m_amount m |}.

(** [include: { company: true, invoice: true, inwardMaterials: ... }]. *)
Record EntryView : Type := {
  ev_entry : InwardEntry;
  ev_company : option Company;
  ev_invoice : option Invoice;
  ev_inwardMaterials : list InwardMaterial
}.

(** The list item of [getAllEntries], with its three [select]s. *)
Record EntryListItem : Type := {
  li_entry : InwardEntry;
  li_company : option CompanyRef;
  li_invoice : option Invoice;
  li_inwardMaterials : list MaterialRef
}.

(** The entry [createEntry] returns: [include: { company: { select } }]. *)
Record EntryCreated : Type := {
  ec_entry : InwardEntry;
  ec_company : option CompanyRef
}.

(** ** Prisma queries *)

Definition company_findUnique (cid : string) (db : Db) : option Company :=
  List.find (fun c => String.eqb (c_id c) cid) (companies db).

Definition invoice_of (e : InwardEntry) (db : Db) : option Invoice :=
  match e_invoiceId e with
  | Some iid => List.find (fun i => String.eqb (i_id i) iid) (invoices db)
  | None => None
  end.

Definition materials_of (e : InwardEntry) (db : Db) : list InwardMaterial :=
  List.filter (fun m => String.eqb (m_inwardEntryId m) (e_id e)) (inwardMaterials db).

Fixpoint insert_by {A : Type} (key : A -> Z) (x : A) (l : list A) : list A :=
  match l with
  | [] => [x]
  | y :: r => if key x <=? key y then x :: l else y :: insert_by key x r
  end.

(** [orderBy: { key: 'asc' }].  Rows with equal keys are kept in the order
    of the table; the database may return them in another. *)
Definition sort_asc {A : Type} (key : A -> Z) (l : list A) : list A :=
  fold_right (insert_by key) [] l.

(** [findFirst({ orderBy: { key: 'desc' } })]: a row with the greatest key
    (the earliest such row of the table when several have it). *)
Fixpoint first_desc {A : Type} (key : A -> Z) (l : list A) : option A :=
  match l with
  | [] => None
  | x :: r =>
      match first_desc key r with
      | Some y => if key x <? key y then Some y else Some x
      | None => Some x
      end
  end.

Definition inwardEntry_findUnique_id (i : string) (db : Db) : option InwardEntry :=
  List.find (fun e => String.eqb (e_id e) i) (inwardEntries db).

Definition has_lotNo (l : string) (e : InwardEntry) : bool :=
  match e_lotNo e with
  | Some l' => String.eqb l' l
  | None => false
  end.

Definition inwardEntry_findUnique_lotNo (l : string) (db : Db) : option InwardEntry :=
  List.find (has_lotNo l) (inwardEntries db).

(** [findFirst({ where: { lotNo, id: { not: entryId } } })]. *)
Definition inwardEntry_findFirst_lotNo_not (l entryId : string) (db : Db)
  : option InwardEntry :=
  List.find (fun e => has_lotNo l e && negb (String.eqb (e_id e) entryId))
            (inwardEntries db).

(** Modelled from the spec: the Prisma schema is not among the sources.  The
    spec's data model says that lot numbers are unique, and the service
    queries [findUnique({ where: { lotNo } })], which Prisma offers for
    unique columns only; so the table has a unique index on [lotNo], and a
    write that would store a lot number twice is refused with Prisma's
    error P2002.  [ignoring] is the id of the row being rewritten. *)
Definition lotNo_taken (l : option string) (ignoring : option string) (db : Db) : bool :=
  match l with
  | Some l' =>
      existsb (fun e => has_lotNo l' e &&
                        negb (bool_decide (Some (e_id e) = ignoring)))
              (inwardEntries db)
  | None => false
  end.

Definition inwardEntry_create (row : InwardEntry) : M InwardEntry :=
  fun db =>
    if lotNo_taken (e_lotNo row) None db
    then (inl (PrismaError "P2002"), db)
    else (inr row, with_inwardEntries (inwardEntries db ++ [row]) db).

(** [update({ where: { id }, data })]: [patch] is the effect of [data] on
    the row. *)
Definition inwardEntry_update (entryId : string) (patch : InwardEntry -> InwardEntry)
  : M InwardEntry :=
  fun db =>
    match inwardEntry_findUnique_id entryId db with
    | None => (inl (PrismaError "P2025"), db)
    | Some old =>
        let new := patch old in
        if lotNo_taken (e_lotNo new) (Some entryId) db
        then (inl (PrismaError "P2002"), db)
        else (inr new,
              with_inwardEntries
                (map (fun e => if String.eqb (e_id e) entryId then new else e)
                     (inwardEntries db)) db)
    end.

Definition inwardEntry_delete (entryId : string) : M unit :=
  fun db =>
    match inwardEntry_findUnique_id entryId db with
    | None => (inl (PrismaError "P2025"), db)
    | Some _ =>
        (inr tt,
         with_inwardEntries
           (List.filter (fun e => negb (String.eqb (e_id e) entryId)) (inwardEntries db))
           db)
    end.

Definition entry_view (db : Db) (e : InwardEntry) : EntryView :=
  {| ev_entry := e;
     ev_company := company_findUnique (e_companyId e) db;
     ev_invoice := invoice_of e db;
     ev_inwardMaterials := materials_of e db |}.

Definition list_item (db : Db) (e : InwardEntry) : EntryListItem :=
  {| li_entry := e;
     li_company := company_ref <$> company_findUnique (e_companyId e) db;
     li_invoice := invoice_of e db;
     li_inwardMaterials := map material_ref (materials_of e db) |}.

(** ** The service *)

Section InwardService.

(** Built-ins and answers of the database that the service only passes
    on: [Number(s)] as the arithmetic operators apply it to a string;
    [parseFloat(s)]; the time value of [new Date(s)], [None] for an Invalid
    Date; whether a column value satisfies
    [{ contains: search, mode: 'insensitive' }], which is for the database
    and its collation to say; the order in which the database returns the
    rows for [orderBy: { [sortBy]: sortOrder }], [None] when Prisma refuses
    the sort key or the sort order; and [String(parseInt(s) + 1)] for a
    numeral [s] whose value is not below 2^53, where the arithmetic of
    doubles is not exact and the result may print in exponent notation. *)
Variable toNumber : string -> num.
Variable parseFloat_string : string -> num.
Variable newDate : string -> option Z.
Variable contains_insensitive : string -> string -> bool.
Variable orderBy : string -> string -> list InwardEntry -> option (list InwardEntry).
Variable inexact_successor : string -> string.

Definition num_of (v : val) : num :=
  match v with
  | VStr s => toNumber s
  | VNum n => n
  end.

Definition parseFloat (v : val) : num :=
  match v with
  | VStr s => parseFloat_string s
  | VNum n => n
  end.

(** *** getAllEntries *)

Record ListOptions : Type := {
  o_page : option val;
  o_limit : option val;
  o_search : option string;
  o_companyId : option string;
  o_startDate : option string;
  o_endDate : option string;
  o_sortBy : option string;
  o_sortOrder : option string
}.

(** The [where] object; a bound of [date] is a [Date], [None] being an
    Invalid Date. *)
Record Where : Type := {
  w_OR : option string;
  w_companyId : option string;
  w_date : option (option (option Z) * option (option Z))
}.

Definition matches (w : Where) (e : InwardEntry) : bool :=
  match w_OR w with
  | Some s =>
      contains_insensitive s (e_manifestNo e)
      || from_option (contains_insensitive s) false (e_lotNo e)
      || contains_insensitive s (e_wasteName e)
  | None => true
  end
  && match w_companyId w with
     | Some c => String.eqb (e_companyId e) c
     | None => true
     end
  && match w_date w with
     | Some (gte, lte) =>
         from_option (from_option (fun d => d <=? e_date e) false) true gte
         && from_option (from_option (fun d => e_date e <=? d) false) true lte
     | None => true
     end.

(** Prisma refuses a [where] that holds an Invalid Date. *)
Definition valid_date (d : option (option Z)) : bool :=
  match d with
  | Some None => false
  | _ => true
  end.

Definition valid_where (w : Where) : bool :=
  match w_date w with
  | Some (gte, lte) => valid_date gte && valid_date lte
  | None => true
  end.

Definition build_where (search companyId startDate endDate : string) : Where :=
  {| w_OR := if String.eqb search "" then None else Some search;
     w_companyId := if String.eqb companyId "" then None else Some companyId;
     w_date :=
       if negb (String.eqb startDate "") || negb (String.eqb endDate "")
       then Some (if String.eqb startDate "" then None else Some (newDate startDate),
                  if String.eqb endDate "" then None else Some (newDate endDate))
       else None |}.

(** A finite number that is an integer. *)
Definition as_int (x : num) : option Z :=
  match x with
  | Fin q => let r := Qred q in
             if Pos.eqb (Qden r) 1 then Some (Qnum r) else None
  | _ => None
  end.

(** The page of rows [findMany] cuts for [skip] and [take]: Prisma refuses
    arguments that are not integers and a negative [skip]; a negative [take]
    counts from the end of the list. *)
Definition window {A : Type} (skip take : num) (rows : list A) : AppError + list A :=
  match as_int skip, as_int take with
  | Some s, Some t =>
      if s <? 0 then inl (PrismaError "PrismaClientValidationError")
      else if 0 <=? t
           then inr (firstn (Z.to_nat t) (skipn (Z.to_nat s) rows))
           else inr (rev (firstn (Z.to_nat (- t)) (skipn (Z.to_nat s) (rev rows))))
  | _, _ => inl (PrismaError "PrismaClientValidationError")
  end.

Definition inwardEntry_findMany (w : Where) (skip take : num) (sortBy sortOrder : string)
  : M (list EntryListItem) :=
  fun db =>
    if negb (valid_where w) then (inl (PrismaError "PrismaClientValidationError"), db)
    else
      match orderBy sortBy sortOrder (List.filter (matches w) (inwardEntries db)) with
      | None => (inl (PrismaError "PrismaClientValidationError"), db)
      | Some sorted =>
          match window skip take sorted with
          | inl e => (inl e, db)
          | inr rows => (inr (map (list_item db) rows), db)
          end
      end.

Definition inwardEntry_count (w : Where) : M Z :=
  fun db =>
    if negb (valid_where w) then (inl (PrismaError "PrismaClientValidationError"), db)
    else (inr (Z.of_nat (length (List.filter (matches w) (inwardEntries db)))), db).

Record Pagination : Type := {
  page : num;
  limit : num;
  total : Z;
  totalPages : num;
  hasNext : bool;
  hasPrev : bool
}.

Record EntryList : Type := {
  entries : list EntryListItem;
  pagination : Pagination
}.

(** The defaults of the destructured [options]. *)
Definition page_of (options : ListOptions) : val := default (VNum (ofZ 1)) (o_page options).
Definition limit_of (options : ListOptions) : val := default (VNum (ofZ 20)) (o_limit options).

(** [skip = (page - 1) * limit] and [take = parseInt(limit)]. *)
Definition skip_of (options : ListOptions) : num :=
  mul (sub (num_of (page_of options)) (ofZ 1)) (num_of (limit_of options)).
Definition take_of (options : ListOptions) : num := parseInt (limit_of options).

Definition where_of (options : ListOptions) : Where :=
  build_where (default "" (o_search options)) (default "" (o_companyId options))
              (default "" (o_startDate options)) (default "" (o_endDate options)).

Definition getAllEntries (options : ListOptions) : M EntryList :=
  let page := page_of options in
  let sortBy := default "date" (o_sortBy options) in
  let sortOrder := default "desc" (o_sortOrder options) in
  let skip := skip_of options in
  let take := take_of options in
  let where_ := where_of options in
  let* entries := inwardEntry_findMany where_ skip take sortBy sortOrder in
  let* total := inwardEntry_count where_ in
  ret {| entries := entries;
         pagination :=
           {| page := parseInt page;
              limit := take;
              total := total;
              totalPages := Math_ceil (div (ofZ total) take);
              hasNext := lt (mul (num_of page) take) (ofZ total);
              hasPrev := gt (num_of page) (ofZ 1) |} |}.

(** *** getEntryById *)

Definition getEntryById (entryId : string) : M EntryView :=
  let* entry := query (inwardEntry_findUnique_id entryId) in
  match entry with
  | None => throw (NotFoundError "Inward entry")
  | Some e =>
      query (fun db =>
               {| ev_entry := e;
                  ev_company := company_findUnique (e_companyId e) db;
                  ev_invoice := invoice_of e db;
                  ev_inwardMaterials := sort_asc m_createdAt (materials_of e db) |})
  end.

(** *** getNextSrNo and generateLotNo *)

(** Numbers are doubles: [parseInt(last) || 0], the sum with 1 and its
    print are those of the integers as long as the number read is below
    2^53 in absolute value. *)

Definition getNextSrNo : M Z :=
  let* lastEntry := query (fun db => first_desc e_srNo (inwardEntries db)) in
  ret match lastEntry with
      | Some e => if e_srNo e =? 0 then 1 else e_srNo e + 1
      | None => 1
      end.

Definition lot_prefix (w : World) : string :=
  "LOT-" ++ string_of_Z (fullYear w)
         ++ padStart 2 "0" (string_of_Z (monthIndex w + 1)).

Definition generateLotNo (w : World) : M string :=
  let* lastEntry :=
    query (fun db =>
             first_desc e_createdAt
               (List.filter (fun e => from_option (startsWith (lot_prefix w)) false (e_lotNo e))
                            (inwardEntries db))) in
  ret match lastEntry ≫= e_lotNo with
      | Some l =>
          if String.eqb l "" then lot_prefix w ++ "-0001"
          else
            let last := default "" (pop (split "-" l)) in
            let lastNum := default 0 (parseInt_string last) in
            lot_prefix w ++ "-"
              ++ padStart 4 "0"
                   (if Z.abs lastNum <? 2 ^ 53
                    then string_of_Z (lastNum + 1)
                    else inexact_successor last)
      | None => lot_prefix w ++ "-0001"
      end.

(** *** createEntry *)

(** The body of a create request.  Text fields are strings or absent,
    [rate] and [quantity] are what the client sent: a number or a string. *)
Record EntryData : Type := {
  d_date : option string;
  d_companyId : option string;
  d_manifestNo : option string;
  d_vehicleNo : option string;
  d_wasteName : option string;
  d_rate : option val;
  d_category : option string;
  d_quantity : option val;
  d_unit : option string;
  d_month : option string;
  d_lotNo : option string;
  d_srNo : option Z
}.

Definition required_present (d : EntryData) : bool :=
  truthy_str (d_date d) && truthy_str (d_companyId d)
  && truthy_str (d_manifestNo d) && truthy_str (d_wasteName d)
  && truthy_val (d_quantity d) && truthy_str (d_unit d).

Definition createEntry (w : World) (entryData : EntryData) : M EntryCreated :=
  if negb (required_present entryData)
  then throw (ValidationError
                "Date, company, manifest number, waste name, quantity, and unit are required")
  else
    let companyId := default "" (d_companyId entryData) in
    let* company := query (company_findUnique companyId) in
    match company with
    | None => throw (NotFoundError "Company")
    | Some _ =>
        let* srNo :=
          match d_srNo entryData with
          | Some n => if n =? 0 then getNextSrNo else ret n
          | None => getNextSrNo
          end in
        let* finalLotNo :=
          if truthy_str (d_lotNo entryData)
          then ret (default "" (d_lotNo entryData))
          else generateLotNo w in
        let* _ :=
          if negb (String.eqb finalLotNo "")
          then
            let* existing := query (inwardEntry_findUnique_lotNo finalLotNo) in
            match existing with
            | Some _ => throw (ValidationError "Lot number already exists")
            | None => ret tt
            end
          else ret tt in
        let* date :=
          match newDate (default "" (d_date entryData)) with
          | Some t => ret t
          | None => throw (PrismaError "PrismaClientValidationError")
          end in
        let* entry :=
          inwardEntry_create
            {| e_id := freshId w;
               e_srNo := srNo;
               e_date := date;
               e_lotNo := Some finalLotNo;
               e_companyId := companyId;
               e_manifestNo := trim (default "" (d_manifestNo entryData));
               e_vehicleNo := trim_or_null (d_vehicleNo entryData);
               e_wasteName := trim (default "" (d_wasteName entryData));
               e_rate := if truthy_val (d_rate entryData)
                         then parseFloat <$> d_rate entryData else None;
               e_category := trim_or_null (d_category entryData);
               e_quantity := from_option parseFloat NaN (d_quantity entryData);
               e_unit := trim (default "" (d_unit entryData));
               e_month := trim_or_null (d_month entryData);
               e_invoiceId := None;
               e_createdAt := timestamp w |} in
        query (fun db =>
                 {| ec_entry := entry;
                    ec_company := company_ref <$> company_findUnique (e_companyId entry) db |})
    end.

(** *** updateEntry *)

(** The body of an update request.  The outer [option] is "the key is
    present" ([!== undefined]); for the nullable columns the inner one is
    the value, [None] being [null]. *)
Record UpdateData : Type := {
  u_date : option string;
  u_companyId : option string;
  u_manifestNo : option string;
  u_vehicleNo : option (option string);
  u_wasteName : option string;
  u_rate : option (option val);
  u_category : option (option string);
  u_quantity : option val;
  u_unit : option string;
  u_month : option (option string);
  u_lotNo : option (option string)
}.

(** The [data] object of the update, as its effect on the stored row;
    [date] is the time value of [new Date(updateData.date)] when the request
    has a date. *)
Definition apply_update (date : option Z) (u : UpdateData) (e : InwardEntry) : InwardEntry :=
  {| e_id := e_id e;
     e_srNo := e_srNo e;
     e_date := default (e_date e) date;
     e_lotNo := from_option trim_or_null (e_lotNo e) (u_lotNo u);
     e_companyId := default (e_companyId e) (u_companyId u);
     e_manifestNo := from_option trim (e_manifestNo e) (u_manifestNo u);
     e_vehicleNo := from_option trim_or_null (e_vehicleNo e) (u_vehicleNo u);
     e_wasteName := from_option trim (e_wasteName e) (u_wasteName u);
     e_rate := from_option (fun r => if truthy_val r then parseFloat <$> r else None)
                           (e_rate e) (u_rate u);
     e_category := from_option trim_or_null (e_category e) (u_category u);
     e_quantity := from_option parseFloat (e_quantity e) (u_quantity u);
     e_unit := from_option trim (e_unit e) (u_unit u);
     e_month := from_option trim_or_null (e_month e) (u_month u);
     e_invoiceId := e_invoiceId e;
     e_createdAt := e_createdAt e |}.

Definition updateEntry (entryId : string) (updateData : UpdateData) : M EntryView :=
  let* _ := getEntryById entryId in
  let* _ :=
    if truthy_str (mjoin (u_lotNo updateData))
    then
      let* existing :=
        query (inwardEntry_findFirst_lotNo_not
                 (default "" (mjoin (u_lotNo updateData))) entryId) in
      match existing with
      | Some _ => throw (ValidationError "Lot number already exists")
      | None => ret tt
      end
    else ret tt in
  let* date :=
    match u_date updateData with
    | Some s =>
        match newDate s with
        | Some t => ret (Some t)
        | None => throw (PrismaError "PrismaClientValidationError")
        end
    | None => ret None
    end in
  let* updated := inwardEntry_update entryId (apply_update date updateData) in
  query (fun db => entry_view db updated).

(** *** deleteEntry and updatePayment *)

Definition deleteEntry (entryId : string) : M unit :=
  let* _ := getEntryById entryId in
  inwardEntry_delete entryId.

(** The payment data of the request; the service does not look at it. *)
Record PaymentData : Type := {
  p_paymentReceived : option val;
  p_paymentReceivedOn : option string
}.

Definition updatePayment (entryId : string) (paymentData : PaymentData) : M EntryView :=
  let* entry := getEntryById entryId in
  ret entry.

(** ** The controller *)

(** The JSON envelope [{ success, data, pagination?, message }]. *)
Record Envelope (D : Type) : Type := {
  success : bool;
  data : option D;
  pagination_ : option Pagination;
  message : string
}.
Arguments success {D} _.
Arguments data {D} _.
Arguments pagination_ {D} _.
Arguments message {D} _.

(** What a handler does with a request: [res.status(s).json(body)], or
    [next(error)] for the error middleware. *)
Inductive Handled (D : Type) : Type :=
| Respond (status : Z) (body : Envelope D)
| Next (error : AppError).
Arguments Respond {D} _ _.
Arguments Next {D} _.

(** [data: { entry }]. *)
Record EntryBox (E : Type) : Type := { entry : E }.
Arguments entry {E} _.

(** [try { ... res.status(s).json(body) } catch (error) { next(error) }]. *)
Definition handle {A D : Type} (m : M A) (respond : A -> Z * Envelope D)
  : Db -> Handled D * Db :=
  fun db =>
    match m db with
    | (inr a, db') => (Respond (fst (respond a)) (snd (respond a)), db')
    | (inl e, db') => (Next e, db')
    end.

(** [req.query] of the list request. *)
Record ListQuery : Type := {
  q_page : option string;
  q_limit : option string;
  q_search : option string;
  q_companyId : option string;
  q_startDate : option string;
  q_endDate : option string;
  q_sortBy : option string;
  q_sortOrder : option string
}.

Definition options_of_query (q : ListQuery) : ListOptions :=
  {| o_page := VStr <$> q_page q;
     o_limit := VStr <$> q_limit q;
     o_search := q_search q;
     o_companyId := q_companyId q;
     o_startDate := q_startDate q;
     o_endDate := q_endDate q;
     o_sortBy := q_sortBy q;
     o_sortOrder := q_sortOrder q |}.

Definition controller_getAllEntries (q : ListQuery)
  : Db -> Handled (list EntryListItem) * Db :=
  handle (getAllEntries (options_of_query q))
    (fun result =>
       (200, {| success := true;
                data := Some (entries result);
                pagination_ := Some (pagination result);
                message := "Inward entries retrieved successfully" |})).

Definition controller_getEntryById (id : string)
  : Db -> Handled (EntryBox EntryView) * Db :=
  handle (getEntryById id)
    (fun e =>
       (200, {| success := true;
                data := Some {| entry := e |};
                pagination_ := None;
                message := "Inward entry retrieved successfully" |})).

(** The handler also writes log lines and, on failure, a debug file; these
    are not part of the response and are left out. *)
Definition controller_createEntry (w : World) (body : EntryData)
  : Db -> Handled (EntryBox EntryCreated) * Db :=
  handle (createEntry w body)
    (fun e =>
       (201, {| success := true;
                data := Some {| entry := e |};
                pagination_ := None;
                message := "Inward entry created successfully" |})).

Definition controller_updateEntry (id : string) (body : UpdateData)
  : Db -> Handled (EntryBox EntryView) * Db :=
  handle (updateEntry id body)
    (fun e =>
       (200, {| success := true;
                data := Some {| entry := e |};
                pagination_ := None;
                message := "Inward entry updated successfully" |})).

Definition controller_deleteEntry (id : string) : Db -> Handled unit * Db :=
  handle (deleteEntry id)
    (fun _ =>
       (200, {| success := true;
                data := None;
                pagination_ := None;
                message := "Inward entry deleted successfully" |})).

Definition controller_updatePayment (id : string) (body : PaymentData)
  : Db -> Handled (EntryBox EntryView) * Db :=
  handle (updatePayment id body)
    (fun e =>
       (200, {| success := true;
                data := Some {| entry := e |};
                pagination_ := None;
                message := "Payment updated successfully" |})).

End InwardService.

Arguments success {D} _.
Arguments data {D} _.
Arguments pagination_ {D} _.
Arguments message {D} _.
Arguments Respond {D} _ _.
Arguments Next {D} _.
Arguments entry {E} _.

End Inward.

(* ===================================================================== *)
(** * Companies: role-based field stripping                               *)
(* ===================================================================== *)

Module Companies.

(** A column value as it is serialised. *)
Inductive scalar : Type :=
| SNull
| SBool (b : bool)
| SNum (q : Q)
| SStr (s : string).

(** A material of a company's price list is a plain object; the handlers
    treat it as a map from keys to values. *)
Abbreviation material := (gmap string scalar).

(** A company as the service returns it: its own columns, and the
    [materials] relation when the query included it. *)
Record company : Type := {
  columns : gmap string scalar;
  materials : option (list material)
}.

(** [const { rate, ...rest } = m; return rest;] *)
Definition without_rate (m : material) : material := delete "rate" m.

(** [req.user?.role === 'admin']. *)
Definition is_admin (role : option string) : bool :=
  bool_decide (role = Some "admin").

(** The envelope of a response, over the type of [data] and of the
    service's pagination object. *)
Record Response (D P : Type) : Type := {
  status : Z;
  success : bool;
  data : D;
  pagination : option P;
  message : string
}.
Arguments status {D P} _.
Arguments success {D P} _.
Arguments data {D P} _.
Arguments pagination {D P} _.
Arguments message {D P} _.

(** The result of [companiesService.getAllCompanies]. *)
Record CompaniesPage (P : Type) : Type := {
  companies : list company;
  page_info : P
}.
Arguments companies {P} _.
Arguments page_info {P} _.

(** [getAllCompanies], from the service's result on. *)
Definition getAllCompanies {P : Type} (role : option string) (result : CompaniesPage P)
  : Response (list company) P :=
  let companies :=
    map (fun c =>
           match materials c with
           | Some ms =>
               if is_admin role then c
               else {| columns := columns c; materials := Some (map without_rate ms) |}
           | None => c
           end)
        (companies result) in
  {| status := 200;
     success := true;
     data := companies;
     pagination := Some (page_info result);
     message := "Companies retrieved successfully" |}.

(** [getCompanyById], from the service's result on; [None] is a [null]
    company. *)
Definition getCompanyById {P : Type} (role : option string) (found : option company)
  : Response (option company) P :=
  let company :=
    match found with
    | Some c =>
        match materials c with
        | Some ms =>
            if negb (is_admin role)
            then Some {| columns := columns c; materials := Some (map without_rate ms) |}
            else Some c
        | None => Some c
        end
    | None => None
    end in
  {| status := 200;
     success := true;
     data := company;
     pagination := None;
     message := "Company retrieved successfully" |}.

(** [getCompanyMaterials], from the service's result on. *)
Definition getCompanyMaterials {P : Type} (role : option string) (ms : list material)
  : Response (list material) P :=
  let strippedMaterials :=
    map (fun m => if is_admin role then m else without_rate m) ms in
  {| status := 200;
     success := true;
     data := strippedMaterials;
     pagination := None;
     message := "Materials retrieved successfully" |}.

(** All the materials a response carries. *)
Definition materials_of_companies (cs : list company) : list material :=
  concat (map (fun c => default [] (materials c)) cs).

End Companies.

(* ===================================================================== *)
(** * The create-invoice form                                             *)
(* ===================================================================== *)

(** [CreateInvoiceModal] during one opening of the modal, up to a
    submission: its state, the totals derived from it on every render and
    the figures shown for them, its event handlers and effects, and what a
    submission sends.  The props and the server are the same throughout, and
    every request has come back before the next event.  The list request of
    [checkExistingInvoice] may fail; the queries that fill the selects and
    the entry list, and the request of [handleAppendConfirm] for an invoice
    that exists, are taken to be answered.
    The payment fields of the form (received, amount, date) and the reset
    after a successful submission are left out. *)
Module InvoiceForm.
Import Js.

Local Open Scope Q_scope.

Inductive InvoiceType : Type := Inward | Outward | Transporter.

#[global] Instance InvoiceType_eq_dec : EqDecision InvoiceType.
Proof. solve_decision. Defined.

(** ** What the server sends *)

Record CompanyInfo : Type := {
  c_id : string;
  c_name : string;
  c_gstNumber : option string;
  c_address : option string
}.

Record InwardEntryInfo : Type := {
  ie_id : string;
  ie_companyId : string;
  ie_company : option CompanyInfo;
  ie_manifestNo : string;
  ie_wasteName : string;
  ie_rate : option Q;
  ie_unit : string;
  ie_quantity : Q;
  ie_invoiceId : option string
}.

Record OutwardEntryInfo : Type := {
  oe_id : string;
  oe_manifestNo : option string;
  oe_invoiceId : option string
}.

Record InvoiceMaterialRow : Type := {
  im_materialName : string;
  im_rate : option Q;
  im_unit : option string;
  im_quantity : option Q;
  im_amount : option Q;
  im_manifestNo : option string;
  im_description : option string
}.

Record Invoice : Type := {
  inv_id : string;
  inv_invoiceNo : string;
  inv_type : InvoiceType;
  inv_companyId : option string;
  inv_status : string;
  inv_invoiceMaterials : option (list InvoiceMaterialRow);
  inv_invoiceManifests : option (list string);
  inv_gstNo : option string;
  inv_billedTo : option string;
  inv_shippedTo : option string;
  inv_description : option string;
  inv_subtotal : Q;
  inv_cgst : option Q;
  inv_sgst : option Q;
  inv_customerName : option string;
  inv_additionalCharges : option Q;
  inv_additionalChargesDescription : option string
}.

(** The invoice with its relations, as [getInvoiceById] returns it. *)
Record FullInvoice : Type := {
  fi_invoice : Invoice;
  fi_inwardEntries : option (list string)
}.

(** The server's tables while the modal is open.  [inwardTable] and
    [invoiceTable] are in the order of the list endpoints (newest first). *)
Record Server : Type := {
  companies : list CompanyInfo;
  transporters : list CompanyInfo;
  inwardTable : list InwardEntryInfo;
  outwardTable : list OutwardEntryInfo;
  invoiceTable : list Invoice
}.

(** ** Props and state *)

Record Props : Type := {
  type : InvoiceType;
  preselectedEntryIds : list string
}.

Record Material : Type := {
  m_materialName : string;
  m_rate : option Q;
  m_unit : option string;
  m_quantity : option Q;
  m_amount : option Q;
  m_manifestNo : option string;
  m_description : option string
}.

Record FormData : Type := {
  f_date : string;
  f_companyId : string;
  f_transporterId : string;
  f_customerName : string;
  f_materials : list Material;
  f_manifestNos : list string;
  f_inwardEntryIds : list string;
  f_outwardEntryIds : list string;
  f_subtotal : Q;
  f_cgstRate : option Q;
  f_sgstRate : option Q;
  f_gstNo : string;
  f_billedTo : string;
  f_shippedTo : string;
  f_description : string;
  f_additionalCharges : Q;
  f_additionalChargesDescription : string;
  f_applyGst : bool
}.

Record State : Type := {
  formData : FormData;
  existingInvoice : option Invoice;
  isAppendMode : bool;
  showAppendAlert : bool
}.

(** [useState] initial values; [today] is the date the modal opens. *)
Definition initial (props : Props) (today : string) : State :=
  {| formData :=
       {| f_date := today;
          f_companyId := "";
          f_transporterId := "";
          f_customerName := "";
          f_materials := [];
          f_manifestNos := [];
          f_inwardEntryIds := preselectedEntryIds props;
          f_outwardEntryIds := [];
          f_subtotal := 0;
          f_cgstRate := None;
          f_sgstRate := None;
          f_gstNo := "";
          f_billedTo := "";
          f_shippedTo := "";
          f_description := "";
          f_additionalCharges := 0;
          f_additionalChargesDescription := "";
          f_applyGst := true |};
     existingInvoice := None;
     isAppendMode := false;
     showAppendAlert := false |}.

Definition with_form (f : FormData) (st : State) : State :=
  {| formData := f;
     existingInvoice := existingInvoice st;
     isAppendMode := isAppendMode st;
     showAppendAlert := showAppendAlert st |}.

(** ** Queries *)

(** [a || b] on strings. *)
Definition or_str (a : option string) (b : string) : string :=
  match a with
  | Some s => if String.eqb s "" then b else s
  | None => b
  end.

(** [!!x] for a nullable string. *)
Definition truthy (a : option string) : bool :=
  match a with
  | Some s => negb (String.eqb s "")
  | None => false
  end.

(** [x ? Number(x) : 0] and [x || 0] on a nullable number. *)
Definition or_zero (a : option Q) : Q := default 0 a.

(** [inwardService.getEntries({ limit: 100, companyId: companyId || undefined })]:
    the first page of the inward list, of that company when one is chosen.
    The query is enabled for an Inward invoice or with preselected entries. *)
Definition inwardEntriesData (props : Props) (srv : Server) (companyId : string)
  : option (list InwardEntryInfo) :=
  if bool_decide (type props = Inward) || negb (bool_decide (preselectedEntryIds props = []))
  then Some (firstn 100
               (List.filter (fun e => String.eqb companyId "" || String.eqb (ie_companyId e) companyId)
                            (inwardTable srv)))
  else None.

Definition inwardEntries (props : Props) (srv : Server) (st : State) : list InwardEntryInfo :=
  default [] (inwardEntriesData props srv (f_companyId (formData st))).

(** [outwardService.getEntries({ limit: 100 })]. *)
Definition outwardEntries (props : Props) (srv : Server) : list OutwardEntryInfo :=
  if bool_decide (type props = Inward) then [] else firstn 100 (outwardTable srv).

(** Modelled from the spec: [invoicesService.getInvoices] and the endpoint
    behind it are not among the sources.  The endpoint is a conventional list
    endpoint with pagination query parameters (spec, External interfaces), as
    the inward list is: it returns the first [limit] invoices that match the
    filters, in the order of the table. *)
Definition getInvoices (srv : Server) (companyId : string) (ty : InvoiceType) (limit : nat)
  : list Invoice :=
  firstn limit
    (List.filter (fun inv => bool_decide (inv_companyId inv = Some companyId)
                             && bool_decide (inv_type inv = ty))
                 (invoiceTable srv)).

(** Modelled from the spec: [invoicesService.getInvoiceById] is not among the
    sources.  It returns the invoice with its relations; the inward entries of
    an invoice are those that link to it (spec, Data model: Invoice to many
    InwardEntry via link fields). *)
Definition getInvoiceById (srv : Server) (id : string) : option FullInvoice :=
  match List.find (fun inv => String.eqb (inv_id inv) id) (invoiceTable srv) with
  | Some inv =>
      Some {| fi_invoice := inv;
              fi_inwardEntries :=
                Some (map ie_id
                        (List.filter (fun e => bool_decide (ie_invoiceId e = Some id))
                                     (inwardTable srv))) |}
  | None => None
  end.

(** ** Totals, computed on every render *)

Definition sum_amounts (ms : list Material) : Q :=
  fold_left (fun sum m => sum + or_zero (m_amount m)) ms 0.

Definition subtotal (f : FormData) : Q :=
  let s := sum_amounts (f_materials f) in
  if Qeq_bool s 0 then f_subtotal f else s.

(** [parseFloat(String(formData.additionalCharges || 0))]: the number itself. *)
Definition additionalCharges (f : FormData) : Q := f_additionalCharges f.

Definition baseForTax (f : FormData) : Q := subtotal f + additionalCharges f.

Definition cgstRateValue (f : FormData) : Q :=
  if f_applyGst f then default 9 (f_cgstRate f) else 0.

Definition sgstRateValue (f : FormData) : Q :=
  if f_applyGst f then default 9 (f_sgstRate f) else 0.

Definition cgst (f : FormData) : Q := (baseForTax f * cgstRateValue f) / 100.

Definition sgst (f : FormData) : Q := (baseForTax f * sgstRateValue f) / 100.

Definition grandTotal (f : FormData) : Q := baseForTax f + cgst f + sgst f.

(** The figures of the totals box, in hundredths: each is the [toFixed(2)]
    of its number, and the additional charges have a line only when they are
    above zero. *)
Record TotalsShown : Type := {
  shown_subtotal : Z;
  shown_additionalCharges : option Z;
  shown_cgst : Z;
  shown_sgst : Z;
  shown_grandTotal : Z
}.

Definition totalsShown (f : FormData) : TotalsShown :=
  {| shown_subtotal := toFixed2 (subtotal f);
     shown_additionalCharges :=
       if Qle_bool (additionalCharges f) 0 then None
       else Some (toFixed2 (additionalCharges f));
     shown_cgst := toFixed2 (cgst f);
     shown_sgst := toFixed2 (sgst f);
     shown_grandTotal := toFixed2 (grandTotal f) |}.

(** ** Effects *)

(** [useEffect(checkExistingInvoice, [formData.companyId, type])].
    [answered] tells whether the list request is answered; when it fails,
    the [catch] writes to the console and nothing is set. *)
Definition checkExistingInvoice (props : Props) (srv : Server) (answered : bool)
  (st : State) : State :=
  if bool_decide (type props = Inward) && negb (String.eqb (f_companyId (formData st)) "")
  then
    if answered
    then
      let invoices := getInvoices srv (f_companyId (formData st)) Inward 5 in
      match List.find (fun inv => negb (String.eqb (inv_status inv) "paid")) invoices with
      | Some candidate =>
          {| formData := formData st;
             existingInvoice := Some candidate;
             isAppendMode := false;
             showAppendAlert := true |}
      | None =>
          {| formData := formData st;
             existingInvoice := None;
             isAppendMode := false;
             showAppendAlert := false |}
      end
    else st
  else
    {| formData := formData st;
       existingInvoice := None;
       isAppendMode := isAppendMode st;
       showAppendAlert := false |}.

(** The effect that fills the form from the preselected entries, run when
    the inward entries arrive. *)
Definition populatePreselected (props : Props) (srv : Server) (st : State) : State :=
  match preselectedEntryIds props, inwardEntriesData props srv (f_companyId (formData st)) with
  | _ :: _, Some data =>
      let entries :=
        List.filter (fun e => bool_decide (ie_id e ∈ preselectedEntryIds props)) data in
      match entries with
      | firstEntry :: _ =>
          let prev := formData st in
          with_form
            {| f_date := f_date prev;
               f_companyId := ie_companyId firstEntry;
               f_transporterId := f_transporterId prev;
               f_customerName := or_str (c_name <$> ie_company firstEntry) "";
               f_materials := f_materials prev;
               f_manifestNos :=
                 List.filter (fun m => negb (String.eqb m "")) (map ie_manifestNo entries);
               f_inwardEntryIds := preselectedEntryIds props;
               f_outwardEntryIds := f_outwardEntryIds prev;
               f_subtotal := f_subtotal prev;
               f_cgstRate := f_cgstRate prev;
               f_sgstRate := f_sgstRate prev;
               f_gstNo := or_str (ie_company firstEntry ≫= c_gstNumber) (f_gstNo prev);
               f_billedTo := or_str (ie_company firstEntry ≫= c_address) (f_billedTo prev);
               f_shippedTo := or_str (ie_company firstEntry ≫= c_address) (f_shippedTo prev);
               f_description := f_description prev;
               f_additionalCharges := f_additionalCharges prev;
               f_additionalChargesDescription := f_additionalChargesDescription prev;
               f_applyGst := f_applyGst prev |}
            st
      | [] => st
      end
  | _, _ => st
  end.

(** The effects that follow a change of [formData.companyId]: the check for
    an existing invoice, and the preselection once the entries of the new
    company have arrived; the preselection may itself set the company, which
    runs both once more.  [answered] and [again] are the outcomes of the
    list requests of the first and of the second check. *)
Definition after_company_change (props : Props) (srv : Server) (answered again : bool)
  (st : State) : State :=
  let st1 := populatePreselected props srv (checkExistingInvoice props srv answered st) in
  if String.eqb (f_companyId (formData st1)) (f_companyId (formData st))
  then st1
  else populatePreselected props srv (checkExistingInvoice props srv again st1).

(** The state once the modal is open and its requests have come back. *)
Definition mounted (props : Props) (srv : Server) (today : string) (answered again : bool)
  : State :=
  let st0 := initial props today in
  let st1 := populatePreselected props srv st0 in
  if String.eqb (f_companyId (formData st1)) ""
  then st1
  else after_company_change props srv answered again st1.

(** [useEffect] on the settings: both GST rates, when both are configured. *)
Definition settingsLoaded (cgstRate sgstRate : Q) (st : State) : State :=
  let prev := formData st in
  with_form
    {| f_date := f_date prev;
       f_companyId := f_companyId prev;
       f_transporterId := f_transporterId prev;
       f_customerName := f_customerName prev;
       f_materials := f_materials prev;
       f_manifestNos := f_manifestNos prev;
       f_inwardEntryIds := f_inwardEntryIds prev;
       f_outwardEntryIds := f_outwardEntryIds prev;
       f_subtotal := f_subtotal prev;
       f_cgstRate := Some cgstRate;
       f_sgstRate := Some sgstRate;
       f_gstNo := f_gstNo prev;
       f_billedTo := f_billedTo prev;
       f_shippedTo := f_shippedTo prev;
       f_description := f_description prev;
       f_additionalCharges := f_additionalCharges prev;
       f_additionalChargesDescription := f_additionalChargesDescription prev;
       f_applyGst := f_applyGst prev |}
    st.

(** ** Event handlers *)

(** [companiesService.getCompanies({ limit: 100 })], enabled for Inward. *)
Definition companiesList (props : Props) (srv : Server) : list CompanyInfo :=
  if bool_decide (type props = Inward) then firstn 100 (companies srv) else [].

(** [onChange] of the company select. *)
Definition company_onChange (props : Props) (srv : Server) (value : string) (st : State)
  : State :=
  let company := List.find (fun c => String.eqb (c_id c) value) (companiesList props srv) in
  let f := formData st in
  with_form
    {| f_date := f_date f;
       f_companyId := value;
       f_transporterId := f_transporterId f;
       f_customerName := or_str (c_name <$> company) "";
       f_materials := [];
       f_manifestNos := [];
       f_inwardEntryIds := [];
       f_outwardEntryIds := f_outwardEntryIds f;
       f_subtotal := 0;
       f_cgstRate := f_cgstRate f;
       f_sgstRate := f_sgstRate f;
       f_gstNo := or_str (company ≫= c_gstNumber) "";
       f_billedTo := or_str (company ≫= c_address) "";
       f_shippedTo := or_str (company ≫= c_address) "";
       f_description := f_description f;
       f_additionalCharges := f_additionalCharges f;
       f_additionalChargesDescription := f_additionalChargesDescription f;
       f_applyGst := f_applyGst f |}
    st.

(** The three lists that the entry checkbox and the merge rewrite. *)
Definition with_links (ids : list string) (ms : list Material) (manifests : list string)
  (f : FormData) : FormData :=
  {| f_date := f_date f;
     f_companyId := f_companyId f;
     f_transporterId := f_transporterId f;
     f_customerName := f_customerName f;
     f_materials := ms;
     f_manifestNos := manifests;
     f_inwardEntryIds := ids;
     f_outwardEntryIds := f_outwardEntryIds f;
     f_subtotal := f_subtotal f;
     f_cgstRate := f_cgstRate f;
     f_sgstRate := f_sgstRate f;
     f_gstNo := f_gstNo f;
     f_billedTo := f_billedTo f;
     f_shippedTo := f_shippedTo f;
     f_description := f_description f;
     f_additionalCharges := f_additionalCharges f;
     f_additionalChargesDescription := f_additionalChargesDescription f;
     f_applyGst := f_applyGst f |}.

Definition isInvoiced (entry : InwardEntryInfo) : bool := truthy (ie_invoiceId entry).

Definition isLinkedToCurrent (st : State) (entry : InwardEntryInfo) : bool :=
  isAppendMode st
  && match existingInvoice st with
     | Some inv => bool_decide (ie_invoiceId entry = Some (inv_id inv))
     | None => false
     end.

Definition isSelected (st : State) (entry : InwardEntryInfo) : bool :=
  bool_decide (ie_id entry ∈ f_inwardEntryIds (formData st)).

Definition isDisabled (st : State) (entry : InwardEntryInfo) : bool :=
  isInvoiced entry && negb (isLinkedToCurrent st entry).

(** [findIndex] then [splice(index, 1)]: drop the first match. *)
Fixpoint remove_first {A : Type} (p : A -> bool) (l : list A) : list A :=
  match l with
  | [] => []
  | x :: r => if p x then r else x :: remove_first p r
  end.

Definition material_of_entry (entry : InwardEntryInfo) : Material :=
  {| m_materialName := ie_wasteName entry;
     m_rate := Some (or_zero (ie_rate entry));
     m_unit := Some (ie_unit entry);
     m_quantity := Some (ie_quantity entry);
     m_amount := Some (ie_quantity entry * or_zero (ie_rate entry));
     m_manifestNo := Some (ie_manifestNo entry);
     m_description := None |}.

(** [onChange] of an entry checkbox, [checked] being the new state. *)
Definition entry_onChange (entry : InwardEntryInfo) (checked : bool) (st : State) : State :=
  let f := formData st in
  if checked
  then
    let newEntryIds := (f_inwardEntryIds f ++ [ie_id entry])%list in
    let newMaterials := (f_materials f ++ [material_of_entry entry])%list in
    let newManifestNos :=
      if negb (String.eqb (ie_manifestNo entry) "")
         && negb (bool_decide (ie_manifestNo entry ∈ f_manifestNos f))
      then (f_manifestNos f ++ [ie_manifestNo entry])%list
      else f_manifestNos f in
    with_form (with_links newEntryIds newMaterials newManifestNos f) st
  else
    let newEntryIds :=
      List.filter (fun id => negb (String.eqb id (ie_id entry))) (f_inwardEntryIds f) in
    let newMaterials :=
      remove_first (fun m => bool_decide (m_manifestNo m = Some (ie_manifestNo entry))
                             && String.eqb (m_materialName m) (ie_wasteName entry))
                   (f_materials f) in
    let isManifestUsed :=
      existsb (fun m => bool_decide (m_manifestNo m = Some (ie_manifestNo entry))) newMaterials in
    let newManifestNos :=
      if isManifestUsed then f_manifestNos f
      else List.filter (fun m => negb (String.eqb m (ie_manifestNo entry))) (f_manifestNos f) in
    with_form (with_links newEntryIds newMaterials newManifestNos f) st.

Definition existing_material (m : InvoiceMaterialRow) : Material :=
  {| m_materialName := im_materialName m;
     m_rate := Some (or_zero (im_rate m));
     m_unit := Some (or_str (im_unit m) "");
     m_quantity := Some (or_zero (im_quantity m));
     m_amount := Some (or_zero (im_amount m));
     m_manifestNo := Some (or_str (im_manifestNo m) "");
     m_description := Some (or_str (im_description m) "") |}.

(** [tax ? (tax / subtotal * 100) : previous].  (For a zero subtotal the
    quotient is not a finite number; that case is not modelled, [_ / 0]
    being 0 in [Q].) *)
Definition rate_from (tax : option Q) (sub : Q) (previous : option Q) : option Q :=
  match tax with
  | Some t => if Qeq_bool t 0 then previous else Some (t / sub * 100)
  | None => previous
  end.

(** The [setFormData] of [handleAppendConfirm]. *)
Definition merge_invoice (fullInvoice : FullInvoice) (prev : FormData) : FormData :=
  let inv := fi_invoice fullInvoice in
  let existingMaterials := map existing_material (default [] (inv_invoiceMaterials inv)) in
  let existingManifests := default [] (inv_invoiceManifests inv) in
  let existingEntryIds := default [] (fi_inwardEntries fullInvoice) in
  {| f_date := f_date prev;
     f_companyId := f_companyId prev;
     f_transporterId := f_transporterId prev;
     f_customerName := or_str (inv_customerName inv) (f_customerName prev);
     f_materials := (existingMaterials ++ f_materials prev)%list;
     f_manifestNos := set_spread (existingManifests ++ f_manifestNos prev)%list;
     f_inwardEntryIds := set_spread (existingEntryIds ++ f_inwardEntryIds prev)%list;
     f_outwardEntryIds := f_outwardEntryIds prev;
     f_subtotal := f_subtotal prev;
     f_cgstRate := rate_from (inv_cgst inv) (inv_subtotal inv) (f_cgstRate prev);
     f_sgstRate := rate_from (inv_sgst inv) (inv_subtotal inv) (f_sgstRate prev);
     f_gstNo := or_str (inv_gstNo inv) (f_gstNo prev);
     f_billedTo := or_str (inv_billedTo inv) (f_billedTo prev);
     f_shippedTo := or_str (inv_shippedTo inv) (f_shippedTo prev);
     f_description := or_str (inv_description inv) (f_description prev);
     f_additionalCharges := or_zero (inv_additionalCharges inv);
     f_additionalChargesDescription := or_str (inv_additionalChargesDescription inv) "";
     f_applyGst := f_applyGst prev |}.

(** [handleAppendConfirm]; when the invoice cannot be fetched the form only
    switches to append mode. *)
Definition handleAppendConfirm (srv : Server) (st : State) : State :=
  match existingInvoice st with
  | None => st
  | Some inv =>
      {| formData :=
           match getInvoiceById srv (inv_id inv) with
           | Some fullInvoice => merge_invoice fullInvoice (formData st)
           | None => formData st
           end;
         existingInvoice := existingInvoice st;
         isAppendMode := true;
         showAppendAlert := false |}
  end.

(** The alert with the append button is rendered. *)
Definition appendOffered (st : State) : bool :=
  showAppendAlert st && bool_decide (is_Some (existingInvoice st)) && negb (isAppendMode st).

(** The "Create New Invoice" button of the alert. *)
Definition dismissAlert (st : State) : State :=
  {| formData := formData st;
     existingInvoice := existingInvoice st;
     isAppendMode := isAppendMode st;
     showAppendAlert := false |}.

Definition with_materials (ms : list Material) (f : FormData) : FormData :=
  with_links (f_inwardEntryIds f) ms (f_manifestNos f) f.

(** [removeMaterial(index)]. *)
Definition removeMaterial (index : nat) (st : State) : State :=
  with_form (with_materials (delete index (f_materials (formData st))) (formData st)) st.

Inductive MaterialField : Type := Quantity | Rate.

(** [updateMaterial(index, field, value)] for the two inputs of a row; the
    amount follows.  The rows are those rendered, so [index] is in range. *)
Definition updateMaterial (index : nat) (field : MaterialField) (value : Q) (st : State)
  : State :=
  match f_materials (formData st) !! index with
  | Some m =>
      let qty := match field with Quantity => value | Rate => or_zero (m_quantity m) end in
      let rate := match field with Rate => value | Quantity => or_zero (m_rate m) end in
      let m' :=
        {| m_materialName := m_materialName m;
           m_rate := match field with Rate => Some value | Quantity => m_rate m end;
           m_unit := m_unit m;
           m_quantity := match field with Quantity => Some value | Rate => m_quantity m end;
           m_amount := Some (qty * rate);
           m_manifestNo := m_manifestNo m;
           m_description := m_description m |} in
      with_form (with_materials (<[index := m']> (f_materials (formData st))) (formData st)) st
  | None => st
  end.

(** The plain inputs of the form: [setFormData({ ...formData, field: value })]. *)
Inductive Input : Type :=
| Date (v : string)
| CustomerName (v : string)
| Subtotal (v : Q)
| GstNo (v : string)
| BilledTo (v : string)
| ShippedTo (v : string)
| Description (v : string)
| AdditionalChargesDescription (v : string)
| AdditionalCharges (v : Q)
| ApplyGst (v : bool).

Definition input_onChange (i : Input) (st : State) : State :=
  let f := formData st in
  with_form
    {| f_date := match i with Date v => v | _ => f_date f end;
       f_companyId := f_companyId f;
       f_transporterId := f_transporterId f;
       f_customerName := match i with CustomerName v => v | _ => f_customerName f end;
       f_materials := f_materials f;
       f_manifestNos := f_manifestNos f;
       f_inwardEntryIds := f_inwardEntryIds f;
       f_outwardEntryIds := f_outwardEntryIds f;
       f_subtotal := match i with Subtotal v => v | _ => f_subtotal f end;
       f_cgstRate := f_cgstRate f;
       f_sgstRate := f_sgstRate f;
       f_gstNo := match i with GstNo v => v | _ => f_gstNo f end;
       f_billedTo := match i with BilledTo v => v | _ => f_billedTo f end;
       f_shippedTo := match i with ShippedTo v => v | _ => f_shippedTo f end;
       f_description := match i with Description v => v | _ => f_description f end;
       f_additionalCharges :=
         match i with AdditionalCharges v => v | _ => f_additionalCharges f end;
       f_additionalChargesDescription :=
         match i with
         | AdditionalChargesDescription v => v
         | _ => f_additionalChargesDescription f
         end;
       f_applyGst := match i with ApplyGst v => v | _ => f_applyGst f end |}
    st.

(** [transportersService.getTransporters({ limit: 100 })]. *)
Definition transportersList (props : Props) (srv : Server) : list CompanyInfo :=
  if bool_decide (type props = Inward) then [] else firstn 100 (transporters srv).

(** [onChange] of the transporter select. *)
Definition transporter_onChange (props : Props) (srv : Server) (value : string) (st : State)
  : State :=
  let transporter :=
    List.find (fun t => String.eqb (c_id t) value) (transportersList props srv) in
  let f := formData st in
  with_form
    {| f_date := f_date f;
       f_companyId := f_companyId f;
       f_transporterId := value;
       f_customerName := or_str (c_name <$> transporter) "";
       f_materials := f_materials f;
       f_manifestNos := f_manifestNos f;
       f_inwardEntryIds := f_inwardEntryIds f;
       f_outwardEntryIds := f_outwardEntryIds f;
       f_subtotal := f_subtotal f;
       f_cgstRate := f_cgstRate f;
       f_sgstRate := f_sgstRate f;
       f_gstNo := or_str (transporter ≫= c_gstNumber) "";
       f_billedTo := or_str (transporter ≫= c_address) "";
       f_shippedTo := or_str (transporter ≫= c_address) "";
       f_description := f_description f;
       f_additionalCharges := f_additionalCharges f;
       f_additionalChargesDescription := f_additionalChargesDescription f;
       f_applyGst := f_applyGst f |}
    st.

(** The options of the outward select: only entries without an invoice. *)
Definition outwardOptions (props : Props) (srv : Server) : list OutwardEntryInfo :=
  List.filter (fun e => negb (truthy (oe_invoiceId e))) (outwardEntries props srv).

(** [onChange] of the outward select, [selected] being the chosen values. *)
Definition outward_onChange (props : Props) (srv : Server) (selected : list string)
  (st : State) : State :=
  let prev := formData st in
  let manifests :=
    omap (fun id =>
            match List.find (fun e => String.eqb (oe_id e) id) (outwardEntries props srv)
                  ≫= oe_manifestNo with
            | Some m => if String.eqb m "" then None else Some m
            | None => None
            end)
         selected in
  with_form
    {| f_date := f_date prev;
       f_companyId := f_companyId prev;
       f_transporterId := f_transporterId prev;
       f_customerName := f_customerName prev;
       f_materials := f_materials prev;
       f_manifestNos := (f_manifestNos prev ++ manifests)%list;
       f_inwardEntryIds := f_inwardEntryIds prev;
       f_outwardEntryIds := selected;
       f_subtotal := f_subtotal prev;
       f_cgstRate := f_cgstRate prev;
       f_sgstRate := f_sgstRate prev;
       f_gstNo := f_gstNo prev;
       f_billedTo := f_billedTo prev;
       f_shippedTo := f_shippedTo prev;
       f_description := f_description prev;
       f_additionalCharges := f_additionalCharges prev;
       f_additionalChargesDescription := f_additionalChargesDescription prev;
       f_applyGst := f_applyGst prev |}
    st.

(** ** Submission *)

Record UpdatePayload : Type := {
  up_date : string;
  up_customerName : string;
  up_materials : list Material;
  up_manifestNos : list string;
  up_subtotal : Q;
  up_cgstRate : option Q;
  up_sgstRate : option Q;
  up_gstNo : string;
  up_billedTo : string;
  up_shippedTo : string;
  up_description : string;
  up_additionalCharges : Q;
  up_additionalChargesDescription : string;
  up_inwardEntryIds : list string
}.

Record CreateInvoiceData : Type := {
  cr_type : InvoiceType;
  cr_date : string;
  cr_companyId : option string;
  cr_transporterId : option string;
  cr_customerName : option string;
  cr_materials : option (list Material);
  cr_manifestNos : option (list string);
  cr_inwardEntryIds : option (list string);
  cr_outwardEntryIds : option (list string);
  cr_subtotal : Q;
  cr_cgstRate : option Q;
  cr_sgstRate : option Q;
  cr_gstNo : option string;
  cr_billedTo : option string;
  cr_shippedTo : option string;
  cr_description : option string;
  cr_additionalCharges : Q;
  cr_additionalChargesDescription : option string
}.

(** What [handleSubmit] does: an error toast, an update of the existing
    invoice, or the creation of a new one. *)
Inductive Submission : Type :=
| Toast (message : string)
| UpdateInvoice (id : string) (payload : UpdatePayload)
| CreateInvoice (payload : CreateInvoiceData).

(** [xs.length === 0]. *)
Definition is_nil {A : Type} (xs : list A) : bool :=
  match xs with
  | [] => true
  | _ :: _ => false
  end.

(** [s || undefined]. *)
Definition nonempty_str (s : string) : option string :=
  if String.eqb s "" then None else Some s.

(** [xs.length > 0 ? xs : undefined]. *)
Definition nonempty_list {A : Type} (xs : list A) : option (list A) :=
  match xs with
  | [] => None
  | _ :: _ => Some xs
  end.

Definition handleSubmit (props : Props) (st : State) : Submission :=
  let f := formData st in
  if bool_decide (type props = Inward) && String.eqb (f_companyId f) ""
  then Toast "Please select a company"
  else if negb (bool_decide (type props = Inward)) && String.eqb (f_transporterId f) ""
  then Toast "Please select a transporter"
  else if is_nil (f_materials f) && Qeq_bool (f_subtotal f) 0
  then Toast "Please add at least one material or enter a subtotal"
  else
    let manifestNos := set_spread (f_manifestNos f) in
    match isAppendMode st, existingInvoice st with
    | true, Some inv =>
        UpdateInvoice (inv_id inv)
          {| up_date := f_date f;
             up_customerName := f_customerName f;
             up_materials := f_materials f;
             up_manifestNos := manifestNos;
             up_subtotal := subtotal f;
             up_cgstRate := if f_applyGst f then f_cgstRate f else Some 0;
             up_sgstRate := if f_applyGst f then f_sgstRate f else Some 0;
             up_gstNo := f_gstNo f;
             up_billedTo := f_billedTo f;
             up_shippedTo := f_shippedTo f;
             up_description := f_description f;
             up_additionalCharges := f_additionalCharges f;
             up_additionalChargesDescription := f_additionalChargesDescription f;
             up_inwardEntryIds := f_inwardEntryIds f |}
    | _, _ =>
        CreateInvoice
          {| cr_type := type props;
             cr_date := f_date f;
             cr_companyId := nonempty_str (f_companyId f);
             cr_transporterId := nonempty_str (f_transporterId f);
             cr_customerName := nonempty_str (f_customerName f);
             cr_materials := nonempty_list (f_materials f);
             cr_manifestNos := nonempty_list (f_manifestNos f);
             cr_inwardEntryIds := nonempty_list (f_inwardEntryIds f);
             cr_outwardEntryIds := nonempty_list (f_outwardEntryIds f);
             cr_subtotal := subtotal f;
             cr_cgstRate := if f_applyGst f then f_cgstRate f else Some 0;
             cr_sgstRate := if f_applyGst f then f_sgstRate f else Some 0;
             cr_gstNo := nonempty_str (f_gstNo f);
             cr_billedTo := nonempty_str (f_billedTo f);
             cr_shippedTo := nonempty_str (f_shippedTo f);
             cr_description := nonempty_str (f_description f);
             cr_additionalCharges := f_additionalCharges f;
             cr_additionalChargesDescription :=
               nonempty_str (f_additionalChargesDescription f) |}
    end.

(** ** The form as a transition system *)

(** What can happen to an open form.  A control that is not rendered, or is
    disabled, cannot raise its event.  [SelectCompany] comes with the
    outcomes of the list requests that the change of company sets off;
    [ToggleEntry index] is a click on the checkbox of the entry rendered at
    [index]. *)
Inductive Event : Type :=
| SelectCompany (value : string) (answered again : bool)
| SelectTransporter (value : string)
| ToggleEntry (index : nat)
| AppendConfirm
| CreateNew
| RemoveMaterial (index : nat)
| UpdateMaterial (index : nat) (field : MaterialField) (value : Q)
| SelectOutward (selected : list string)
| Edit (i : Input)
| SettingsLoaded (cgstRate sgstRate : Q).

Definition enabled (props : Props) (srv : Server) (st : State) (ev : Event) : bool :=
  match ev with
  | SelectCompany _ _ _ => bool_decide (type props = Inward) && negb (isAppendMode st)
  | SelectTransporter _ => negb (bool_decide (type props = Inward))
  | ToggleEntry index =>
      match inwardEntries props srv st !! index with
      | Some entry =>
          bool_decide (type props = Inward)
          && negb (String.eqb (f_companyId (formData st)) "")
          && negb (isDisabled st entry)
      | None => false
      end
  | AppendConfirm | CreateNew => appendOffered st
  | RemoveMaterial index | UpdateMaterial index _ _ =>
      bool_decide (index < length (f_materials (formData st)))%nat
  | SelectOutward selected =>
      negb (bool_decide (type props = Inward))
      && negb (is_nil (outwardEntries props srv))
      && forallb (fun id => bool_decide (id ∈ map oe_id (outwardOptions props srv))) selected
  | Edit (Subtotal _) => is_nil (f_materials (formData st))
  | Edit _ => true
  | SettingsLoaded _ _ => true
  end.

Definition handle (props : Props) (srv : Server) (st : State) (ev : Event) : State :=
  match ev with
  | SelectCompany value answered again =>
      let st' := company_onChange props srv value st in
      if String.eqb value (f_companyId (formData st)) then st'
      else after_company_change props srv answered again st'
  | SelectTransporter value => transporter_onChange props srv value st
  | ToggleEntry index =>
      match inwardEntries props srv st !! index with
      | Some entry => entry_onChange entry (negb (isSelected st entry)) st
      | None => st
      end
  | AppendConfirm => handleAppendConfirm srv st
  | CreateNew => dismissAlert st
  | RemoveMaterial index => removeMaterial index st
  | UpdateMaterial index field value => updateMaterial index field value st
  | SelectOutward selected => outward_onChange props srv selected st
  | Edit i => input_onChange i st
  | SettingsLoaded c s => settingsLoaded c s st
  end.

Definition step (props : Props) (srv : Server) (st : State) (ev : Event) : option State :=
  if enabled props srv st ev then Some (handle props srv st ev) else None.

(** The states the form can be in after the modal has opened. *)
Inductive reachable (props : Props) (srv : Server) (today : string) : State -> Prop :=
| reachable_mounted answered again :
    reachable props srv today (mounted props srv today answered again)
| reachable_step st ev st' :
    reachable props srv today st ->
    step props srv st ev = Some st' ->
    reachable props srv today st'.

End InvoiceForm.

(* ===================================================================== *)
(** * Sample data                                                         *)
(* ===================================================================== *)

(** A small database and a few requests, used to run the definitions. *)
Module Samples.
Import Js Inward.

Definition acme : Company :=
  {| c_id := "c1"; c_name := "Acme Chemicals";
     c_gstNumber := Some "24AAACA0000A1Z5"; c_address := Some "Plot 7, GIDC" |}.

Definition entry (id : string) (srNo : Z) (lotNo : string) (manifestNo : string)
  (createdAt : Z) : InwardEntry :=
  {| e_id := id;
     e_srNo := srNo;
     e_date := createdAt;
     e_lotNo := Some lotNo;
     e_companyId := "c1";
     e_manifestNo := manifestNo;
     e_vehicleNo := None;
     e_wasteName := "Spent solvent";
     e_rate := Some (ofZ 12);
     e_category := None;
     e_quantity := ofZ 5;
     e_unit := "MT";
     e_month := None;
     e_invoiceId := None;
     e_createdAt := createdAt |}.

Definition db : Db :=
  {| inwardEntries :=
       [ entry "e1" 1 "LOT-202401-0001" "MF-1" 100;
         entry "e2" 2 "LOT-202401-0002" "MF-2" 200;
         entry "e3" 3 "LOT-202401-0003" "MF-3" 300 ];
     companies := [acme];
     invoices := [];
     inwardMaterials := [] |}.

Definition world : World :=
  {| fullYear := 2024; monthIndex := 0; timestamp := 400; freshId := "e4" |}.

(** Stand-ins for the built-ins and the answers of the database that the
    service takes as parameters; they agree with them on the strings used
    below. *)

(** [Number(s)] and [parseFloat(s)] of a decimal numeral without a
    fraction. *)
Definition toNumber (s : string) : num := from_option ofZ NaN (parseInt_string s).
Definition parseFloat_string (s : string) : num := from_option ofZ NaN (parseInt_string s).

(** The days from 1970-01-01 to the day [d] of the month [m] of the year
    [y]. *)
Definition days_from_civil (y m d : Z) : Z :=
  let y' := if m <=? 2 then y - 1 else y in
  let era := y' / 400 in
  let yoe := y' - era * 400 in
  let doy := (153 * (if 2 <? m then m - 3 else m + 9) + 2) / 5 + d - 1 in
  let doe := yoe * 365 + yoe / 4 - yoe / 100 + doy in
  era * 146097 + doe - 719468.

Definition days_in_month (y m : Z) : Z :=
  if m =? 2
  then if (y mod 4 =? 0) && (negb (y mod 100 =? 0) || (y mod 400 =? 0)) then 29 else 28
  else if (m =? 4) || (m =? 6) || (m =? 9) || (m =? 11) then 30 else 31.

(** The value of a string of [n] decimal digits. *)
Definition digits (n : nat) (s : string) : option Z :=
  if (String.length s =? n)%nat
     && forallb (fun c => bool_decide (is_Some (digit_value 10 c))) (list_ascii_of_string s)
  then read_digits 10 s None
  else None.

(** [new Date(s)] for a date [yyyy-mm-dd] of the calendar: midnight UTC of
    that day, in milliseconds.  Other strings count as no date. *)
Definition newDate (s : string) : option Z :=
  if (String.length s =? 10)%nat
     && bool_decide (String.get 4 s = Some "-"%char)
     && bool_decide (String.get 7 s = Some "-"%char)
  then
    y ← digits 4 (substring 0 4 s);
    m ← digits 2 (substring 5 2 s);
    d ← digits 2 (substring 8 2 s);
    if (1 <=? m) && (m <=? 12) && (1 <=? d) && (d <=? days_in_month y m)
    then Some (days_from_civil y m d * 86400000)
    else None
  else None.

(** [contains] without regard to the case of ASCII letters. *)
Definition contains_insensitive (needle hay : string) : bool :=
  includes (toLowerCase needle) (toLowerCase hay).

(** The order of the database by one of the numeric columns; other sort
    keys and orders count as refused. *)
Definition orderBy (sortBy sortOrder : string) (rows : list InwardEntry)
  : option (list InwardEntry) :=
  key ← (if String.eqb sortBy "date" then Some e_date
         else if String.eqb sortBy "srNo" then Some e_srNo
         else if String.eqb sortBy "createdAt" then Some e_createdAt
         else None);
  if String.eqb sortOrder "asc" then Some (sort_asc key rows)
  else if String.eqb sortOrder "desc" then Some (sort_asc (fun e => - key e) rows)
  else None.

(** Not called on the lot numbers below, whose counts are small. *)
Definition inexact_successor (s : string) : string := s.

(** [GET /api/inward?limit=2]. *)
Definition list_query : ListQuery :=
  {| q_page := None; q_limit := Some "2"; q_search := None; q_companyId := None;
     q_startDate := None; q_endDate := None; q_sortBy := None; q_sortOrder := None |}.

(** A create request with all the required fields. *)
Definition create_body (companyId : string) (lotNo : option string) : EntryData :=
  {| d_date := Some "2024-01-15";
     d_companyId := Some companyId;
     d_manifestNo := Some " MF-4 ";
     d_vehicleNo := None;
     d_wasteName := Some "Spent solvent";
     d_rate := None;
     d_category := None;
     d_quantity := Some (VNum (ofZ 3));
     d_unit := Some "MT";
     d_month := None;
     d_lotNo := lotNo;
     d_srNo := None |}.

(** An update that only sets the lot number. *)
Definition update_lotNo (lotNo : string) : UpdateData :=
  {| u_date := None; u_companyId := None; u_manifestNo := None; u_vehicleNo := None;
     u_wasteName := None; u_rate := None; u_category := None; u_quantity := None;
     u_unit := None; u_month := None; u_lotNo := Some (Some lotNo) |}.

End Samples.

(** Servers and props for the create-invoice form. *)
Module FormSamples.
Import InvoiceForm.

Local Open Scope Q_scope.

Definition acme : CompanyInfo :=
  {| c_id := "c1"; c_name := "Acme Chemicals";
     c_gstNumber := Some "24AAACA0000A1Z5"; c_address := Some "Plot 7, GIDC" |}.

Definition inward (id manifestNo : string) (invoiceId : option string) : InwardEntryInfo :=
  {| ie_id := id;
     ie_companyId := "c1";
     ie_company := Some acme;
     ie_manifestNo := manifestNo;
     ie_wasteName := "Spent solvent";
     ie_rate := Some 12;
     ie_unit := "MT";
     ie_quantity := 5;
     ie_invoiceId := invoiceId |}.

Definition invoice (id status : string) (ms : list InvoiceMaterialRow)
  (manifests : list string) : Invoice :=
  {| inv_id := id;
     inv_invoiceNo := id;
     inv_type := Inward;
     inv_companyId := Some "c1";
     inv_status := status;
     inv_invoiceMaterials := Some ms;
     inv_invoiceManifests := Some manifests;
     inv_gstNo := None;
     inv_billedTo := None;
     inv_shippedTo := None;
     inv_description := None;
     inv_subtotal := 60;
     inv_cgst := None;
     inv_sgst := None;
     inv_customerName := Some "Acme Chemicals";
     inv_additionalCharges := None;
     inv_additionalChargesDescription := None |}.

Definition billed : InvoiceMaterialRow :=
  {| im_materialName := "Spent solvent";
     im_rate := Some 12;
     im_unit := Some "MT";
     im_quantity := Some 5;
     im_amount := Some 60;
     im_manifestNo := Some "MF-2";
     im_description := None |}.

(** One open invoice [inv1] that already bills entry [e2]; entry [e1] is
    free, entry [e3] belongs to another invoice. *)
Definition server : Server :=
  {| companies := [acme];
     transporters := [];
     inwardTable := [ inward "e1" "MF-1" None;
                      inward "e2" "MF-2" (Some "inv1");
                      inward "e3" "MF-3" (Some "inv9") ];
     outwardTable := [];
     invoiceTable := [ invoice "inv1" "pending" [billed] ["MF-2"] ] |}.

Definition borax : CompanyInfo :=
  {| c_id := "c2"; c_name := "Borax Works"; c_gstNumber := None; c_address := None |}.

(** Two companies; the open invoice [inv1] is of the first. *)
Definition two_companies : Server :=
  {| companies := [acme; borax];
     transporters := [];
     inwardTable := [ inward "e1" "MF-1" None ];
     outwardTable := [];
     invoiceTable := [ invoice "inv1" "pending" [billed] ["MF-2"] ] |}.


(** A transporter with two outward entries that are not invoiced. *)
Definition outward_server : Server :=
  {| companies := [];
     transporters := [ {| c_id := "t1"; c_name := "Roadways";
                          c_gstNumber := None; c_address := None |} ];
     inwardTable := [];
     outwardTable := [ {| oe_id := "o1"; oe_manifestNo := Some "M1"; oe_invoiceId := None |};
                       {| oe_id := "o2"; oe_manifestNo := Some "M2"; oe_invoiceId := None |} ];
     invoiceTable := [] |}.

Definition plain : Props := {| type := Inward; preselectedEntryIds := [] |}.

Definition for_transporter : Props := {| type := Transporter; preselectedEntryIds := [] |}.

Definition preselecting (ids : list string) : Props :=
  {| type := Inward; preselectedEntryIds := ids |}.

Definition today : string := "2024-01-15".

(** Run a list of events from the mounted form; [None] when one of them is
    not enabled. *)
Fixpoint run (props : Props) (srv : Server) (st : State) (evs : list Event) : option State :=
  match evs with
  | [] => Some st
  | ev :: r =>
      match step props srv st ev with
      | Some st' => run props srv st' r
      | None => None
      end
  end.

End FormSamples.

(* ===================================================================== *)
(** * Inward statistics                                                   *)
(* ===================================================================== *)

(** [InwardService.getStats] and its handler, over the database and the
    monad of [Inward]. *)
Module InwardStats.
Import Js Inward.

(** [x + y] on numbers. *)
Definition add (x y : num) : num :=
  match x, y with
  | Fin a, Fin b => Fin (a + b)
  | NaN, _ | _, NaN => NaN
  | Inf s, Inf t => if Bool.eqb s t then Inf s else NaN
  | Inf s, Fin _ | Fin _, Inf s => Inf s
  end.

(** An entry with [include: { invoice: { select: { grandTotal,
    paymentReceived } } }]; [None] is a [null] invoice. *)
Record EntryWithInvoice : Type := {
  row : InwardEntry;
  invoice : option Invoice
}.

Definition inwardEntry_findMany_invoice (db : Db) : list EntryWithInvoice :=
  map (fun e => {| row := e; invoice := invoice_of e db |}) (inwardEntries db).

Record Stats : Type := {
  totalEntries : Z;
  totalQuantity : num;
  totalInvoiced : num;
  totalReceived : num
}.

(** [Number(e.invoice.field)] on an entry that passed [filter((e) => e.invoice)];
    a column of an invoice is a finite number. *)
Definition invoice_number (field : Invoice -> Q) (e : EntryWithInvoice) : num :=
  from_option (fun i => Fin (field i)) NaN (invoice e).

Definition getStats : M Stats :=
  let* entries := query inwardEntry_findMany_invoice in
  let invoiced := List.filter (fun e => bool_decide (is_Some (invoice e))) entries in
  ret {| totalEntries := Z.of_nat (length entries);
         totalQuantity :=
           fold_left (fun sum e => add sum (e_quantity (row e))) entries (ofZ 0);
         totalInvoiced :=
           fold_left (fun sum e => add sum (invoice_number i_grandTotal e)) invoiced (ofZ 0);
         totalReceived :=
           fold_left (fun sum e => add sum (invoice_number i_paymentReceived e)) invoiced
                     (ofZ 0) |}.

(** [data: { stats }]. *)
Record StatsBox : Type := { stats : Stats }.

Definition controller_getStats : Db -> Handled StatsBox * Db :=
  handle getStats
    (fun s =>
       (200, {| success := true;
                data := Some {| stats := s |};
                pagination_ := None;
                message := "Statistics retrieved successfully" |})).

End InwardStats.

(* ===================================================================== *)
(** * Companies: the material handlers                                    *)
(* ===================================================================== *)

(** [addMaterial] and [updateMaterial] of [CompaniesController], from the
    service's result on.  The log lines are left out, but not the property
    access they make on the material. *)
Module CompanyMaterials.
Import Companies.

(** [data: { material }]. *)
Record MaterialBox : Type := { material_ : material }.

(** What the handler does: [res.status(s).json(body)], or [next(error)]
    with the error caught, here the [TypeError] of a property access on
    [null]. *)
Inductive Handled : Type :=
| Respond (response : Response MaterialBox unit)
| Next (error : string).

(** [if (role !== 'admin' && material) { delete material.rate; }]. *)
Definition strip (role : option string) (m : material) : material :=
  if negb (is_admin role) then delete "rate" m else m.

(** [material] is what the service resolved to; [None] is [null], on which
    the log line's [material.materialName] throws. *)
Definition addMaterial (role : option string) (material : option material) : Handled :=
  match material with
  | None => Next "TypeError"
  | Some m =>
      Respond {| status := 201;
                 success := true;
                 data := {| material_ := strip role m |};
                 pagination := None;
                 message := "Material added successfully" |}
  end.

(** As [addMaterial]; the log line reads [material.id]. *)
Definition updateMaterial (role : option string) (material : option material) : Handled :=
  match material with
  | None => Next "TypeError"
  | Some m =>
      Respond {| status := 200;
                 success := true;
                 data := {| material_ := strip role m |};
                 pagination := None;
                 message := "Material updated successfully" |}
  end.

End CompanyMaterials.

(* ===================================================================== *)
(** * The data table: its pagination control                              *)
(* ===================================================================== *)

(** The pagination bar of [DataTable].  Page numbers are integers. *)
Module DataTable.

(** The props that the bar reads; an absent page is 1. *)
Record Props : Type := {
  currentPage : option Z;
  totalPages : option Z;
  onPageChange : bool
}.

Definition currentPage_of (p : Props) : Z := default 1 (currentPage p).
Definition totalPages_of (p : Props) : Z := default 1 (totalPages p).

(** The number on the button at index [i]. *)
Definition pageNum (currentPage totalPages i : Z) : Z :=
  if totalPages <=? 5 then i + 1
  else if currentPage <=? 3 then i + 1
  else if currentPage >=? totalPages - 2 then totalPages - 4 + i
  else currentPage - 2 + i.

(** [Array.from({ length: Math.min(5, totalPages) }, (_, i) => pageNum)]. *)
Definition pageButtons (currentPage totalPages : Z) : list Z :=
  map (fun i => pageNum currentPage totalPages (Z.of_nat i))
      (seq 0 (Z.to_nat (Z.min 5 totalPages))).

(** The bar is rendered for [totalPages > 1]. *)
Definition barShown (p : Props) : bool := 1 <? totalPages_of p.

(** The numbered buttons that are rendered. *)
Definition buttons (p : Props) : list Z :=
  if barShown p && onPageChange p
  then pageButtons (currentPage_of p) (totalPages_of p)
  else [].

Definition previousDisabled (p : Props) : bool := currentPage_of p =? 1.
Definition nextDisabled (p : Props) : bool := currentPage_of p =? totalPages_of p.

Inductive Control : Type :=
| Previous
| Following
| PageButton (index : nat).

(** The page that a click hands to [onPageChange]; [None] when the control
    is not rendered or is disabled, or no [onPageChange] was given. *)
Definition click (p : Props) (c : Control) : option Z :=
  if barShown p && onPageChange p
  then match c with
       | Previous =>
           if previousDisabled p then None else Some (currentPage_of p - 1)
       | Following =>
           if nextDisabled p then None else Some (currentPage_of p + 1)
       | PageButton index => buttons p !! index
       end
  else None.

End DataTable.

(* ===================================================================== *)
(** * More sample data                                                    *)
(* ===================================================================== *)

Module MoreSamples.
Import Js Inward.

Definition billed_by (invoiceId : string) (e : InwardEntry) : InwardEntry :=
  {| e_id := e_id e;
     e_srNo := e_srNo e;
     e_date := e_date e;
     e_lotNo := e_lotNo e;
     e_companyId := e_companyId e;
     e_manifestNo := e_manifestNo e;
     e_vehicleNo := e_vehicleNo e;
     e_wasteName := e_wasteName e;
     e_rate := e_rate e;
     e_category := e_category e;
     e_quantity := e_quantity e;
     e_unit := e_unit e;
     e_month := e_month e;
     e_invoiceId := Some invoiceId;
     e_createdAt := e_createdAt e |}.

Definition inv1 : Invoice :=
  {| i_id := "inv1"; i_invoiceNo := "INV-1";
     i_grandTotal := 100; i_paymentReceived := 40; i_paymentReceivedOn := None |}.

Definition inv2 : Invoice :=
  {| i_id := "inv2"; i_invoiceNo := "INV-2";
     i_grandTotal := 70; i_paymentReceived := 70; i_paymentReceivedOn := Some 250 |}.

(** Invoice [inv1] bills the entries [e1] and [e2]; [e3] is not billed and
    [inv2] bills no entry. *)
Definition billed_db : Db :=
  {| inwardEntries :=
       [ billed_by "inv1" (Samples.entry "e1" 1 "LOT-202401-0001" "MF-1" 100);
         billed_by "inv1" (Samples.entry "e2" 2 "LOT-202401-0002" "MF-2" 200);
         Samples.entry "e3" 3 "LOT-202401-0003" "MF-3" 300 ];
     companies := [Samples.acme];
     invoices := [inv1; inv2];
     inwardMaterials := [] |}.

(** A create request with the given quantity and rate. *)
Definition with_numbers (quantity rate : option val) (d : EntryData) : EntryData :=
  {| d_date := d_date d;
     d_companyId := d_companyId d;
     d_manifestNo := d_manifestNo d;
     d_vehicleNo := d_vehicleNo d;
     d_wasteName := d_wasteName d;
     d_rate := rate;
     d_category := d_category d;
     d_quantity := quantity;
     d_unit := d_unit d;
     d_month := d_month d;
     d_lotNo := d_lotNo d;
     d_srNo := d_srNo d |}.

(** [GET /api/inward?limit=0]. *)
Definition no_page_size : ListQuery :=
  {| q_page := None; q_limit := Some "0"; q_search := None; q_companyId := None;
     q_startDate := None; q_endDate := None; q_sortBy := None; q_sortOrder := None |}.

End MoreSamples.

(* ===================================================================== *)
(** * Facts about the built-ins                                           *)
(* ===================================================================== *)

Module JsProps.
Import Js.

(** ** [Array.prototype.find] *)

Lemma find_is_None {A : Type} (p : A -> bool) (l : list A) :
  List.find p l = None <-> forall x, x ∈ l -> p x = false.
Proof.
  split.
  - intros H x Hx. apply (find_none p l H). apply list_elem_of_In. exact Hx.
  - intros H. destruct (List.find p l) as [x |] eqn:E; [| reflexivity].
    apply find_some in E. destruct E as [Hin Hp].
    apply list_elem_of_In in Hin. rewrite (H x Hin) in Hp. discriminate.
Qed.

Lemma find_is_Some {A : Type} (p : A -> bool) (l : list A) :
  is_Some (List.find p l) <-> exists x, x ∈ l /\ p x = true.
Proof.
  split.
  - intros [x E]. apply find_some in E. destruct E as [Hin Hp].
    exists x. split; [apply list_elem_of_In; exact Hin | exact Hp].
  - intros (x & Hin & Hp). destruct (List.find p l) eqn:E; [eauto |].
    rewrite (proj1 (find_is_None p l) E x Hin) in Hp. discriminate.
Qed.

Lemma find_elem_of {A : Type} (p : A -> bool) (l : list A) (x : A) :
  List.find p l = Some x -> x ∈ l /\ p x = true.
Proof.
  intros E. apply find_some in E. destruct E as [Hin Hp].
  split; [apply list_elem_of_In; exact Hin | exact Hp].
Qed.

Lemma filter_elem_of {A : Type} (p : A -> bool) (l : list A) (x : A) :
  x ∈ List.filter p l <-> x ∈ l /\ p x = true.
Proof. rewrite !list_elem_of_In. apply filter_In. Qed.

Lemma firstn_elem_of {A : Type} (n : nat) (l : list A) (x : A) :
  x ∈ firstn n l -> x ∈ l.
Proof.
  revert n. induction l as [| y l IH]; intros [| n]; cbn; try (intros H; inversion H; fail).
  rewrite !elem_of_cons. intros [-> | H]; [auto | right; exact (IH n H)].
Qed.

(** ** [[...new Set(xs)]] *)

Lemma set_spread_from_elem_of (seen xs : list string) (x : string) :
  x ∈ set_spread_from seen xs <-> x ∈ xs /\ x ∉ seen.
Proof.
  revert seen. induction xs as [| y r IH]; intros seen; cbn.
  - rewrite elem_of_nil. tauto.
  - case_bool_decide as Hy.
    + rewrite IH, elem_of_cons. split.
      * intros [H1 H2]. auto.
      * intros [[-> | H1] H2]; [contradiction | auto].
    + rewrite !elem_of_cons, IH, elem_of_cons. split.
      * intros [-> | [H1 H2]]; [auto |]. split; [auto |]. intros H. apply H2. auto.
      * intros [[-> | H1] H2]; [auto |].
        destruct (decide (x = y)) as [-> | Hne]; [auto |].
        right. split; [exact H1 |]. intros [? | ?]; [contradiction | contradiction].
Qed.


(** The spread of a set has the elements of the list, each once. *)
Lemma set_spread_elem_of (xs : list string) (x : string) : x ∈ set_spread xs <-> x ∈ xs.
Proof.
  unfold set_spread. rewrite set_spread_from_elem_of, elem_of_nil. tauto.
Qed.


Example set_spread_keeps_first :
  set_spread ["b"; "a"; "b"; "c"; "a"] = ["b"; "a"; "c"].
Proof. reflexivity. Qed.

(** ** Trimming and parsing *)

Example trim_sample : trim "  LOT-1 " = "LOT-1".
Proof. reflexivity. Qed.

Example parseInt_samples :
  parseInt_string "0007" = Some 7%Z
  /\ parseInt_string " 12px" = Some 12%Z
  /\ parseInt_string "0x1f" = Some 31%Z
  /\ parseInt_string "abc" = None
  /\ parseInt_string "" = None.
Proof. repeat split; reflexivity. Qed.

Example padStart_samples :
  padStart 4 "0" (string_of_Z 8) = "0008" /\ padStart 4 "0" (string_of_Z 12345) = "12345".
Proof. split; reflexivity. Qed.

End JsProps.

(* ===================================================================== *)
(** * More of the built-ins: digits, [split] and [parseInt]               *)
(* ===================================================================== *)

Module JsMoreProps.
Import Js.

Definition is_digit (c : ascii) : bool :=
  let n := nat_of_ascii c in ((48 <=? n) && (n <=? 57))%nat.

Fixpoint all_digits (s : string) : bool :=
  match s with
  | EmptyString => true
  | String c r => is_digit c && all_digits r
  end.

Lemma is_digit_cases (c : ascii) :
  is_digit c = true ->
  c ∈ ["0"; "1"; "2"; "3"; "4"; "5"; "6"; "7"; "8"; "9"]%char.
Proof.
  destruct c as [[] [] [] [] [] [] [] []]; intros H;
    try discriminate H; set_solver.
Qed.

Lemma all_digits_app (a b : string) :
  all_digits (a ++ b) = all_digits a && all_digits b.
Proof.
  induction a as [| c r IH]; [reflexivity |].
  change (String c r ++ b) with (String c (r ++ b)).
  cbn [all_digits]. rewrite IH, andb_assoc. reflexivity.
Qed.

Lemma all_digits_repeat (k : nat) : all_digits (repeat_char "0" k) = true.
Proof. induction k as [| k IH]; [reflexivity | exact IH]. Qed.

Lemma all_digits_uint (d : uint) : all_digits (NilEmpty.string_of_uint d) = true.
Proof. induction d; cbn; auto. Qed.

(** The digits of a natural number, padded or not. *)
Lemma all_digits_padded (width : nat) (n : Z) :
  0 <= n -> all_digits (padStart width "0" (string_of_Z n)) = true.
Proof.
  intros Hn. unfold padStart. rewrite all_digits_app, all_digits_repeat. cbn.
  unfold string_of_Z. destruct n as [| p | p]; [reflexivity | | lia].
  cbn. destruct (Pos.to_uint p); try reflexivity; apply (all_digits_uint (_ _)).
Qed.

(** *** [split] and [pop] *)

Lemma split_digits (s : string) : all_digits s = true -> split "-" s = [s].
Proof.
  induction s as [| c r IH]; [reflexivity |].
  cbn [all_digits]. intros H. apply andb_true_iff in H. destruct H as [Hc Hr].
  cbn [split]. rewrite (IH Hr).
  apply is_digit_cases in Hc.
  repeat (apply elem_of_cons in Hc; destruct Hc as [-> | Hc]; [reflexivity |]).
  inversion Hc.
Qed.

Lemma pop_cons (x : string) (xs : list string) : xs <> [] -> pop (x :: xs) = pop xs.
Proof. destruct xs; [congruence | reflexivity]. Qed.

Lemma split_after (sep : ascii) (a b : string) :
  exists seg segs,
    split sep (a ++ String sep b) = seg :: segs
    /\ segs <> [] /\ pop segs = pop (split sep b).
Proof.
  assert (Hne : forall s, split sep s <> []).
  { intros [| c r]; cbn; [discriminate |].
    destruct (Ascii.eqb c sep); [discriminate |]. destruct (split sep r); discriminate. }
  induction a as [| c r (seg & segs & E & Hsegs & Hpop)].
  - exists "", (split sep b). change ("" ++ String sep b) with (String sep b).
    cbn [split]. rewrite Ascii.eqb_refl. auto.
  - change (String c r ++ String sep b) with (String c (r ++ String sep b)).
    cbn [split]. rewrite E. destruct (Ascii.eqb c sep).
    + exists "", (seg :: segs). split; [reflexivity |]. split; [discriminate |].
      rewrite (pop_cons _ _ Hsegs). exact Hpop.
    + exists (String c seg), segs. auto.
Qed.

(** The last segment of a string is what follows its last separator. *)
Lemma pop_split_last (a b : string) :
  all_digits b = true -> pop (split "-" (a ++ "-" ++ b)) = Some b.
Proof.
  intros Hb. destruct (split_after "-" a b) as (seg & segs & E & Hsegs & Hpop).
  change (a ++ "-" ++ b) with (a ++ String "-" b).
  rewrite E, (pop_cons _ _ Hsegs), Hpop, (split_digits _ Hb). reflexivity.
Qed.

(** *** Reading digits back *)

(** The value of a numeral read after the value [acc]. *)
Fixpoint uint_value (d : uint) (acc : Z) : Z :=
  match d with
  | Nil => acc
  | D0 l => uint_value l (10 * acc)
  | D1 l => uint_value l (10 * acc + 1)
  | D2 l => uint_value l (10 * acc + 2)
  | D3 l => uint_value l (10 * acc + 3)
  | D4 l => uint_value l (10 * acc + 4)
  | D5 l => uint_value l (10 * acc + 5)
  | D6 l => uint_value l (10 * acc + 6)
  | D7 l => uint_value l (10 * acc + 7)
  | D8 l => uint_value l (10 * acc + 8)
  | D9 l => uint_value l (10 * acc + 9)
  end.

Lemma read_digits_uint (d : uint) (acc : Z) :
  read_digits 10 (NilEmpty.string_of_uint d) (Some acc) = Some (uint_value d acc).
Proof.
  revert acc. induction d; intros acc; cbn [NilEmpty.string_of_uint read_digits uint_value];
    [reflexivity | ..];
    (change (digit_value 10 _) with (Some 0)
     || change (digit_value 10 _) with (Some 1)
     || change (digit_value 10 _) with (Some 2)
     || change (digit_value 10 _) with (Some 3)
     || change (digit_value 10 _) with (Some 4)
     || change (digit_value 10 _) with (Some 5)
     || change (digit_value 10 _) with (Some 6)
     || change (digit_value 10 _) with (Some 7)
     || change (digit_value 10 _) with (Some 8)
     || change (digit_value 10 _) with (Some 9));
    cbn [default from_option id]; rewrite IHd; f_equal; f_equal; lia.
Qed.

Lemma of_uint_acc_value (d : uint) (p : positive) :
  Z.pos (Pos.of_uint_acc d p) = uint_value d (Z.pos p).
Proof.
  revert p. induction d; intros p; cbn [Pos.of_uint_acc uint_value];
    [reflexivity | ..]; rewrite IHd; f_equal; lia.
Qed.

Lemma of_uint_value (d : uint) : Z.of_uint d = uint_value d 0.
Proof.
  unfold Z.of_uint. induction d; cbn [Pos.of_uint uint_value];
    [reflexivity | exact IHd | ..];
    cbn [Z.of_N]; rewrite of_uint_acc_value; reflexivity.
Qed.

Lemma read_digits_zeros (k : nat) (s : string) :
  read_digits 10 (repeat_char "0" k ++ s) (Some 0) = read_digits 10 s (Some 0).
Proof. induction k as [| k IH]; [reflexivity | exact IH]. Qed.

Lemma read_digits_start (s : string) :
  all_digits s = true -> s <> "" ->
  read_digits 10 s None = read_digits 10 s (Some 0).
Proof.
  destruct s as [| c r]; [congruence |].
  cbn [all_digits]. intros H _. apply andb_true_iff in H. destruct H as [Hc _].
  apply is_digit_cases in Hc.
  repeat (apply elem_of_cons in Hc; destruct Hc as [-> | Hc]; [reflexivity |]).
  inversion Hc.
Qed.

(** [parseInt] of a string of digits reads all of it in radix 10. *)
Lemma parseInt_string_digits (s : string) :
  all_digits s = true -> parseInt_string s = read_digits 10 s None.
Proof.
  intros H.
  enough (E : parseInt_string s
              = (fun m : Z => if false then - m else m) <$> read_digits 10 s None).
  { rewrite E. destruct (read_digits 10 s None); reflexivity. }
  destruct s as [| c r]; [reflexivity |].
  cbn [all_digits] in H. apply andb_true_iff in H. destruct H as [Hc Hr].
  apply is_digit_cases in Hc. apply elem_of_cons in Hc. destruct Hc as [-> | Hc].
  - destruct r as [| c2 r2]; [reflexivity |].
    cbn [all_digits] in Hr. apply andb_true_iff in Hr. destruct Hr as [Hc2 _].
    apply is_digit_cases in Hc2.
    repeat (apply elem_of_cons in Hc2; destruct Hc2 as [-> | Hc2]; [reflexivity |]).
    inversion Hc2.
  - repeat (apply elem_of_cons in Hc; destruct Hc as [-> | Hc]; [reflexivity |]).
    inversion Hc.
Qed.

(** [parseInt(String(n).padStart(width, '0'))] is [n] again. *)
Lemma parseInt_padded (width : nat) (n : Z) :
  0 <= n -> parseInt_string (padStart width "0" (string_of_Z n)) = Some n.
Proof.
  intros Hn. rewrite (parseInt_string_digits _ (all_digits_padded width n Hn)).
  assert (Hs : exists d, string_of_Z n = NilEmpty.string_of_uint d
                         /\ d <> Nil /\ uint_value d 0 = n).
  { unfold string_of_Z. destruct n as [| p | p]; [| | lia].
    - exists (D0 Nil). repeat split. discriminate.
    - pose proof (DecimalZ.of_to (Z.pos p)) as Hp. cbn in Hp |- *.
      rewrite of_uint_value in Hp.
      exists (Pos.to_uint p). split; [| split; [| exact Hp]].
      + destruct (Pos.to_uint p) eqn:E; try reflexivity.
        cbn in Hp. discriminate.
      + intros E. rewrite E in Hp. discriminate. }
  destruct Hs as (d & Hs & Hd & Hv).
  assert (Hne : NilEmpty.string_of_uint d <> "") by (destruct d; [congruence | ..]; discriminate).
  unfold padStart. rewrite Hs.
  destruct (width - String.length (NilEmpty.string_of_uint d))%nat as [| k].
  - change (repeat_char "0" 0 ++ NilEmpty.string_of_uint d)
      with (NilEmpty.string_of_uint d).
    rewrite (read_digits_start _ (all_digits_uint d) Hne), read_digits_uint, Hv.
    reflexivity.
  - change (read_digits 10 (repeat_char "0" (S k) ++ NilEmpty.string_of_uint d) None)
      with (read_digits 10 (repeat_char "0" k ++ NilEmpty.string_of_uint d) (Some 0)).
    rewrite read_digits_zeros, read_digits_uint, Hv. reflexivity.
Qed.



Lemma prefix_append (p s : string) : String.prefix p (p ++ s) = true.
Proof.
  induction p as [| c r IH]; [destruct s; reflexivity |].
  change (String c r ++ s) with (String c (r ++ s)).
  cbn [String.prefix]. destruct (ascii_dec c c); [exact IH | congruence].
Qed.

End JsMoreProps.

(* ===================================================================== *)
(** * Properties of the inward service and controller                     *)
(* ===================================================================== *)

Module InwardProps.
Import Js Inward JsProps JsMoreProps.

(** ** Filters *)

(** A filter that is absent or empty does not filter; one that is given
    asks [P] of its text. *)
Definition given (filter : option string) (P : string -> Prop) : Prop :=
  forall text, filter = Some text -> text <> "" -> P text.

#[global] Instance given_dec (filter : option string) (P : string -> Prop)
  `{forall text, Decision (P text)} : Decision (given filter P).
Proof.
  refine (match filter as o return Decision (given o P) with
          | Some text =>
              if decide (text = "") then left _
              else match decide (P text) with
                   | left p => left _
                   | right np => right _
                   end
          | None => left _
          end); unfold given.
  - intros t [= <-] Hne. contradiction.
  - intros t [= <-] _. exact p.
  - intros H'. apply np. apply H'; [reflexivity | assumption].
  - intros t [=].
Defined.

Lemma given_None (P : string -> Prop) : given None P.
Proof. intros t [=]. Qed.

Lemma given_empty (P : string -> Prop) : given (Some "") P.
Proof. intros t [= <-] H. contradiction. Qed.

Lemma given_Some (text : string) (P : string -> Prop) :
  text <> "" -> (given (Some text) P <-> P text).
Proof.
  intros Hne. split; [intros H; apply H; [reflexivity | exact Hne] |].
  intros H t [= <-] _. exact H.
Qed.

(** A filter read with its default [''] and tested for truthiness. *)
Lemma given_default (filter : option string) (P : string -> Prop) :
  given filter P
  <-> (String.eqb (default "" filter) "" = false -> P (default "" filter)).
Proof.
  destruct filter as [text |]; cbn.
  - destruct (String.eqb text "") eqn:E.
    + apply String.eqb_eq in E. subst text.
      split; [discriminate | intros _; apply given_empty].
    + apply String.eqb_neq in E. rewrite (given_Some _ _ E). tauto.
  - split; [discriminate | intros _; apply given_None].
Qed.

Lemma filter_decide {A : Type} (f : A -> bool) (P : A -> Prop)
    `{forall x, Decision (P x)} (l : list A) :
  (forall x, f x = true <-> P x) -> List.filter f l = filter P l.
Proof.
  intros Hf. induction l as [| a l IH]; [reflexivity |].
  cbn [List.filter]. rewrite filter_cons, IH.
  destruct (decide (P a)) as [Hp | Hn].
  - apply Hf in Hp. rewrite Hp. reflexivity.
  - destruct (f a) eqn:E; [apply Hf in E; contradiction | reflexivity].
Qed.

Section WithBuiltins.

Context (toNumber : string -> num) (parseFloat_string : string -> num)
        (newDate : string -> option Z)
        (contains_insensitive : string -> string -> bool)
        (orderBy : string -> string -> list InwardEntry -> option (list InwardEntry))
        (inexact_successor : string -> string).

Local Abbreviation getAllEntries :=
  (Inward.getAllEntries toNumber newDate contains_insensitive orderBy).
Local Abbreviation where_of := (Inward.where_of newDate).
Local Abbreviation matches := (Inward.matches contains_insensitive).
Local Abbreviation skip_of := (Inward.skip_of toNumber).
Local Abbreviation generateLotNo := (Inward.generateLotNo inexact_successor).
Local Abbreviation createEntry :=
  (Inward.createEntry parseFloat_string newDate inexact_successor).
Local Abbreviation updateEntry := (Inward.updateEntry parseFloat_string newDate).

(** ** Pagination *)

(** The entries that the [where] object of a query selects. *)
Definition matching (options : ListOptions) (db : Db) : list InwardEntry :=
  List.filter (matches (where_of options)) (inwardEntries db).

(** *** The filters of a list query *)

(** The search text is found in the manifest number, in the lot number or
    in the waste name of the entry, as the database finds text without
    regard to case. *)
Definition found (search : string) (e : InwardEntry) : Prop :=
  contains_insensitive search (e_manifestNo e) = true
  \/ (exists lot, e_lotNo e = Some lot /\ contains_insensitive search lot = true)
  \/ contains_insensitive search (e_wasteName e) = true.

(** The entry is dated at or after the start date; at or before the end
    date. *)
Definition not_before (startDate : string) (e : InwardEntry) : Prop :=
  exists t, newDate startDate = Some t /\ t <= e_date e.

Definition not_after (endDate : string) (e : InwardEntry) : Prop :=
  exists t, newDate endDate = Some t /\ e_date e <= t.

(** The entry passes every filter that the query gives. *)
Definition in_filters (options : ListOptions) (e : InwardEntry) : Prop :=
  given (o_search options) (fun search => found search e)
  /\ given (o_companyId options) (fun companyId => e_companyId e = companyId)
  /\ given (o_startDate options) (fun startDate => not_before startDate e)
  /\ given (o_endDate options) (fun endDate => not_after endDate e).

#[local] Instance found_dec (search : string) (e : InwardEntry) : Decision (found search e).
Proof.
  unfold Decision, found. destruct (e_lotNo e) as [lot |].
  - destruct (contains_insensitive search (e_manifestNo e));
      [left; left; reflexivity |].
    destruct (contains_insensitive search lot) eqn:El;
      [left; right; left; exists lot; split; [reflexivity | exact El] |].
    destruct (contains_insensitive search (e_wasteName e));
      [left; right; right; reflexivity |].
    right. intros [H | [(l & [= <-] & H) | H]]; [discriminate | | discriminate].
    rewrite El in H. discriminate.
  - destruct (contains_insensitive search (e_manifestNo e));
      [left; left; reflexivity |].
    destruct (contains_insensitive search (e_wasteName e));
      [left; right; right; reflexivity |].
    right. intros [H | [(l & [=] & _) | H]]; discriminate.
Defined.

#[local] Instance not_before_dec (startDate : string) (e : InwardEntry) :
  Decision (not_before startDate e).
Proof.
  unfold Decision, not_before. destruct (newDate startDate) as [t |].
  - destruct (decide (t <= e_date e)); [left; eauto |].
    right. intros (t' & [= <-] & H). contradiction.
  - right. intros (t' & [=] & _).
Defined.

#[local] Instance not_after_dec (endDate : string) (e : InwardEntry) :
  Decision (not_after endDate e).
Proof.
  unfold Decision, not_after. destruct (newDate endDate) as [t |].
  - destruct (decide (e_date e <= t)); [left; eauto |].
    right. intros (t' & [= <-] & H). contradiction.
  - right. intros (t' & [=] & _).
Defined.

#[local] Instance in_filters_dec (options : ListOptions) (e : InwardEntry) :
  Decision (in_filters options e).
Proof. unfold in_filters. apply _. Defined.

(** The database accepts the query: the dates it gives are dates, and its
    sort key and order are known, the rows coming back in some order. *)
Definition dates_valid (options : ListOptions) : Prop :=
  given (o_startDate options) (fun startDate => is_Some (newDate startDate))
  /\ given (o_endDate options) (fun endDate => is_Some (newDate endDate)).

Definition sort_accepted (options : ListOptions) : Prop :=
  forall rows, exists sorted,
    orderBy (default "date" (o_sortBy options)) (default "desc" (o_sortOrder options)) rows
    = Some sorted
    /\ sorted ≡ₚ rows.

Lemma valid_where_dates (options : ListOptions) :
  valid_where (where_of options) = true <-> dates_valid options.
Proof.
  unfold dates_valid. rewrite !given_default.
  unfold Inward.where_of, build_where, valid_where. cbn [w_date].
  destruct (String.eqb (default "" (o_startDate options)) "");
    destruct (String.eqb (default "" (o_endDate options)) ""); cbn.
  - split; [intros _; split; discriminate | reflexivity].
  - destruct (newDate (default "" (o_endDate options))); cbn.
    + split; [intros _; split; [discriminate | eauto] | reflexivity].
    + split; [discriminate | intros [_ H]; destruct (H eq_refl); discriminate].
  - destruct (newDate (default "" (o_startDate options))); cbn.
    + split; [intros _; split; [eauto | discriminate] | reflexivity].
    + split; [discriminate | intros [H _]; destruct (H eq_refl); discriminate].
  - destruct (newDate (default "" (o_startDate options))); cbn.
    + destruct (newDate (default "" (o_endDate options))); cbn.
      * split; [intros _; split; eauto | reflexivity].
      * split; [discriminate | intros [_ H]; destruct (H eq_refl); discriminate].
    + split; [discriminate | intros [H _]; destruct (H eq_refl); discriminate].
Qed.

(** The [where] object selects the entries that pass the filters. *)
Lemma matches_in_filters (options : ListOptions) (e : InwardEntry) :
  matches (where_of options) e = true <-> in_filters options e.
Proof.
  unfold in_filters. rewrite !given_default.
  unfold Inward.where_of, build_where, Inward.matches.
  cbn [w_OR w_companyId w_date].
  match goal with
  | |- andb (andb ?a ?b) ?c = true <-> ?p /\ ?q /\ ?r =>
      enough (H : (a = true <-> p) /\ (b = true <-> q) /\ (c = true <-> r));
      [revert H; generalize a, b, c; intros [] [] []; cbn [andb]; intuition congruence |]
  end.
  split; [| split].
  - destruct (String.eqb (default "" (o_search options)) "");
      [split; [intros _ H; discriminate H | reflexivity] |].
    unfold found. rewrite !orb_true_iff.
    destruct (e_lotNo e) as [lot |]; cbn.
    + split.
      * intros [[H | H] | H] _; eauto.
      * intros H. destruct (H eq_refl) as [H1 | [(l & [= <-] & H1) | H1]]; auto.
    + split.
      * intros [[H | H] | H] _; auto; discriminate.
      * intros H. destruct (H eq_refl) as [H1 | [(l & [=] & _) | H1]]; auto.
  - destruct (String.eqb (default "" (o_companyId options)) "");
      [split; [intros _ H; discriminate H | reflexivity] |].
    rewrite String.eqb_eq. tauto.
  - unfold not_before, not_after.
    destruct (String.eqb (default "" (o_startDate options)) "");
      destruct (String.eqb (default "" (o_endDate options)) ""); cbn.
    + split; [intros _; split; discriminate | reflexivity].
    + destruct (newDate (default "" (o_endDate options))) as [t |]; cbn.
      * rewrite Z.leb_le. split; [intros H; split; [discriminate | eauto] |].
        intros [_ H]. destruct (H eq_refl) as (t' & [= <-] & Ht). exact Ht.
      * split; [discriminate |].
        intros [_ H]. destruct (H eq_refl) as (t' & [=] & _).
    + rewrite andb_true_r.
      destruct (newDate (default "" (o_startDate options))) as [t |]; cbn.
      * rewrite Z.leb_le. split; [intros H; split; [eauto | discriminate] |].
        intros [H _]. destruct (H eq_refl) as (t' & [= <-] & Ht). exact Ht.
      * split; [discriminate |].
        intros [H _]. destruct (H eq_refl) as (t' & [=] & _).
    + rewrite andb_true_iff.
      destruct (newDate (default "" (o_startDate options))) as [t |]; cbn.
      * destruct (newDate (default "" (o_endDate options))) as [u |]; cbn.
        -- rewrite !Z.leb_le. split; [intros [H1 H2]; split; eauto |].
           intros [H1 H2].
           destruct (H1 eq_refl) as (t' & [= <-] & Ht).
           destruct (H2 eq_refl) as (u' & [= <-] & Hu). auto.
        -- split; [intros [_ H]; discriminate |].
           intros [_ H]. destruct (H eq_refl) as (t' & [=] & _).
      * split; [intros [H _]; discriminate |].
        intros [H _]. destruct (H eq_refl) as (t' & [=] & _).
Qed.

Lemma matching_in_filters (options : ListOptions) (db : Db) :
  matching options db = filter (in_filters options) (inwardEntries db).
Proof. apply filter_decide. intros e. apply matches_in_filters. Qed.

(** [k] is the ceiling of [a / b] for a positive [b]: the least integer
    with [a <= k * b]. *)
Definition is_ceil_div (a b k : Z) : Prop := (k - 1) * b < a <= k * b.


Lemma is_ceil_div_unique (a b k k' : Z) :
  0 < b -> is_ceil_div a b k -> is_ceil_div a b k' -> k = k'.
Proof. unfold is_ceil_div. intros Hb [H1 H2] [H3 H4]. nia. Qed.

Lemma getAllEntries_inv (options : ListOptions) (db db' : Db) (result : EntryList) :
  getAllEntries options db = (inr result, db') ->
  db' = db
  /\ limit (pagination result) = take_of options
  /\ total (pagination result) = Z.of_nat (length (matching options db))
  /\ totalPages (pagination result)
     = Math_ceil (div (ofZ (total (pagination result))) (limit (pagination result))).
Proof.
  unfold Inward.getAllEntries, bind, inwardEntry_findMany, inwardEntry_count, query, ret.
  destruct (negb (valid_where (where_of options))); [discriminate |].
  destruct (orderBy _ _ _) as [sorted |]; [| discriminate].
  destruct (window _ _ _) as [e | rows]; [discriminate |].
  intros H. inversion H; subst; clear H. cbn. auto.
Qed.






(** With a page size of zero the quotient is not a number of pages. *)
Lemma getAllEntries_limit_zero (options : ListOptions) (db db' : Db) (result : EntryList) :
  getAllEntries options db = (inr result, db') ->
  limit (pagination result) = ofZ 0 ->
  totalPages (pagination result)
  = if total (pagination result) =? 0 then NaN else Inf true.
Proof.
  intros Hrun Hlimit.
  destruct (getAllEntries_inv _ _ _ _ Hrun) as (_ & _ & Htotal & Hpages).
  rewrite Hpages, Hlimit, Htotal. unfold div, ofZ, sign_pos. cbn.
  destruct (length (matching options db)) as [| m]; reflexivity.
Qed.

(** The query is answered whenever the database accepts it: its dates and
    its sort key and order, and for [skip] and [take] a non-negative integer
    and an integer. *)
Lemma getAllEntries_answers (options : ListOptions) (db : Db) (s t : Z) :
  dates_valid options ->
  sort_accepted options ->
  as_int (skip_of options) = Some s -> 0 <= s ->
  as_int (take_of options) = Some t ->
  exists result, getAllEntries options db = (inr result, db).
Proof.
  intros Hdates Hsort Hs Hs0 Ht.
  unfold Inward.getAllEntries, bind, inwardEntry_findMany, inwardEntry_count, query, ret, window.
  apply valid_where_dates in Hdates. rewrite Hdates. cbn [negb].
  destruct (Hsort (List.filter (matches (where_of options)) (inwardEntries db)))
    as (sorted & -> & _).
  rewrite Hs, Ht.
  destruct (s <? 0) eqn:E; [apply Z.ltb_lt in E; lia |].
  destruct (0 <=? t); eexists; reflexivity.
Qed.

(** ** Looking entries up *)

Definition entry_exists (id : string) (db : Db) : Prop :=
  exists e, e ∈ inwardEntries db /\ e_id e = id.

Definition company_exists (id : string) (db : Db) : Prop :=
  exists c, c ∈ companies db /\ c_id c = id.

(** Some entry carries the lot number; some entry other than [id] does. *)
Definition lotNo_in_use (lot : string) (db : Db) : Prop :=
  exists e, e ∈ inwardEntries db /\ e_lotNo e = Some lot.

Definition lotNo_in_use_by_other (lot id : string) (db : Db) : Prop :=
  exists e, e ∈ inwardEntries db /\ e_lotNo e = Some lot /\ e_id e <> id.

Lemma findUnique_id_Some (id : string) (db : Db) :
  is_Some (inwardEntry_findUnique_id id db) <-> entry_exists id db.
Proof.
  unfold inwardEntry_findUnique_id, entry_exists. rewrite find_is_Some.
  split; intros (e & Hin & H); exists e; (split; [exact Hin |]).
  - apply String.eqb_eq. exact H.
  - apply String.eqb_eq. exact H.
Qed.

Lemma findUnique_id_None (id : string) (db : Db) :
  inwardEntry_findUnique_id id db = None <-> ~ entry_exists id db.
Proof.
  rewrite <- findUnique_id_Some, <- eq_None_not_Some. reflexivity.
Qed.

Lemma company_findUnique_Some (id : string) (db : Db) :
  is_Some (company_findUnique id db) <-> company_exists id db.
Proof.
  unfold company_findUnique, company_exists. rewrite find_is_Some.
  split; intros (c & Hin & H); exists c; (split; [exact Hin |]).
  - apply String.eqb_eq. exact H.
  - apply String.eqb_eq. exact H.
Qed.

Lemma has_lotNo_true (lot : string) (e : InwardEntry) :
  has_lotNo lot e = true <-> e_lotNo e = Some lot.
Proof.
  unfold has_lotNo. destruct (e_lotNo e) as [l |].
  - rewrite String.eqb_eq. split; congruence.
  - split; discriminate.
Qed.

Lemma findUnique_lotNo_Some (lot : string) (db : Db) :
  is_Some (inwardEntry_findUnique_lotNo lot db) <-> lotNo_in_use lot db.
Proof.
  unfold inwardEntry_findUnique_lotNo, lotNo_in_use. rewrite find_is_Some.
  split; intros (e & Hin & H); exists e; (split; [exact Hin |]);
    apply has_lotNo_true; exact H.
Qed.

Lemma findFirst_lotNo_not_Some (lot id : string) (db : Db) :
  is_Some (inwardEntry_findFirst_lotNo_not lot id db) <-> lotNo_in_use_by_other lot id db.
Proof.
  unfold inwardEntry_findFirst_lotNo_not, lotNo_in_use_by_other. rewrite find_is_Some.
  split.
  - intros (e & Hin & H). apply andb_true_iff in H. destruct H as [Hl Hid].
    exists e. split; [exact Hin |]. split; [apply has_lotNo_true; exact Hl |].
    apply negb_true_iff, String.eqb_neq in Hid. exact Hid.
  - intros (e & Hin & Hl & Hid). exists e. split; [exact Hin |].
    apply andb_true_iff. split; [apply has_lotNo_true; exact Hl |].
    apply negb_true_iff, String.eqb_neq. exact Hid.
Qed.

(** ** getEntryById *)

Lemma getEntryById_found (id : string) (db : Db) (e : InwardEntry) :
  inwardEntry_findUnique_id id db = Some e ->
  getEntryById id db =
    (inr {| ev_entry := e;
            ev_company := company_findUnique (e_companyId e) db;
            ev_invoice := invoice_of e db;
            ev_inwardMaterials := sort_asc m_createdAt (materials_of e db) |}, db).
Proof. intros H. unfold getEntryById, bind, query. rewrite H. reflexivity. Qed.

Lemma getEntryById_missing (id : string) (db : Db) :
  inwardEntry_findUnique_id id db = None ->
  getEntryById id db = (inl (NotFoundError "Inward entry"), db).
Proof. intros H. unfold getEntryById, bind, query. rewrite H. reflexivity. Qed.

Lemma getEntryById_state (id : string) (db : Db) : snd (getEntryById id db) = db.
Proof.
  destruct (inwardEntry_findUnique_id id db) as [e |] eqn:E.
  - rewrite (getEntryById_found _ _ _ E). reflexivity.
  - rewrite (getEntryById_missing _ _ E). reflexivity.
Qed.

(** ** Lot numbers *)

(** The value of [getNextSrNo] and of [generateLotNo]; neither fails nor
    writes. *)
Definition next_srNo (db : Db) : Z :=
  match first_desc e_srNo (inwardEntries db) with
  | Some e => if e_srNo e =? 0 then 1 else e_srNo e + 1
  | None => 1
  end.

Definition generated_lotNo (w : World) (db : Db) : string :=
  match generateLotNo w db with
  | (inr l, _) => l
  | (inl _, _) => ""
  end.

(** [lotNo || (await this.generateLotNo())]. *)
Definition final_lotNo (w : World) (d : EntryData) (db : Db) : string :=
  if truthy_str (d_lotNo d) then default "" (d_lotNo d) else generated_lotNo w db.

Lemma getNextSrNo_run (db : Db) : getNextSrNo db = (inr (next_srNo db), db).
Proof. reflexivity. Qed.

Lemma generateLotNo_run (w : World) (db : Db) :
  generateLotNo w db = (inr (generated_lotNo w db), db).
Proof. reflexivity. Qed.

Lemma generated_lotNo_nonempty (w : World) (db : Db) :
  String.eqb (generated_lotNo w db) "" = false.
Proof.
  unfold generated_lotNo, Inward.generateLotNo, bind, query, ret, lot_prefix.
  destruct (first_desc _ _ ≫= e_lotNo) as [l |]; [destruct (String.eqb l "") |];
    reflexivity.
Qed.

Lemma final_lotNo_nonempty (w : World) (d : EntryData) (db : Db) :
  String.eqb (final_lotNo w d db) "" = false.
Proof.
  unfold final_lotNo. destruct (d_lotNo d) as [l |] eqn:E; cbn.
  - destruct (String.eqb l "") eqn:El; cbn; [apply generated_lotNo_nonempty | exact El].
  - apply generated_lotNo_nonempty.
Qed.

(** [entryData.srNo || (await this.getNextSrNo())]. *)
Definition final_srNo (d : EntryData) (db : Db) : Z :=
  match d_srNo d with
  | Some n => if n =? 0 then next_srNo db else n
  | None => next_srNo db
  end.

(** The row that [createEntry] hands to [prisma.inwardEntry.create], for a
    request whose date is a date. *)
Definition new_row (w : World) (d : EntryData) (db : Db) : InwardEntry :=
  {| e_id := freshId w;
     e_srNo := final_srNo d db;
     e_date := default 0 (newDate (default "" (d_date d)));
     e_lotNo := Some (final_lotNo w d db);
     e_companyId := default "" (d_companyId d);
     e_manifestNo := trim (default "" (d_manifestNo d));
     e_vehicleNo := trim_or_null (d_vehicleNo d);
     e_wasteName := trim (default "" (d_wasteName d));
     e_rate := if truthy_val (d_rate d)
               then Inward.parseFloat parseFloat_string <$> d_rate d else None;
     e_category := trim_or_null (d_category d);
     e_quantity := from_option (Inward.parseFloat parseFloat_string) NaN (d_quantity d);
     e_unit := trim (default "" (d_unit d));
     e_month := trim_or_null (d_month d);
     e_invoiceId := None;
     e_createdAt := timestamp w |}.

(** [createEntry], one check after the other. *)
Lemma createEntry_run (w : World) (d : EntryData) (db : Db) :
  createEntry w d db =
    if negb (required_present d)
    then (inl (ValidationError
                 "Date, company, manifest number, waste name, quantity, and unit are required"),
          db)
    else match company_findUnique (default "" (d_companyId d)) db with
         | None => (inl (NotFoundError "Company"), db)
         | Some _ =>
             match inwardEntry_findUnique_lotNo (final_lotNo w d db) db with
             | Some _ => (inl (ValidationError "Lot number already exists"), db)
             | None =>
                 match newDate (default "" (d_date d)) with
                 | None => (inl (PrismaError "PrismaClientValidationError"), db)
                 | Some _ =>
                     match inwardEntry_create (new_row w d db) db with
                     | (inl e, db') => (inl e, db')
                     | (inr entry, db') =>
                         (inr {| ec_entry := entry;
                                 ec_company :=
                                   company_ref
                                     <$> company_findUnique (e_companyId entry) db' |},
                          db')
                     end
                 end
             end
         end.
Proof.
  unfold Inward.createEntry.
  destruct (negb (required_present d)); [reflexivity |].
  unfold bind, query, ret, throw.
  destruct (company_findUnique _ db) as [c |]; [| reflexivity].
  pose proof (final_lotNo_nonempty w d db) as Hne.
  unfold new_row, final_srNo, final_lotNo, generated_lotNo in Hne |- *.
  unfold getNextSrNo, Inward.generateLotNo, bind, query, ret in Hne |- *.
  fold (next_srNo db).
  destruct (d_srNo d) as [n |]; [destruct (n =? 0) |];
    (destruct (truthy_str (d_lotNo d)); cbn [fst snd] in Hne |- *; rewrite Hne; cbn [negb];
     match goal with
     | |- context [inwardEntry_findUnique_lotNo ?l db] =>
         destruct (inwardEntry_findUnique_lotNo l db); [reflexivity |]
     end;
     destruct (newDate (default "" (d_date d))); reflexivity).
Qed.

(** The date of an update request as [new Date] reads it: [Some None]
    when the request has no date, [None] when it has one that is no date. *)
Definition date_read (u : UpdateData) : option (option Z) :=
  match u_date u with
  | Some s => Some <$> newDate s
  | None => Some None
  end.

(** [updateEntry], one check after the other. *)
Lemma updateEntry_run (id : string) (u : UpdateData) (db : Db) :
  updateEntry id u db =
    match inwardEntry_findUnique_id id db with
    | None => (inl (NotFoundError "Inward entry"), db)
    | Some _ =>
        let write :=
          match date_read u with
          | None => (inl (PrismaError "PrismaClientValidationError"), db)
          | Some date =>
              match inwardEntry_update id (apply_update parseFloat_string date u) db with
              | (inl e, db') => (inl e, db')
              | (inr updated, db') => (inr (entry_view db' updated), db')
              end
          end in
        if truthy_str (mjoin (u_lotNo u))
        then match inwardEntry_findFirst_lotNo_not (default "" (mjoin (u_lotNo u))) id db with
             | Some _ => (inl (ValidationError "Lot number already exists"), db)
             | None => write
             end
        else write
    end.
Proof.
  unfold Inward.updateEntry. unfold bind at 1.
  destruct (inwardEntry_findUnique_id id db) as [e |] eqn:E.
  - rewrite (getEntryById_found _ _ _ E).
    unfold bind, query, ret, throw, date_read.
    destruct (truthy_str (mjoin (u_lotNo u))).
    + destruct (inwardEntry_findFirst_lotNo_not _ id db); [reflexivity |].
      destruct (u_date u) as [s |]; [destruct (newDate s) |]; reflexivity.
    + destruct (u_date u) as [s |]; [destruct (newDate s) |]; reflexivity.
  - rewrite (getEntryById_missing _ _ E). reflexivity.
Qed.

Lemma deleteEntry_run (id : string) (db : Db) :
  deleteEntry id db =
    match inwardEntry_findUnique_id id db with
    | None => (inl (NotFoundError "Inward entry"), db)
    | Some _ => inwardEntry_delete id db
    end.
Proof.
  unfold deleteEntry, bind.
  destruct (inwardEntry_findUnique_id id db) as [e |] eqn:E.
  - rewrite (getEntryById_found _ _ _ E). reflexivity.
  - rewrite (getEntryById_missing _ _ E). reflexivity.
Qed.

(** *** Unique keys *)

(** Ids and lot numbers occur once in the table; rows without a lot number
    do not count. *)
Definition keys_unique (db : Db) : Prop :=
  NoDup (map e_id (inwardEntries db)) /\ NoDup (omap e_lotNo (inwardEntries db)).

Lemma lotNo_taken_false (l : string) (ignoring : option string) (db : Db) :
  lotNo_taken (Some l) ignoring db = false ->
  forall e, e ∈ inwardEntries db -> e_lotNo e = Some l -> Some (e_id e) = ignoring.
Proof.
  unfold lotNo_taken. intros H e Hin Hl.
  destruct (decide (Some (e_id e) = ignoring)) as [Heq | Hne]; [exact Heq |].
  assert (T : existsb (fun e => has_lotNo l e && negb (bool_decide (Some (e_id e) = ignoring)))
                      (inwardEntries db) = true).
  { apply existsb_exists. exists e. split; [apply list_elem_of_In; exact Hin |].
    apply andb_true_iff. split; [apply has_lotNo_true; exact Hl |].
    apply negb_true_iff, bool_decide_eq_false. exact Hne. }
  rewrite T in H. discriminate.
Qed.

Lemma create_keys_unique (row : InwardEntry) (db db' : Db) (r : AppError + InwardEntry) :
  keys_unique db ->
  e_id row ∉ map e_id (inwardEntries db) ->
  inwardEntry_create row db = (r, db') ->
  keys_unique db'.
Proof.
  intros [Hids Hlots] Hfresh. unfold inwardEntry_create.
  destruct (lotNo_taken (e_lotNo row) None db) eqn:T; intros [= <- <-]; [split; assumption |].
  split; cbn.
  - rewrite fmap_app. apply NoDup_app. split; [exact Hids |].
    split; [| apply NoDup_singleton].
    intros x Hx Hx'. apply list_elem_of_singleton in Hx'. subst x. contradiction.
  - rewrite omap_app. apply NoDup_app. split; [exact Hlots |]. cbn.
    destruct (e_lotNo row) as [l |] eqn:El; cbn; [| split; [intros x _ Hx; inversion Hx | constructor]].
    split; [| apply NoDup_singleton].
    intros x Hx Hx'. apply list_elem_of_singleton in Hx'. subst x.
    apply list_elem_of_omap in Hx. destruct Hx as (e & He & Hl).
    pose proof (lotNo_taken_false _ _ _ T e He Hl) as Habs. discriminate.
Qed.

Lemma replace_absent (id : string) (new : InwardEntry) (rows : list InwardEntry) :
  id ∉ map e_id rows ->
  map (fun e => if String.eqb (e_id e) id then new else e) rows = rows.
Proof.
  induction rows as [| x r IH]; [reflexivity |]. cbn.
  rewrite not_elem_of_cons. intros [Hx Hr].
  apply not_eq_sym, String.eqb_neq in Hx. rewrite Hx, (IH Hr). reflexivity.
Qed.

Lemma replace_lotNos (id : string) (new : InwardEntry) (rows : list InwardEntry) :
  NoDup (map e_id rows) ->
  NoDup (omap e_lotNo rows) ->
  (forall l e, e_lotNo new = Some l -> e ∈ rows -> e_lotNo e = Some l -> e_id e = id) ->
  NoDup (omap e_lotNo (map (fun e => if String.eqb (e_id e) id then new else e) rows)).
Proof.
  induction rows as [| x r IH]; [constructor |].
  intros Hids Hlots Hnew. cbn in Hids. apply NoDup_cons in Hids. destruct Hids as [Hx Hids].
  assert (Hlots_r : NoDup (omap e_lotNo r)).
  { cbn in Hlots. destruct (e_lotNo x); [apply NoDup_cons in Hlots; apply Hlots | exact Hlots]. }
  assert (Hnew_r : forall l e, e_lotNo new = Some l -> e ∈ r -> e_lotNo e = Some l -> e_id e = id).
  { intros l e Hl He. apply (Hnew l e Hl). apply elem_of_cons. auto. }
  cbn [map]. destruct (String.eqb (e_id x) id) eqn:E.
  - apply String.eqb_eq in E. subst id.
    rewrite (replace_absent _ _ _ Hx). cbn.
    destruct (e_lotNo new) as [l |] eqn:El; [| exact Hlots_r].
    apply NoDup_cons. split; [| exact Hlots_r].
    intros Hl. apply list_elem_of_omap in Hl. destruct Hl as (e & He & Hle).
    apply Hx. rewrite <- (Hnew_r l e eq_refl He Hle).
    apply list_elem_of_fmap. eauto.
  - specialize (IH Hids Hlots_r Hnew_r). cbn.
    destruct (e_lotNo x) as [lx |] eqn:Elx; [| exact IH].
    apply NoDup_cons. split; [| exact IH].
    intros Hl. apply list_elem_of_omap in Hl. destruct Hl as (e' & He' & Hle').
    apply list_elem_of_fmap in He'. destruct He' as (e & -> & He).
    destruct (String.eqb (e_id e) id) eqn:E'.
    + apply String.eqb_neq in E. apply E.
      apply (Hnew lx x Hle'); [apply elem_of_cons; auto | exact Elx].
    + cbn in Hlots. rewrite Elx in Hlots. apply NoDup_cons in Hlots.
      apply (proj1 Hlots). apply list_elem_of_omap. eauto.
Qed.

Lemma update_keys_unique (id : string) (patch : InwardEntry -> InwardEntry)
    (db db' : Db) (r : AppError + InwardEntry) :
  (forall e, e_id (patch e) = e_id e) ->
  keys_unique db ->
  inwardEntry_update id patch db = (r, db') ->
  keys_unique db'.
Proof.
  intros Hpatch [Hids Hlots]. unfold inwardEntry_update.
  destruct (inwardEntry_findUnique_id id db) as [old |] eqn:E;
    [| intros [= <- <-]; split; assumption].
  destruct (lotNo_taken (e_lotNo (patch old)) (Some id) db) eqn:T;
    intros [= <- <-]; [split; assumption |].
  assert (Hold : e_id old = id).
  { unfold inwardEntry_findUnique_id in E. apply find_some in E.
    apply String.eqb_eq, E. }
  split; cbn.
  - rewrite <- list_fmap_compose.
    erewrite list_fmap_ext; [exact Hids |].
    intros i e _. cbn. destruct (String.eqb (e_id e) id) eqn:Ee; [| reflexivity].
    apply String.eqb_eq in Ee. rewrite Hpatch. congruence.
  - apply replace_lotNos; [exact Hids | exact Hlots |].
    intros l e Hl He Hle. rewrite Hl in T.
    pose proof (lotNo_taken_false _ _ _ T e He Hle) as H. congruence.
Qed.

Lemma delete_keys_unique (id : string) (db db' : Db) (r : AppError + unit) :
  keys_unique db ->
  inwardEntry_delete id db = (r, db') ->
  keys_unique db'.
Proof.
  clear toNumber parseFloat_string newDate contains_insensitive orderBy inexact_successor.
  intros [Hids Hlots]. unfold inwardEntry_delete.
  destruct (inwardEntry_findUnique_id id db); intros [= <- <-]; [| split; assumption].
  split; cbn.
  - clear Hlots. induction (inwardEntries db) as [| x l IH]; [constructor |].
    cbn in Hids |- *. apply NoDup_cons in Hids. destruct Hids as [Hx Hl].
    destruct (negb _); [| exact (IH Hl)].
    cbn. apply NoDup_cons. split; [| exact (IH Hl)].
    intros H. apply Hx. apply list_elem_of_fmap in H. destruct H as (e & -> & He).
    apply filter_elem_of in He. apply list_elem_of_fmap. exists e. tauto.
  - clear Hids. induction (inwardEntries db) as [| x l IH]; [constructor |].
    cbn in Hlots |- *. destruct (negb _); cbn.
    + destruct (e_lotNo x) as [lx |]; [| exact (IH Hlots)].
      apply NoDup_cons in Hlots. destruct Hlots as [Hx Hl].
      apply NoDup_cons. split; [| exact (IH Hl)].
      intros H. apply Hx. apply list_elem_of_omap in H. destruct H as (e & He & Hle).
      apply filter_elem_of in He. apply list_elem_of_omap. exists e. tauto.
    + destruct (e_lotNo x); [apply NoDup_cons in Hlots; exact (IH (proj2 Hlots)) | exact (IH Hlots)].
Qed.

Lemma apply_update_id (date : option Z) (u : UpdateData) (e : InwardEntry) :
  e_id (apply_update parseFloat_string date u e) = e_id e.
Proof. reflexivity. Qed.

(** The three writes of the service keep the keys unique, whatever their
    outcome. *)
Lemma writes_keep_keys_unique (w : World) (d : EntryData) (id : string)
    (u : UpdateData) (db : Db) :
  keys_unique db ->
  (freshId w ∉ map e_id (inwardEntries db) -> keys_unique (snd (createEntry w d db)))
  /\ keys_unique (snd (updateEntry id u db))
  /\ keys_unique (snd (deleteEntry id db)).
Proof.
  intros Hkeys. split; [| split].
  - intros Hfresh. rewrite createEntry_run.
    destruct (negb (required_present d)); [exact Hkeys |].
    destruct (company_findUnique _ db); [| exact Hkeys].
    destruct (inwardEntry_findUnique_lotNo _ db); [exact Hkeys |].
    destruct (newDate _); [| exact Hkeys].
    destruct (inwardEntry_create (new_row w d db) db) as [r db'] eqn:C.
    pose proof (create_keys_unique (new_row w d db) _ _ _ Hkeys Hfresh C) as H.
    destruct r; exact H.
  - rewrite updateEntry_run.
    destruct (inwardEntry_findUnique_id id db); [| exact Hkeys].
    cbv zeta.
    assert (Hwrite :
      keys_unique
        (snd match date_read u with
             | None => (inl (PrismaError "PrismaClientValidationError"), db)
             | Some date =>
                 match inwardEntry_update id (apply_update parseFloat_string date u) db with
                 | (inl e, db') => (inl e, db')
                 | (inr updated, db') => (inr (entry_view db' updated), db')
                 end
             end)).
    { destruct (date_read u) as [date |]; [| exact Hkeys].
      destruct (inwardEntry_update id (apply_update parseFloat_string date u) db)
        as [r db'] eqn:U.
      pose proof (update_keys_unique _ _ _ _ _ (apply_update_id date u) Hkeys U) as H.
      destruct r; exact H. }
    destruct (truthy_str _); [destruct (inwardEntry_findFirst_lotNo_not _ _ _) |];
      try exact Hkeys; exact Hwrite.
  - rewrite deleteEntry_run.
    destruct (inwardEntry_findUnique_id id db); [| exact Hkeys].
    destruct (inwardEntry_delete id db) as [r db'] eqn:D.
    exact (delete_keys_unique _ _ _ _ Hkeys D).
Qed.

(** C2, as amended.  Lot numbers stay unique across inward entries:
    [createEntry], [updateEntry] and [deleteEntry] keep every id and every
    lot number of the table unique, whatever their outcome.  [createEntry],
    given the required fields and an existing company, fails with the
    validation error "Lot number already exists" whenever the provided or
    generated lot number belongs to an existing entry; [updateEntry], on an
    existing entry, fails with the same validation error whenever the lot
    number as sent in the request belongs to a different entry.  In both
    failures the database is left as it was. *)
Theorem duplicate_lotNo_rejected :
  (forall (w : World) (d : EntryData) (db : Db),
      required_present d = true ->
      company_exists (default "" (d_companyId d)) db ->
      lotNo_in_use (final_lotNo w d db) db ->
      createEntry w d db = (inl (ValidationError "Lot number already exists"), db))
  /\ (forall (id : string) (u : UpdateData) (lot : string) (db : Db),
      entry_exists id db ->
      mjoin (u_lotNo u) = Some lot ->
      lot <> "" ->
      lotNo_in_use_by_other lot id db ->
      updateEntry id u db = (inl (ValidationError "Lot number already exists"), db))
  /\ (forall (w : World) (d : EntryData) (id : string) (u : UpdateData) (db : Db),
      keys_unique db ->
      (freshId w ∉ map e_id (inwardEntries db) -> keys_unique (snd (createEntry w d db)))
      /\ keys_unique (snd (updateEntry id u db))
      /\ keys_unique (snd (deleteEntry id db))).
Proof.
  split; [| split].
  - intros w d db Hreq Hco Hlot.
    rewrite createEntry_run, Hreq. cbn [negb].
    apply company_findUnique_Some in Hco. destruct Hco as [c ->].
    apply findUnique_lotNo_Some in Hlot. destruct Hlot as [e ->].
    reflexivity.
  - intros id u lot db Hid Hu Hne Hlot.
    rewrite updateEntry_run.
    apply findUnique_id_Some in Hid. destruct Hid as [e ->].
    rewrite Hu. change (default "" (Some lot)) with lot. cbn [truthy_str].
    apply String.eqb_neq in Hne. rewrite Hne. cbn [negb].
    apply findFirst_lotNo_not_Some in Hlot. destruct Hlot as [e' ->].
    reflexivity.
  - intros w d id u db. apply writes_keep_keys_unique.
Qed.

(** ** Error kinds *)








(** ** Responses *)

Local Abbreviation controller_createEntry :=
  (Inward.controller_createEntry parseFloat_string newDate inexact_successor).
Local Abbreviation controller_getAllEntries :=
  (Inward.controller_getAllEntries toNumber newDate contains_insensitive orderBy).

Lemma lotNo_taken_None (lot : string) (db : Db) :
  lotNo_taken (Some lot) None db = true <-> lotNo_in_use lot db.
Proof.
  unfold lotNo_taken, lotNo_in_use. rewrite existsb_exists.
  split.
  - intros (e & Hin & H). apply andb_true_iff in H. destruct H as [H _].
    exists e. split; [apply list_elem_of_In; exact Hin | apply has_lotNo_true; exact H].
  - intros (e & Hin & H). exists e. split; [apply list_elem_of_In; exact Hin |].
    apply andb_true_iff. split; [apply has_lotNo_true; exact H |].
    apply negb_true_iff, bool_decide_eq_false. discriminate.
Qed.

(** [createEntry] succeeds when every check passes, and then appends the
    new row to the table. *)
Lemma createEntry_creates (w : World) (d : EntryData) (db : Db) :
  required_present d = true ->
  company_exists (default "" (d_companyId d)) db ->
  ~ lotNo_in_use (final_lotNo w d db) db ->
  is_Some (newDate (default "" (d_date d))) ->
  exists e db',
    createEntry w d db = (inr e, db')
    /\ ec_entry e = new_row w d db
    /\ inwardEntries db' = (inwardEntries db ++ [new_row w d db])%list.
Proof.
  intros Hreq Hco Hlot [t Hdate]. rewrite createEntry_run, Hreq. cbn [negb].
  apply company_findUnique_Some in Hco. destruct Hco as [c ->].
  assert (E : inwardEntry_findUnique_lotNo (final_lotNo w d db) db = None).
  { apply eq_None_not_Some. rewrite findUnique_lotNo_Some. exact Hlot. }
  rewrite E, Hdate. unfold inwardEntry_create.
  assert (T : lotNo_taken (e_lotNo (new_row w d db)) None db = false).
  { apply not_true_is_false. cbn [new_row e_lotNo]. rewrite lotNo_taken_None. exact Hlot. }
  rewrite T. eexists _, _. repeat split.
Qed.

(** If [createEntry] returns an entry, it is a row of the table afterwards. *)
Lemma createEntry_stored (w : World) (d : EntryData) (db db' : Db) (e : EntryCreated) :
  createEntry w d db = (inr e, db') -> ec_entry e ∈ inwardEntries db'.
Proof.
  rewrite createEntry_run.
  destruct (negb (required_present d)); [discriminate |].
  destruct (company_findUnique _ db); [| discriminate].
  destruct (inwardEntry_findUnique_lotNo _ db); [discriminate |].
  destruct (newDate _); [| discriminate].
  unfold inwardEntry_create.
  destruct (lotNo_taken _ None db); [discriminate |].
  intros H. inversion H; subst; clear H. cbn.
  apply elem_of_app. right. apply list_elem_of_singleton. reflexivity.
Qed.

(** C7.  When [createEntry] succeeds the controller answers with status
    201 and the envelope [{ success: true, data: { entry }, message }], the
    entry under [data] being the row now stored; when [getAllEntries]
    succeeds the controller answers with status 200 and the envelope
    [{ success: true, data: entries, pagination, message }]. *)
Theorem success_envelopes :
  (forall (w : World) (body : EntryData) (db db' : Db) (e : EntryCreated),
      createEntry w body db = (inr e, db') ->
      controller_createEntry w body db =
        (Respond 201 {| success := true;
                        data := Some {| entry := e |};
                        pagination_ := None;
                        message := "Inward entry created successfully" |}, db')
      /\ ec_entry e ∈ inwardEntries db')
  /\ (forall (q : ListQuery) (db db' : Db) (result : EntryList),
      getAllEntries (options_of_query q) db = (inr result, db') ->
      controller_getAllEntries q db =
        (Respond 200 {| success := true;
                        data := Some (entries result);
                        pagination_ := Some (pagination result);
                        message := "Inward entries retrieved successfully" |}, db')).
Proof.
  split.
  - intros w body db db' e H. split; [| exact (createEntry_stored _ _ _ _ _ H)].
    unfold Inward.controller_createEntry, handle. rewrite H. reflexivity.
  - intros q db db' result H.
    unfold Inward.controller_getAllEntries, handle. rewrite H. reflexivity.
Qed.

(** ** Payment *)

(** C10.  [updatePayment] is [getEntryById]: it never changes the
    database; for a stored entry it returns that entry, and the controller
    answers 200 with the message "Payment updated successfully"; for an
    unknown id it raises the not-found error, which the controller passes
    on. *)
Theorem updatePayment_no_write (id : string) (p : PaymentData) (db : Db) :
  updatePayment id p db = getEntryById id db
  /\ snd (updatePayment id p db) = db
  /\ (forall e : InwardEntry,
        inwardEntry_findUnique_id id db = Some e ->
        exists v : EntryView,
          ev_entry v = e
          /\ updatePayment id p db = (inr v, db)
          /\ controller_updatePayment id p db =
               (Respond 200 {| success := true;
                               data := Some {| entry := v |};
                               pagination_ := None;
                               message := "Payment updated successfully" |}, db))
  /\ (~ entry_exists id db ->
        updatePayment id p db = (inl (NotFoundError "Inward entry"), db)
        /\ controller_updatePayment id p db = (Next (NotFoundError "Inward entry"), db)).
Proof.
  assert (Heq : updatePayment id p db = getEntryById id db).
  { unfold updatePayment, bind, ret.
    destruct (getEntryById id db) as [[e | v] db']; reflexivity. }
  split; [exact Heq |].
  split; [rewrite Heq; apply getEntryById_state |].
  split.
  - intros e E. eexists. split; [| split].
    2: { rewrite Heq. apply getEntryById_found. exact E. }
    + reflexivity.
    + unfold controller_updatePayment, handle.
      rewrite Heq, (getEntryById_found _ _ _ E). reflexivity.
  - intros H. apply findUnique_id_None in H.
    unfold controller_updatePayment, handle.
    rewrite Heq, (getEntryById_missing _ _ H). split; reflexivity.
Qed.

End WithBuiltins.

(** ** Runs on the sample database *)

#[global] Existing Instance in_filters_dec.

Local Abbreviation run_list :=
  (Inward.getAllEntries Samples.toNumber Samples.newDate Samples.contains_insensitive
     Samples.orderBy).
Local Abbreviation run_create :=
  (Inward.createEntry Samples.parseFloat_string Samples.newDate Samples.inexact_successor).
Local Abbreviation run_update :=
  (Inward.updateEntry Samples.parseFloat_string Samples.newDate).
Local Abbreviation sample_filters :=
  (in_filters Samples.newDate Samples.contains_insensitive).

Example generateLotNo_sample :
  generateLotNo Samples.inexact_successor Samples.world Samples.db
  = (inr "LOT-202401-0004", Samples.db).
Proof. vm_compute. reflexivity. Qed.

Example generateLotNo_first_of_month :
  fst (generateLotNo Samples.inexact_successor
         {| fullYear := 2024; monthIndex := 11; timestamp := 0; freshId := "x" |}
         Samples.db)
  = inr "LOT-202412-0001".
Proof. vm_compute. reflexivity. Qed.

Lemma e2_in_sample : Samples.entry "e2" 2 "LOT-202401-0002" "MF-2" 200 ∈ inwardEntries Samples.db.
Proof. apply list_elem_of_In. cbn. auto. Qed.

Lemma e1_in_sample : Samples.entry "e1" 1 "LOT-202401-0001" "MF-1" 100 ∈ inwardEntries Samples.db.
Proof. apply list_elem_of_In. cbn. auto. Qed.

Lemma acme_in_sample : Samples.acme ∈ companies Samples.db.
Proof. apply list_elem_of_In. cbn. auto. Qed.


Example totalPages_sample :
  exists result,
    run_list (options_of_query Samples.list_query) Samples.db = (inr result, Samples.db)
    /\ map (fun item => e_id (li_entry item)) (entries result) = ["e3"; "e2"]
    /\ total (pagination result) = 3
    /\ totalPages (pagination result) = ofZ 2.
Proof. eexists. split; [vm_compute; reflexivity |]. repeat split. Qed.

(** A search for a manifest number in small letters, with a company and a
    start date: one entry passes the filters.  With a start date that is no
    date, or a sort key that is no column, the query is not answered. *)
Definition filtered_query (startDate sortBy : string) : ListQuery :=
  {| q_page := None; q_limit := None; q_search := Some "mf-2"; q_companyId := Some "c1";
     q_startDate := Some startDate; q_endDate := None;
     q_sortBy := Some sortBy; q_sortOrder := Some "asc" |}.

Example filtered_sample :
  (exists result,
      run_list (options_of_query (filtered_query "1970-01-01" "srNo")) Samples.db
      = (inr result, Samples.db)
      /\ limit (pagination result) = ofZ 20
      /\ total (pagination result) = 1
      /\ filter (sample_filters (options_of_query (filtered_query "1970-01-01" "srNo")))
                (inwardEntries Samples.db)
         = [Samples.entry "e2" 2 "LOT-202401-0002" "MF-2" 200])
  /\ run_list (options_of_query (filtered_query "yesterday" "srNo")) Samples.db
     = (inl (PrismaError "PrismaClientValidationError"), Samples.db)
  /\ run_list (options_of_query (filtered_query "1970-01-01" "colour")) Samples.db
     = (inl (PrismaError "PrismaClientValidationError"), Samples.db).
Proof.
  split; [eexists; split; [vm_compute; reflexivity |]; repeat split |].
  split; vm_compute; reflexivity.
Qed.


(** A second entry with the lot number of [e2] is refused, on create and
    on update. *)
Lemma duplicate_lotNo_rejected_witness :
  run_create Samples.world (Samples.create_body "c1" (Some "LOT-202401-0002")) Samples.db
  = (inl (ValidationError "Lot number already exists"), Samples.db)
  /\ run_update "e1" (Samples.update_lotNo "LOT-202401-0002") Samples.db
     = (inl (ValidationError "Lot number already exists"), Samples.db).
Proof.
  split.
  - apply (proj1 (duplicate_lotNo_rejected Samples.parseFloat_string Samples.newDate
                    Samples.inexact_successor)).
    + reflexivity.
    + exists Samples.acme. split; [exact acme_in_sample | reflexivity].
    + eexists. split; [exact e2_in_sample | reflexivity].
  - apply (proj1 (proj2 (duplicate_lotNo_rejected Samples.parseFloat_string Samples.newDate
                           Samples.inexact_successor))
             "e1" _ "LOT-202401-0002").
    + eexists. split; [exact e1_in_sample | reflexivity].
    + reflexivity.
    + discriminate.
    + eexists. split; [exact e2_in_sample |]. split; [reflexivity | discriminate].
Defined.

(** C2 as stated fails: the lot number of the request belongs to an
    existing entry, and [createEntry] fails with the not-found error for the
    company, not with a validation error. *)
Lemma duplicate_lotNo_unknown_company :
  lotNo_in_use "LOT-202401-0002" Samples.db
  /\ required_present (Samples.create_body "c9" (Some "LOT-202401-0002")) = true
  /\ exists e,
       run_create Samples.world (Samples.create_body "c9" (Some "LOT-202401-0002")) Samples.db
       = (inl e, Samples.db)
       /\ kind_of e = NotFound.
Proof.
  split; [eexists; split; [exact e2_in_sample | reflexivity] |].
  split; [reflexivity |].
  eexists. split; [vm_compute; reflexivity | reflexivity].
Qed.

(** The sample table has unique keys, and keeps them when [e4] is added. *)
Example keys_unique_sample :
  keys_unique Samples.db
  /\ keys_unique (snd (run_create Samples.world (Samples.create_body "c1" None) Samples.db)).
Proof.
  assert (H : keys_unique Samples.db).
  { split; apply (bool_decide_unpack _); vm_compute; exact I. }
  split; [exact H |].
  apply (writes_keep_keys_unique Samples.parseFloat_string Samples.newDate
           Samples.inexact_successor
           Samples.world (Samples.create_body "c1" None) "e1"
           (Samples.update_lotNo "x") Samples.db H).
  apply (bool_decide_unpack _). vm_compute. exact I.
Qed.

(** [updateEntry] looks for the lot number as sent but stores it trimmed.
    A lot number that is another entry's only once trimmed passes the
    service's check; the unique index then refuses the write, with an error
    that is not the service's validation error. *)
Lemma updateEntry_padded_lotNo (id : string) (u : UpdateData) (lot : string) (db : Db)
    (pf : string -> num) (nd : string -> option Z) :
  entry_exists id db ->
  mjoin (u_lotNo u) = Some lot ->
  ~ lotNo_in_use_by_other lot id db ->
  String.eqb (trim lot) "" = false ->
  lotNo_in_use_by_other (trim lot) id db ->
  is_Some (date_read nd u) ->
  Inward.updateEntry pf nd id u db = (inl (PrismaError "P2002"), db).
Proof.
  intros Hid Hu Hraw Hne Htrim [date Hdate].
  rewrite updateEntry_run.
  apply findUnique_id_Some in Hid. destruct Hid as [e E]. rewrite E.
  assert (Hcheck : inwardEntry_findFirst_lotNo_not (default "" (mjoin (u_lotNo u))) id db = None).
  { rewrite Hu. apply eq_None_not_Some. rewrite findFirst_lotNo_not_Some. exact Hraw. }
  assert (Hwrite : inwardEntry_update id (apply_update pf date u) db
                   = (inl (PrismaError "P2002"), db)).
  { unfold inwardEntry_update. rewrite E.
    assert (Hlot : e_lotNo (apply_update pf date u e) = Some (trim lot)).
    { unfold apply_update. cbn [e_lotNo].
      destruct (u_lotNo u) as [[l |] |]; cbn in Hu; try discriminate.
      injection Hu as ->. cbn. rewrite Hne. reflexivity. }
    rewrite Hlot.
    assert (T : lotNo_taken (Some (trim lot)) (Some id) db = true).
    { unfold lotNo_taken. apply existsb_exists.
      destruct Htrim as (e' & Hin & Hl & Hid').
      exists e'. split; [apply list_elem_of_In; exact Hin |].
      apply andb_true_iff. split; [apply has_lotNo_true; exact Hl |].
      apply negb_true_iff, bool_decide_eq_false. congruence. }
    rewrite T. reflexivity. }
  cbv zeta. rewrite Hcheck, Hdate, Hwrite.
  destruct (truthy_str (mjoin (u_lotNo u))); reflexivity.
Qed.

(** The padding may be a no-break space. *)
Example updateEntry_padded_lotNo_sample :
  run_update "e2" (Samples.update_lotNo " LOT-202401-0001") Samples.db
  = (inl (PrismaError "P2002"), Samples.db)
  /\ run_update "e2"
       (Samples.update_lotNo
          (String (ascii_of_nat 194) (String (ascii_of_nat 160) "LOT-202401-0001")))
       Samples.db
     = (inl (PrismaError "P2002"), Samples.db).
Proof. split; vm_compute; reflexivity. Qed.

(** A date that is no date passes the checks of the service and is refused
    by Prisma; nothing is written. *)
Example createEntry_invalid_date :
  run_create Samples.world
    {| d_date := Some "20240115";
       d_companyId := Some "c1";
       d_manifestNo := Some "MF-4";
       d_vehicleNo := None;
       d_wasteName := Some "Spent solvent";
       d_rate := None;
       d_category := None;
       d_quantity := Some (VNum (ofZ 3));
       d_unit := Some "MT";
       d_month := None;
       d_lotNo := None;
       d_srNo := None |}
    Samples.db
  = (inl (PrismaError "PrismaClientValidationError"), Samples.db).
Proof. vm_compute. reflexivity. Qed.


(** A create request that passes every check is answered with 201. *)
Lemma success_envelopes_witness :
  exists e db',
    run_create Samples.world (Samples.create_body "c1" None) Samples.db = (inr e, db')
    /\ Inward.controller_createEntry Samples.parseFloat_string Samples.newDate
         Samples.inexact_successor
         Samples.world (Samples.create_body "c1" None) Samples.db
       = (Respond 201 {| success := true;
                         data := Some {| entry := e |};
                         pagination_ := None;
                         message := "Inward entry created successfully" |}, db')
    /\ ec_entry e ∈ inwardEntries db'.
Proof.
  eexists _, _. split; [vm_compute; reflexivity |].
  apply (proj1 (success_envelopes Samples.toNumber Samples.parseFloat_string
                  Samples.newDate Samples.contains_insensitive Samples.orderBy
                  Samples.inexact_successor)).
  vm_compute. reflexivity.
Defined.

(** A payment request for [e2]: the entry comes back as stored, and the
    table is the same. *)
Lemma updatePayment_no_write_witness :
  exists v : EntryView,
    ev_entry v = Samples.entry "e2" 2 "LOT-202401-0002" "MF-2" 200
    /\ updatePayment "e2" {| p_paymentReceived := Some (VNum (ofZ 500));
                             p_paymentReceivedOn := Some "2024-02-01" |} Samples.db
       = (inr v, Samples.db)
    /\ controller_updatePayment "e2"
         {| p_paymentReceived := Some (VNum (ofZ 500));
            p_paymentReceivedOn := Some "2024-02-01" |} Samples.db
       = (Respond 200 {| success := true;
                         data := Some {| entry := v |};
                         pagination_ := None;
                         message := "Payment updated successfully" |}, Samples.db).
Proof.
  apply (proj1 (proj2 (proj2 (updatePayment_no_write "e2" _ Samples.db)))).
  reflexivity.
Defined.

End InwardProps.

(* ===================================================================== *)
(** * Properties of the companies controller                              *)
(* ===================================================================== *)

Module CompaniesProps.
Import Companies.

(** The material carries no rate. *)
Definition rate_free (m : material) : Prop := m !! "rate" = None.

(** Two materials that agree on every key but ["rate"]. *)
Definition same_but_rate (m m' : material) : Prop :=
  forall k : string, k <> "rate" -> m !! k = m' !! k.

(** Two companies with the same columns whose materials, one by one, agree
    on every key but ["rate"]. *)
Definition company_same_but_rate (c c' : company) : Prop :=
  columns c = columns c'
  /\ option_Forall2 (Forall2 same_but_rate) (materials c) (materials c').

Definition materials_of_company (c : option company) : list material :=
  default [] (c ≫= materials).

Lemma without_rate_free (m : material) : rate_free (without_rate m).
Proof. apply lookup_delete_eq. Qed.

Lemma without_rate_same (m : material) : same_but_rate (without_rate m) m.
Proof. intros k Hk. apply lookup_delete_ne. congruence. Qed.

Lemma same_but_rate_refl (m : material) : same_but_rate m m.
Proof. intros k _. reflexivity. Qed.

Lemma same_but_rate_sym (m m' : material) : same_but_rate m m' -> same_but_rate m' m.
Proof. intros H k Hk. symmetry. apply H, Hk. Qed.

Lemma same_but_rate_trans (m1 m2 m3 : material) :
  same_but_rate m1 m2 -> same_but_rate m2 m3 -> same_but_rate m1 m3.
Proof. intros H1 H2 k Hk. rewrite (H1 k Hk). apply H2, Hk. Qed.

Lemma is_admin_true (role : option string) : is_admin role = true <-> role = Some "admin".
Proof. apply bool_decide_eq_true. Qed.

Lemma is_admin_false (role : option string) : is_admin role = false <-> role <> Some "admin".
Proof. apply bool_decide_eq_false. Qed.

(** What the three handlers do to one material and to one company. *)
Definition strip_material (role : option string) (m : material) : material :=
  if is_admin role then m else without_rate m.

Definition strip_company (role : option string) (c : company) : company :=
  {| columns := columns c; materials := map (strip_material role) <$> materials c |}.

Lemma strip_company_admin (c : company) : strip_company (Some "admin") c = c.
Proof.
  destruct c as [cols [ms |]]; unfold strip_company; cbn; [| reflexivity].
  f_equal. f_equal. induction ms as [| m ms IH]; [reflexivity |]. cbn. f_equal. exact IH.
Qed.

Lemma map_strip_admin (role : option string) (ms : list material) :
  is_admin role = true -> map (strip_material role) ms = ms.
Proof.
  intros H. induction ms as [| m ms IH]; [reflexivity |].
  cbn. unfold strip_material at 1. rewrite H, IH. reflexivity.
Qed.

Lemma map_strip_other (role : option string) (ms : list material) :
  is_admin role = false -> map (strip_material role) ms = map without_rate ms.
Proof.
  intros H. apply map_ext. intros m. unfold strip_material. rewrite H. reflexivity.
Qed.

Lemma getAllCompanies_data {P : Type} (role : option string) (result : CompaniesPage P) :
  data (getAllCompanies role result) = map (strip_company role) (companies result).
Proof.
  unfold getAllCompanies. cbn. apply map_ext. intros [cols [ms |]]; cbn; [| reflexivity].
  unfold strip_company. cbn. destruct (is_admin role) eqn:E.
  - rewrite (map_strip_admin _ _ E). reflexivity.
  - rewrite (map_strip_other _ _ E). reflexivity.
Qed.

Lemma getCompanyById_data {P : Type} (role : option string) (found : option company) :
  data (getCompanyById (P := P) role found) = strip_company role <$> found.
Proof.
  unfold getCompanyById. cbn. destruct found as [[cols [ms |]] |]; cbn; try reflexivity.
  unfold strip_company. cbn. destruct (is_admin role) eqn:E; cbn.
  - rewrite (map_strip_admin _ _ E). reflexivity.
  - rewrite (map_strip_other _ _ E). reflexivity.
Qed.

Lemma getCompanyMaterials_data {P : Type} (role : option string) (ms : list material) :
  data (getCompanyMaterials (P := P) role ms) = map (strip_material role) ms.
Proof. reflexivity. Qed.

Lemma strip_material_same (r1 r2 : option string) (m : material) :
  same_but_rate (strip_material r1 m) (strip_material r2 m).
Proof.
  unfold strip_material. destruct (is_admin r1), (is_admin r2).
  - apply same_but_rate_refl.
  - apply same_but_rate_sym, without_rate_same.
  - apply without_rate_same.
  - apply same_but_rate_refl.
Qed.

Lemma strip_materials_same (r1 r2 : option string) (ms : list material) :
  Forall2 same_but_rate (map (strip_material r1) ms) (map (strip_material r2) ms).
Proof.
  induction ms as [| m ms IH]; cbn; constructor;
    [apply strip_material_same | exact IH].
Qed.

Lemma strip_company_same (r1 r2 : option string) (c : company) :
  company_same_but_rate (strip_company r1 c) (strip_company r2 c).
Proof.
  split; [reflexivity |]. cbn.
  destruct (materials c) as [ms |]; cbn; constructor. apply strip_materials_same.
Qed.

Lemma strip_materials_free (role : option string) (ms : list material) :
  is_admin role = false -> Forall rate_free (map (strip_material role) ms).
Proof.
  intros H. rewrite (map_strip_other _ _ H).
  induction ms as [| m ms IH]; cbn; constructor; [apply without_rate_free | exact IH].
Qed.

Lemma strip_companies_free (role : option string) (cs : list company) :
  is_admin role = false ->
  Forall rate_free (materials_of_companies (map (strip_company role) cs)).
Proof.
  intros H. unfold materials_of_companies.
  induction cs as [| c cs IH]; cbn; [constructor |].
  apply Forall_app. split; [| exact IH].
  destruct (materials c) as [ms |]; cbn; [| constructor].
  apply strip_materials_free, H.
Qed.

(** C8.  For a role other than ['admin'] no material in the responses of
    [getAllCompanies], [getCompanyById] and [getCompanyMaterials] has a
    [rate]; for ['admin'] the data is what the service returned; and the
    responses to any two roles have the same status, flags, pagination and
    message, the same company columns, and materials that agree on every key
    but [rate]. *)
Theorem rate_stripping {P : Type} (result : CompaniesPage P) (found : option company)
    (ms : list material) :
  (forall role : option string,
      role <> Some "admin" ->
      Forall rate_free (materials_of_companies (data (getAllCompanies role result)))
      /\ Forall rate_free (materials_of_company (data (getCompanyById (P := P) role found)))
      /\ Forall rate_free (data (getCompanyMaterials (P := P) role ms)))
  /\ (data (getAllCompanies (Some "admin") result) = companies result
      /\ data (getCompanyById (P := P) (Some "admin") found) = found
      /\ data (getCompanyMaterials (P := P) (Some "admin") ms) = ms)
  /\ (forall r1 r2 : option string,
      let all1 := getAllCompanies r1 result in
      let all2 := getAllCompanies r2 result in
      let one1 := getCompanyById (P := P) r1 found in
      let one2 := getCompanyById (P := P) r2 found in
      let mat1 := getCompanyMaterials (P := P) r1 ms in
      let mat2 := getCompanyMaterials (P := P) r2 ms in
      (status all1, success all1, pagination all1, message all1)
        = (status all2, success all2, pagination all2, message all2)
      /\ Forall2 company_same_but_rate (data all1) (data all2)
      /\ (status one1, success one1, pagination one1, message one1)
           = (status one2, success one2, pagination one2, message one2)
      /\ option_Forall2 company_same_but_rate (data one1) (data one2)
      /\ (status mat1, success mat1, pagination mat1, message mat1)
           = (status mat2, success mat2, pagination mat2, message mat2)
      /\ Forall2 same_but_rate (data mat1) (data mat2)).
Proof.
  split; [| split].
  - intros role Hrole. apply is_admin_false in Hrole.
    rewrite getAllCompanies_data, getCompanyById_data, getCompanyMaterials_data.
    split; [apply strip_companies_free, Hrole |].
    split; [| apply strip_materials_free, Hrole].
    destruct found as [c |]; cbn; [| constructor].
    unfold materials_of_company. cbn.
    destruct (materials c) as [ms' |]; cbn; [| constructor].
    apply strip_materials_free, Hrole.
  - rewrite getAllCompanies_data, getCompanyById_data, getCompanyMaterials_data.
    split; [| split].
    + induction (companies result) as [| c cs IH]; [reflexivity |].
      cbn. rewrite strip_company_admin, IH. reflexivity.
    + destruct found as [c |]; cbn; [rewrite strip_company_admin |]; reflexivity.
    + apply map_strip_admin. reflexivity.
  - intros r1 r2. cbv zeta.
    rewrite !getAllCompanies_data, !getCompanyById_data, !getCompanyMaterials_data.
    split; [reflexivity |]. split.
    { induction (companies result) as [| c cs IH]; cbn; constructor;
        [apply strip_company_same | exact IH]. }
    split; [reflexivity |]. split.
    { destruct found as [c |]; cbn; constructor. apply strip_company_same. }
    split; [reflexivity |]. apply strip_materials_same.
Qed.

(** ** A run *)

Definition solvent : material :=
  {[ "materialName" := SStr "Spent solvent"; "rate" := SNum 12; "unit" := SStr "MT" ]}.

Example staff_sees_no_rate :
  map (fun m => (m !! "materialName", m !! "rate", m !! "unit"))
      (data (getCompanyMaterials (P := unit) (Some "staff") [solvent]))
  = [(Some (SStr "Spent solvent"), None, Some (SStr "MT"))].
Proof. vm_compute. reflexivity. Qed.

Example admin_sees_rate :
  map (fun m => (m !! "materialName", m !! "rate", m !! "unit"))
      (data (getCompanyMaterials (P := unit) (Some "admin") [solvent]))
  = [(Some (SStr "Spent solvent"), Some (SNum 12), Some (SStr "MT"))].
Proof. vm_compute. reflexivity. Qed.

Lemma rate_stripping_witness :
  Forall rate_free (data (getCompanyMaterials (P := unit) (Some "staff") [solvent])).
Proof.
  refine (proj2 (proj2 (proj1 (rate_stripping (P := unit)
            {| companies := []; page_info := tt |} None [solvent]) (Some "staff") _))).
  discriminate.
Defined.

End CompaniesProps.

(* ===================================================================== *)
(** * Properties of the create-invoice form                               *)
(* ===================================================================== *)

Module InvoiceFormProps.
Import Js InvoiceForm JsProps.

Local Open Scope Q_scope.

(** ** Totals *)

(** The sum of the amounts of the materials, an absent amount being 0. *)
Fixpoint total_amount (ms : list Material) : Q :=
  match ms with
  | [] => 0
  | m :: r => or_zero (m_amount m) + total_amount r
  end.

Lemma fold_amounts (ms : list Material) (acc : Q) :
  fold_left (fun sum m => sum + or_zero (m_amount m)) ms acc == acc + total_amount ms.
Proof.
  revert acc. induction ms as [| m ms IH]; intros acc; cbn.
  - ring.
  - rewrite IH. ring.
Qed.

Lemma sum_amounts_total (ms : list Material) : sum_amounts ms == total_amount ms.
Proof. unfold sum_amounts. rewrite fold_amounts. ring. Qed.

Lemma total_amount_app (a b : list Material) :
  total_amount (a ++ b) == total_amount a + total_amount b.
Proof.
  induction a as [| m a IH]; cbn.
  - ring.
  - rewrite IH. ring.
Qed.

Lemma sum_amounts_app (a b : list Material) :
  sum_amounts (a ++ b) == sum_amounts a + sum_amounts b.
Proof. rewrite !sum_amounts_total. apply total_amount_app. Qed.

(** The subtotal is the sum of the amounts, or the typed-in subtotal when
    that sum is zero. *)
Lemma subtotal_spec (f : FormData) :
  (~ total_amount (f_materials f) == 0 -> subtotal f == total_amount (f_materials f))
  /\ (total_amount (f_materials f) == 0 -> subtotal f = f_subtotal f).
Proof.
  unfold subtotal. pose proof (sum_amounts_total (f_materials f)) as E.
  destruct (Qeq_bool (sum_amounts (f_materials f)) 0) eqn:B.
  - apply Qeq_bool_iff in B. split; [| reflexivity].
    intros H. exfalso. apply H. rewrite <- E. exact B.
  - apply Qeq_bool_neq in B. split; [intros _; exact E |].
    intros H. exfalso. apply B. rewrite E. exact H.
Qed.

Lemma grandTotal_sum (f : FormData) :
  grandTotal f == subtotal f + additionalCharges f + cgst f + sgst f.
Proof. unfold grandTotal, baseForTax. reflexivity. Qed.

(** *** The figures shown *)

(** [toFixed(2)] prints the hundredth nearest to the number. *)
Lemma toFixed2_near (x : Q) :
  x * 100 - (1 # 2) <= inject_Z (toFixed2 x) <= x * 100 + (1 # 2).
Proof.
  unfold toFixed2. destruct (Qle_bool 0 x).
  - pose proof (Qfloor_le (x * 100 + (1 # 2))) as H1.
    pose proof (Qlt_floor (x * 100 + (1 # 2))) as H2.
    rewrite inject_Z_plus in H2. change (inject_Z 1) with 1 in H2. split; lra.
  - pose proof (Qfloor_le (- x * 100 + (1 # 2))) as H1.
    pose proof (Qlt_floor (- x * 100 + (1 # 2))) as H2.
    rewrite inject_Z_plus in H2. change (inject_Z 1) with 1 in H2.
    rewrite inject_Z_opp. split; lra.
Qed.

Lemma toFixed2_zero (x : Q) : x == 0 -> toFixed2 x = 0%Z.
Proof.
  intros H. pose proof (toFixed2_near x) as [H1 H2].
  assert (L : inject_Z (-1) < inject_Z (toFixed2 x))
    by (change (inject_Z (-1)) with (-1 # 1); lra).
  assert (U : inject_Z (toFixed2 x) < inject_Z 1)
    by (change (inject_Z 1) with 1; lra).
  rewrite <- Zlt_Qlt in L, U. lia.
Qed.

(** The sum of the figures shown above the total, in hundredths. *)
Definition shown_parts (t : TotalsShown) : Z :=
  (shown_subtotal t + default 0 (shown_additionalCharges t) + shown_cgst t + shown_sgst t)%Z.

Lemma shown_additionalCharges_near (f : FormData) :
  0 <= additionalCharges f ->
  additionalCharges f * 100 - (1 # 2)
  <= inject_Z (default 0%Z (shown_additionalCharges (totalsShown f)))
  <= additionalCharges f * 100 + (1 # 2).
Proof.
  intros H0. unfold totalsShown. cbn [shown_additionalCharges].
  destruct (Qle_bool (additionalCharges f) 0) eqn:E; cbn [default from_option id].
  - apply Qle_bool_iff in E. change (inject_Z 0) with 0. split; lra.
  - apply toFixed2_near.
Qed.

(** C3, as amended.  The grand total that the form computes is subtotal +
    additional charges + CGST + SGST; each tax is (subtotal + additional
    charges) * rate / 100, the rate being the form's rate, or 9 when none is
    set, when GST applies; and both taxes are zero, and shown as 0.00, when
    [applyGst] is false.  The total shown is that sum rounded to
    hundredths; as every figure of the box is rounded by itself, the total
    shown is the sum of the figures shown only up to two hundredths, for
    additional charges that are not negative. *)
Theorem grandTotal_identity (f : FormData) :
  grandTotal f == subtotal f + additionalCharges f + cgst f + sgst f
  /\ (f_applyGst f = true ->
      cgst f == (subtotal f + additionalCharges f) * default 9 (f_cgstRate f) / 100
      /\ sgst f == (subtotal f + additionalCharges f) * default 9 (f_sgstRate f) / 100)
  /\ (f_applyGst f = false ->
      cgst f == 0 /\ sgst f == 0
      /\ shown_cgst (totalsShown f) = 0%Z /\ shown_sgst (totalsShown f) = 0%Z)
  /\ Qabs (inject_Z (shown_grandTotal (totalsShown f))
           - (subtotal f + additionalCharges f + cgst f + sgst f) * 100) <= 1 # 2
  /\ (0 <= additionalCharges f ->
      (Z.abs (shown_grandTotal (totalsShown f) - shown_parts (totalsShown f)) <= 2)%Z).
Proof.
  split; [apply grandTotal_sum |].
  assert (Htax :
    (f_applyGst f = true ->
       cgst f == (subtotal f + additionalCharges f) * default 9 (f_cgstRate f) / 100
       /\ sgst f == (subtotal f + additionalCharges f) * default 9 (f_sgstRate f) / 100)
    /\ (f_applyGst f = false -> cgst f == 0 /\ sgst f == 0)).
  { unfold cgst, sgst, cgstRateValue, sgstRateValue, baseForTax.
    split; intros ->; split; try reflexivity; field. }
  destruct Htax as [Hon Hoff].
  split; [exact Hon |].
  split.
  { intros Hgst. destruct (Hoff Hgst) as [Hc Hs].
    split; [exact Hc |]. split; [exact Hs |].
    cbn [totalsShown shown_cgst shown_sgst].
    split; apply toFixed2_zero; assumption. }
  pose proof (grandTotal_sum f) as Hsum.
  pose proof (toFixed2_near (grandTotal f)) as [Ht1 Ht2].
  split.
  { cbn [totalsShown shown_grandTotal]. apply Qabs_Qle_condition. split; lra. }
  intros Hcharges.
  pose proof (toFixed2_near (subtotal f)) as [Hs1 Hs2].
  pose proof (shown_additionalCharges_near f Hcharges) as [Ha1 Ha2].
  pose proof (toFixed2_near (cgst f)) as [Hc1 Hc2].
  pose proof (toFixed2_near (sgst f)) as [Hg1 Hg2].
  unfold shown_parts.
  cbn [totalsShown shown_grandTotal shown_subtotal shown_cgst shown_sgst].
  set (a := default 0%Z (shown_additionalCharges (totalsShown f))) in *.
  assert (L : inject_Z (-3) < inject_Z (toFixed2 (grandTotal f)
                - (toFixed2 (subtotal f) + a + toFixed2 (cgst f) + toFixed2 (sgst f)))).
  { unfold Z.sub. rewrite !inject_Z_plus, inject_Z_opp, !inject_Z_plus.
    change (inject_Z (-3)) with (-3 # 1). lra. }
  assert (U : inject_Z (toFixed2 (grandTotal f)
                - (toFixed2 (subtotal f) + a + toFixed2 (cgst f) + toFixed2 (sgst f)))
              < inject_Z 3).
  { unfold Z.sub. rewrite !inject_Z_plus, inject_Z_opp, !inject_Z_plus.
    change (inject_Z 3) with (3 # 1). lra. }
  rewrite <- Zlt_Qlt in L, U. lia.
Qed.

(** ** The effects *)

Lemma populatePreselected_frame (props : Props) (srv : Server) (st : State) :
  existingInvoice (populatePreselected props srv st) = existingInvoice st
  /\ isAppendMode (populatePreselected props srv st) = isAppendMode st
  /\ showAppendAlert (populatePreselected props srv st) = showAppendAlert st.
Proof.
  unfold populatePreselected.
  destruct (preselectedEntryIds props); [auto |].
  destruct (inwardEntriesData props srv _); [| auto].
  destruct (List.filter _ _); auto.
Qed.

Lemma populatePreselected_none (props : Props) (srv : Server) (st : State) :
  preselectedEntryIds props = [] -> populatePreselected props srv st = st.
Proof. intros H. unfold populatePreselected. rewrite H. reflexivity. Qed.

(** The entries shown for a company are entries of that company. *)
Lemma inwardEntriesData_company (props : Props) (srv : Server) (companyId : string)
    (data : list InwardEntryInfo) (e : InwardEntryInfo) :
  inwardEntriesData props srv companyId = Some data ->
  e ∈ data ->
  e ∈ inwardTable srv /\ (companyId <> "" -> ie_companyId e = companyId).
Proof.
  unfold inwardEntriesData. destruct (_ || _); [| discriminate].
  intros [= <-] Hin. apply firstn_elem_of, filter_elem_of in Hin.
  destruct Hin as [Hin Hp]. split; [exact Hin |].
  intros Hne. apply String.eqb_neq in Hne. rewrite Hne in Hp.
  apply String.eqb_eq. exact Hp.
Qed.


Lemma checkExistingInvoice_formData (props : Props) (srv : Server) (answered : bool)
    (st : State) :
  formData (checkExistingInvoice props srv answered st) = formData st.
Proof.
  unfold checkExistingInvoice. destruct (_ && _); [| reflexivity].
  destruct answered; [| reflexivity].
  destruct (List.find _ _); reflexivity.
Qed.





(** ** Appending to an existing invoice *)



(** ** Reachable states *)

Lemma run_reachable (props : Props) (srv : Server) (today : string)
    (evs : list Event) (st st' : State) :
  reachable props srv today st ->
  FormSamples.run props srv st evs = Some st' ->
  reachable props srv today st'.
Proof.
  revert st. induction evs as [| ev evs IH]; intros st Hst; cbn.
  - intros [= <-]. exact Hst.
  - destruct (step props srv st ev) as [st1 |] eqn:E; [| discriminate].
    apply IH. exact (reachable_step _ _ _ _ _ _ Hst E).
Qed.

(** An invariant of the transition system holds in every reachable state. *)
Lemma reachable_ind_inv (props : Props) (srv : Server) (today : string)
    (Inv : State -> Prop) :
  (forall answered again, Inv (mounted props srv today answered again)) ->
  (forall st ev, Inv st -> enabled props srv st ev = true -> Inv (handle props srv st ev)) ->
  forall st, reachable props srv today st -> Inv st.
Proof.
  intros Hinit Hstep st Hst.
  induction Hst as [answered again | st ev st' _ IH E]; [apply Hinit |].
  unfold step in E. destruct (enabled props srv st ev) eqn:En; [| discriminate].
  injection E as <-. apply Hstep; [exact IH | exact En].
Qed.



Lemma checkExistingInvoice_appendMode (props : Props) (srv : Server) (answered : bool)
    (st : State) :
  isAppendMode st = false ->
  isAppendMode (checkExistingInvoice props srv answered st) = false.
Proof.
  intros H. unfold checkExistingInvoice. destruct (_ && _); [| exact H].
  destruct answered; [| exact H].
  destruct (List.find _ _); reflexivity.
Qed.




(** ** No duplicates in append mode *)





Lemma entry_onChange_frame (entry : InwardEntryInfo) (checked : bool) (st : State) :
  existingInvoice (entry_onChange entry checked st) = existingInvoice st
  /\ isAppendMode (entry_onChange entry checked st) = isAppendMode st
  /\ showAppendAlert (entry_onChange entry checked st) = showAppendAlert st
  /\ f_outwardEntryIds (formData (entry_onChange entry checked st))
     = f_outwardEntryIds (formData st).
Proof. unfold entry_onChange. destruct checked; repeat split. Qed.

Lemma updateMaterial_frame (index : nat) (field : MaterialField) (value : Q) (st : State) :
  existingInvoice (updateMaterial index field value st) = existingInvoice st
  /\ isAppendMode (updateMaterial index field value st) = isAppendMode st
  /\ f_inwardEntryIds (formData (updateMaterial index field value st))
     = f_inwardEntryIds (formData st)
  /\ f_outwardEntryIds (formData (updateMaterial index field value st))
     = f_outwardEntryIds (formData st).
Proof. unfold updateMaterial. destruct (_ !! index); repeat split. Qed.

Lemma appendOffered_true (st : State) :
  appendOffered st = true ->
  isAppendMode st = false /\ is_Some (existingInvoice st).
Proof.
  unfold appendOffered. intros H.
  apply andb_true_iff in H. destruct H as [H Hmode].
  apply andb_true_iff in H. destruct H as [_ Hex].
  apply negb_true_iff in Hmode. apply bool_decide_eq_true in Hex. auto.
Qed.



(** What an update submission sends. *)
Lemma handleSubmit_update (props : Props) (st : State) (target : string)
    (payload : UpdatePayload) :
  handleSubmit props st = UpdateInvoice target payload ->
  isAppendMode st = true
  /\ (exists ex, existingInvoice st = Some ex /\ inv_id ex = target)
  /\ up_inwardEntryIds payload = f_inwardEntryIds (formData st)
  /\ up_manifestNos payload = set_spread (f_manifestNos (formData st)).
Proof.
  unfold handleSubmit.
  destruct (_ && _); [discriminate |].
  destruct (_ && _); [discriminate |].
  destruct (_ && _); [discriminate |].
  destruct (isAppendMode st); [| discriminate].
  destruct (existingInvoice st) as [ex |]; [| discriminate].
  intros [= <- <-]. cbn. repeat split. exists ex. split; reflexivity.
Qed.


(** ** One invoice per entry *)

(** The id is that of an inward entry that is not invoiced, or is linked to
    the invoice the form is appending to. *)
Definition free_or_current (srv : Server) (st : State) (id : string) : Prop :=
  exists e, e ∈ inwardTable srv /\ ie_id e = id
            /\ (isInvoiced e = false \/ isLinkedToCurrent st e = true).

(** The id is that of an inward entry that is not invoiced, or is linked to
    the invoice [target]. *)
Definition free_or_linked_to (srv : Server) (target : string) (id : string) : Prop :=
  exists e, e ∈ inwardTable srv /\ ie_id e = id
            /\ (isInvoiced e = false \/ ie_invoiceId e = Some target).

Definition inward_free (srv : Server) (id : string) : Prop :=
  exists e, e ∈ inwardTable srv /\ ie_id e = id /\ isInvoiced e = false.

Definition outward_free (srv : Server) (id : string) : Prop :=
  exists e, e ∈ outwardTable srv /\ oe_id e = id /\ truthy (oe_invoiceId e) = false.

Definition links_inv (srv : Server) (st : State) : Prop :=
  (forall id, id ∈ f_inwardEntryIds (formData st) -> free_or_current srv st id)
  /\ (forall id, id ∈ f_outwardEntryIds (formData st) -> outward_free srv id).

Lemma free_or_current_frame (srv : Server) (st st' : State) (id : string) :
  isAppendMode st' = isAppendMode st ->
  existingInvoice st' = existingInvoice st ->
  free_or_current srv st id -> free_or_current srv st' id.
Proof.
  intros E1 E2 (e & Hin & Hid & H). exists e. split; [exact Hin |]. split; [exact Hid |].
  unfold isLinkedToCurrent in *. rewrite E1, E2. exact H.
Qed.

Lemma links_inv_frame (srv : Server) (st st' : State) :
  isAppendMode st' = isAppendMode st ->
  existingInvoice st' = existingInvoice st ->
  f_inwardEntryIds (formData st') = f_inwardEntryIds (formData st) ->
  f_outwardEntryIds (formData st') = f_outwardEntryIds (formData st) ->
  links_inv srv st -> links_inv srv st'.
Proof.
  intros E1 E2 E3 E4 [Hin Hout]. split.
  - rewrite E3. intros id Hid. apply (free_or_current_frame srv st); auto.
  - rewrite E4. exact Hout.
Qed.

Lemma after_company_change_plain (props : Props) (srv : Server) (answered again : bool)
    (st : State) :
  preselectedEntryIds props = [] ->
  after_company_change props srv answered again st
  = checkExistingInvoice props srv answered st.
Proof.
  intros H. unfold after_company_change.
  rewrite !(populatePreselected_none _ _ _ H), checkExistingInvoice_formData.
  rewrite String.eqb_refl. reflexivity.
Qed.

Lemma mounted_plain (props : Props) (srv : Server) (today : string)
    (answered again : bool) :
  preselectedEntryIds props = [] ->
  mounted props srv today answered again = initial props today.
Proof.
  intros H. unfold mounted. rewrite (populatePreselected_none _ _ _ H). reflexivity.
Qed.

Lemma inwardEntries_elem_of (props : Props) (srv : Server) (st : State)
    (e : InwardEntryInfo) :
  e ∈ inwardEntries props srv st -> e ∈ inwardTable srv.
Proof.
  unfold inwardEntries.
  destruct (inwardEntriesData props srv _) as [data |] eqn:D; cbn.
  - intros H. exact (proj1 (inwardEntriesData_company _ _ _ _ _ D H)).
  - intros H. inversion H.
Qed.

Lemma outwardOptions_free (props : Props) (srv : Server) (e : OutwardEntryInfo) :
  e ∈ outwardOptions props srv ->
  e ∈ outwardTable srv /\ truthy (oe_invoiceId e) = false.
Proof.
  unfold outwardOptions, outwardEntries. intros H.
  apply filter_elem_of in H. destruct H as [Hin Hp].
  apply negb_true_iff in Hp. split; [| exact Hp].
  case_bool_decide; [inversion Hin | exact (firstn_elem_of _ _ _ Hin)].
Qed.

Lemma getInvoiceById_entries (srv : Server) (target : string) (full : FullInvoice)
    (id : string) :
  getInvoiceById srv target = Some full ->
  id ∈ default [] (fi_inwardEntries full) ->
  exists e, e ∈ inwardTable srv /\ ie_id e = id /\ ie_invoiceId e = Some target.
Proof.
  unfold getInvoiceById. destruct (List.find _ _); [| discriminate].
  intros [= <-]. cbn. intros H.
  apply list_elem_of_fmap in H. destruct H as (e & -> & Hin).
  apply filter_elem_of in Hin. destruct Hin as [Hin Hp].
  apply bool_decide_eq_true in Hp. eauto.
Qed.

Lemma handle_links_inv (props : Props) (srv : Server) (st : State) (ev : Event) :
  preselectedEntryIds props = [] ->
  links_inv srv st ->
  enabled props srv st ev = true ->
  links_inv srv (handle props srv st ev).
Proof.
  intros Hpre Hinv En. pose proof Hinv as [Hin Hout].
  destruct ev as [v answered again | v | i | | | i | i fld q | sel | inp | c s].
  - (* SelectCompany *)
    cbn [handle]. rewrite (after_company_change_plain _ _ _ _ _ Hpre).
    assert (H : links_inv srv (company_onChange props srv v st)).
    { split; [intros id Hid; inversion Hid | exact Hout]. }
    destruct (String.eqb v _); [exact H |].
    destruct H as [_ H2]. split.
    + rewrite checkExistingInvoice_formData. intros id Hid. inversion Hid.
    + rewrite checkExistingInvoice_formData. exact H2.
  - (* SelectTransporter *)
    apply (links_inv_frame srv st); auto.
  - (* ToggleEntry *)
    cbn in En. cbn [handle].
    destruct (inwardEntries props srv st !! i) as [entry |] eqn:L; [| discriminate].
    apply andb_true_iff in En. destruct En as [_ Hen]. apply negb_true_iff in Hen.
    assert (Hentry : free_or_current srv st (ie_id entry)).
    { exists entry. split.
      - apply (inwardEntries_elem_of props srv st). apply list_elem_of_lookup. eauto.
      - split; [reflexivity |]. unfold isDisabled in Hen.
        destruct (isInvoiced entry); [| auto].
        destruct (isLinkedToCurrent st entry); [auto | discriminate]. }
    destruct (entry_onChange_frame entry (negb (isSelected st entry)) st)
      as (E1 & E2 & _ & E4).
    split; [| rewrite E4; exact Hout].
    intros id Hid. apply (free_or_current_frame srv st); [exact E2 | exact E1 |].
    unfold entry_onChange in Hid. destruct (negb (isSelected st entry)); cbn in Hid.
    + apply elem_of_app in Hid. destruct Hid as [Hid | Hid]; [exact (Hin id Hid) |].
      apply list_elem_of_singleton in Hid. subst id. exact Hentry.
    + apply filter_elem_of in Hid. exact (Hin id (proj1 Hid)).
  - (* AppendConfirm *)
    cbn in En. apply appendOffered_true in En. destruct En as [Hmode [ex Eex]].
    cbn [handle]. unfold handleAppendConfirm. rewrite Eex.
    assert (Hold : forall id, id ∈ f_inwardEntryIds (formData st) ->
                   exists e, e ∈ inwardTable srv /\ ie_id e = id /\ isInvoiced e = false).
    { intros id Hid. destruct (Hin id Hid) as (e & He & Hide & [H | H]); [eauto |].
      unfold isLinkedToCurrent in H. rewrite Hmode in H. discriminate. }
    split; [| destruct (getInvoiceById srv (inv_id ex)); exact Hout].
    intros id Hid. cbn in Hid.
    destruct (getInvoiceById srv (inv_id ex)) as [full |] eqn:G.
    + unfold merge_invoice in Hid. cbn in Hid.
      apply set_spread_elem_of, elem_of_app in Hid. destruct Hid as [Hid | Hid].
      * destruct (getInvoiceById_entries _ _ _ _ G Hid) as (e & He & Hide & Hl).
        exists e. split; [exact He |]. split; [exact Hide |]. right.
        unfold isLinkedToCurrent. cbn. apply bool_decide_eq_true. exact Hl.
      * destruct (Hold id Hid) as (e & He & Hide & Hfree).
        exists e. auto.
    + destruct (Hold id Hid) as (e & He & Hide & Hfree). exists e. auto.
  - (* CreateNew *) apply (links_inv_frame srv st); auto.
  - (* RemoveMaterial *) apply (links_inv_frame srv st); auto.
  - (* UpdateMaterial *)
    cbn [handle]. destruct (updateMaterial_frame i fld q st) as (E1 & E2 & E3 & E4).
    apply (links_inv_frame srv st); auto.
  - (* SelectOutward *)
    cbn in En. apply andb_true_iff in En. destruct En as [_ Hsel].
    rewrite forallb_forall in Hsel.
    split; [exact Hin |]. cbn. intros id Hid.
    apply list_elem_of_In in Hid. specialize (Hsel id Hid).
    apply bool_decide_eq_true, list_elem_of_fmap in Hsel.
    destruct Hsel as (e & -> & He).
    destruct (outwardOptions_free _ _ _ He) as [Ht Hf]. exists e. auto.
  - (* Edit *) apply (links_inv_frame srv st); auto.
  - (* SettingsLoaded *) apply (links_inv_frame srv st); auto.
Qed.

Lemma reachable_links_inv (props : Props) (srv : Server) (today : string) (st : State) :
  preselectedEntryIds props = [] ->
  reachable props srv today st -> links_inv srv st.
Proof.
  intros Hpre. apply reachable_ind_inv.
  - intros answered again.
    rewrite (mounted_plain _ _ _ _ _ Hpre). unfold initial, links_inv. cbn. rewrite Hpre.
    split; intros id Hid; inversion Hid.
  - intros st0 ev. apply handle_links_inv, Hpre.
Qed.

(** What a create submission sends. *)
Lemma handleSubmit_create (props : Props) (st : State) (payload : CreateInvoiceData) :
  handleSubmit props st = CreateInvoice payload ->
  (isAppendMode st = false \/ existingInvoice st = None)
  /\ default [] (cr_inwardEntryIds payload) = f_inwardEntryIds (formData st)
  /\ default [] (cr_outwardEntryIds payload) = f_outwardEntryIds (formData st).
Proof.
  unfold handleSubmit.
  destruct (_ && _); [discriminate |].
  destruct (_ && _); [discriminate |].
  destruct (_ && _); [discriminate |].
  assert (Hd : forall l : list string, default [] (nonempty_list l) = l)
    by (intros [| x l]; reflexivity).
  destruct (isAppendMode st); [destruct (existingInvoice st); [discriminate |] |];
    intros [= <-]; cbn; rewrite !Hd; auto.
Qed.

(** X20, the part of C9 that holds.  In a form opened without preselected
    entries: the checkbox of an inward entry is disabled exactly when the
    entry is invoiced and not linked to the invoice being appended to, and a
    disabled checkbox cannot be toggled; the outward picker lists only
    entries without an invoice; and so every submission links only inward
    entries that are not invoiced or already belong to the invoice being
    updated, and only outward entries that are not invoiced. *)
Theorem one_invoice_per_entry (props : Props) (srv : Server) (today : string)
    (st : State) :
  preselectedEntryIds props = [] ->
  reachable props srv today st ->
  (forall entry : InwardEntryInfo,
      isDisabled st entry = true
      <-> isInvoiced entry = true /\ isLinkedToCurrent st entry = false)
  /\ (forall (index : nat) (entry : InwardEntryInfo),
      inwardEntries props srv st !! index = Some entry ->
      isDisabled st entry = true ->
      step props srv st (ToggleEntry index) = None)
  /\ (forall e : OutwardEntryInfo,
      e ∈ outwardOptions props srv -> truthy (oe_invoiceId e) = false)
  /\ (forall payload : CreateInvoiceData,
      handleSubmit props st = CreateInvoice payload ->
      (forall id, id ∈ default [] (cr_inwardEntryIds payload) -> inward_free srv id)
      /\ (forall id, id ∈ default [] (cr_outwardEntryIds payload) -> outward_free srv id))
  /\ (forall (target : string) (payload : UpdatePayload),
      handleSubmit props st = UpdateInvoice target payload ->
      forall id, id ∈ up_inwardEntryIds payload -> free_or_linked_to srv target id).
Proof.
  intros Hpre Hst.
  destruct (reachable_links_inv _ _ _ _ Hpre Hst) as [Hin Hout].
  split; [| split; [| split; [| split]]].
  - intros entry. unfold isDisabled. rewrite andb_true_iff, negb_true_iff. reflexivity.
  - intros index entry L Hdis. unfold step. cbn. rewrite L, Hdis. cbn.
    rewrite andb_false_r. reflexivity.
  - intros e He. exact (proj2 (outwardOptions_free _ _ _ He)).
  - intros payload Hsub. apply handleSubmit_create in Hsub.
    destruct Hsub as (Hmode & -> & ->). split; [| exact Hout].
    intros id Hid. destruct (Hin id Hid) as (e & He & Hide & [H | H]).
    + exists e. auto.
    + unfold isLinkedToCurrent in H. apply andb_true_iff in H. destruct H as [H1 H2].
      destruct Hmode as [Hm | Hm]; [congruence |]. rewrite Hm in H2. discriminate.
  - intros target payload Hsub id Hid. apply handleSubmit_update in Hsub.
    destruct Hsub as (_ & (ex & Eex & <-) & E & _). rewrite E in Hid.
    destruct (Hin id Hid) as (e & He & Hide & [H | H]).
    + exists e. auto.
    + exists e. split; [exact He |]. split; [exact Hide |]. right.
      unfold isLinkedToCurrent in H. rewrite Eex in H.
      apply andb_true_iff in H. destruct H as [_ H].
      apply bool_decide_eq_true in H. exact H.
Qed.

(** ** Runs on the sample servers *)

Import FormSamples.

Definition two_materials : FormData :=
  with_links [] [ material_of_entry (inward "e1" "MF-1" None);
                  material_of_entry (inward "e2" "MF-2" None) ] []
    (input_onChange (AdditionalCharges 10) (initial plain today)).(formData).

(** Two materials of 60 each and 10 of charges, at 9 % and 9 %. *)
Example grandTotal_sample :
  subtotal two_materials == 120
  /\ cgst two_materials == 117 # 10
  /\ grandTotal two_materials == 1534 # 10
  /\ totalsShown two_materials
     = {| shown_subtotal := 12000;
          shown_additionalCharges := Some 1000%Z;
          shown_cgst := 1170;
          shown_sgst := 1170;
          shown_grandTotal := 15340 |}.
Proof. repeat split. Qed.

Lemma grandTotal_identity_witness :
  grandTotal two_materials
  == subtotal two_materials + additionalCharges two_materials
     + cgst two_materials + sgst two_materials
  /\ (Z.abs (shown_grandTotal (totalsShown two_materials)
             - shown_parts (totalsShown two_materials)) <= 2)%Z.
Proof.
  pose proof (grandTotal_identity two_materials) as (Hsum & _ & _ & _ & Hshown).
  split; [exact Hsum |]. apply Hshown. discriminate.
Defined.

(** C3 as stated fails for the figures shown: with a subtotal of 0.30 typed
    in and GST at 9 % and 9 %, the box shows a subtotal of 0.30, taxes of
    0.03 and 0.03 and a total of 0.35; the total computed is 0.354. *)
Lemma shown_total_is_rounded :
  exists st : State,
    run plain server (mounted plain server today true true) [Edit (Subtotal (3 # 10))]
    = Some st
    /\ totalsShown (formData st)
       = {| shown_subtotal := 30;
            shown_additionalCharges := None;
            shown_cgst := 3;
            shown_sgst := 3;
            shown_grandTotal := 35 |}
    /\ grandTotal (formData st) == 354 # 1000
    /\ ~ inject_Z (shown_grandTotal (totalsShown (formData st))) / 100
         == subtotal (formData st) + additionalCharges (formData st)
            + cgst (formData st) + sgst (formData st)
    /\ shown_grandTotal (totalsShown (formData st))
       <> shown_parts (totalsShown (formData st)).
Proof.
  eexists. split; [vm_compute; reflexivity |].
  split; [reflexivity |]. split; [reflexivity |].
  split; [intros H; vm_compute in H; discriminate H | discriminate].
Qed.

(** The form after the user has picked the company and ticked entry [e1]. *)
Definition picked : list Event := [SelectCompany "c1" true true; ToggleEntry 0].



(** It fails the other way too when a list request fails: the user picks
    the first company, whose open invoice is offered, and then the second,
    which has no invoice; the request for the second fails, and the form
    still offers to append to the invoice of the first. *)
Definition second_company_unanswered : list Event :=
  [SelectCompany "c1" true true; SelectCompany "c2" false true].

Example append_offered_after_failed_request :
  getInvoices two_companies "c2" Inward 5 = []
  /\ exists st ex,
       run plain two_companies (mounted plain two_companies today true true)
         second_company_unanswered = Some st
       /\ f_companyId (formData st) = "c2"
       /\ appendOffered st = true
       /\ existingInvoice st = Some ex
       /\ inv_id ex = "inv1"
       /\ inv_companyId ex = Some "c1".
Proof.
  split; [reflexivity |].
  eexists _, _. split; [vm_compute; reflexivity |]. repeat split.
Qed.

(** The user picks the company, ticks [e1], appends to [inv1] and submits. *)
Definition appended : list Event :=
  [SelectCompany "c1" true true; ToggleEntry 0; AppendConfirm].


(** A create submission sends the manifest numbers as the form holds them:
    the outward picker appends those of the selection on every change. *)
Example create_payload_manifestNos :
  exists st payload,
    run for_transporter outward_server
      (mounted for_transporter outward_server today true true)
      [ SelectTransporter "t1"; SelectOutward ["o1"]; SelectOutward ["o1"; "o2"];
        Edit (Subtotal 10) ]
    = Some st
    /\ handleSubmit for_transporter st = CreateInvoice payload
    /\ cr_outwardEntryIds payload = Some ["o1"; "o2"]
    /\ cr_manifestNos payload = Some ["M1"; "M1"; "M2"].
Proof.
  eexists _, _. split; [vm_compute; reflexivity |].
  split; [vm_compute; reflexivity |]. split; reflexivity.
Qed.

(** In the same run every link sent is free or already belongs to [inv1],
    and the checkbox of [e3], which belongs to [inv9], cannot be ticked. *)
Lemma one_invoice_per_entry_witness :
  exists st payload,
    run plain server (mounted plain server today true true) appended = Some st
    /\ handleSubmit plain st = UpdateInvoice "inv1" payload
    /\ step plain server st (ToggleEntry 2) = None
    /\ forall id, id ∈ up_inwardEntryIds payload -> free_or_linked_to server "inv1" id.
Proof.
  eexists _, _.
  split; [vm_compute; reflexivity |].
  split; [vm_compute; reflexivity |].
  split; [vm_compute; reflexivity |].
  eapply (fun st H => proj2 (proj2 (proj2 (proj2
            (one_invoice_per_entry plain server today st eq_refl H))))).
  - apply (run_reachable _ _ _ appended (mounted plain server today true true));
      [apply reachable_mounted | vm_compute; reflexivity].
  - vm_compute. reflexivity.
Defined.

(** C9.  A submission can link an already-invoiced entry to a second
    invoice: preselected entries enter [formData.inwardEntryIds] without a
    look at their [invoiceId].  Entry [e3] belongs to invoice [inv9]; a
    form opened with [e3] preselected reaches a state whose submission
    creates a new invoice that links [e3]. *)
Lemma preselected_entry_already_invoiced :
  (exists e, e ∈ inwardTable server /\ ie_id e = "e3" /\ ie_invoiceId e = Some "inv9")
  /\ (forall e, e ∈ inwardTable server -> ie_id e = "e3" -> ie_invoiceId e = Some "inv9")
  /\ exists st payload,
       reachable (preselecting ["e3"]) server today st
       /\ handleSubmit (preselecting ["e3"]) st = CreateInvoice payload
       /\ cr_inwardEntryIds payload = Some ["e3"].
Proof.
  split; [| split].
  - exists (inward "e3" "MF-3" (Some "inv9")).
    split; [apply list_elem_of_In; cbn; tauto | split; reflexivity].
  - intros e He Hid. apply list_elem_of_In in He. cbn in He.
    destruct He as [<- | [<- | [<- | []]]]; try discriminate Hid. reflexivity.
  - eexists _, _. split; [| split].
    + apply (run_reachable _ _ _ [Edit (Subtotal 100)]
               (mounted (preselecting ["e3"]) server today true true));
        [apply reachable_mounted | vm_compute; reflexivity].
    + vm_compute. reflexivity.
    + reflexivity.
Qed.

End InvoiceFormProps.

(* ===================================================================== *)
(** * More of the inward service and controller                           *)
(* ===================================================================== *)

Module InwardMoreProps.
Import Js Inward JsProps InwardProps JsMoreProps.

(** ** Rows with the greatest key *)

Lemma first_desc_nil {A : Type} (key : A -> Z) (l : list A) :
  first_desc key l = None <-> l = [].
Proof.
  destruct l as [| x r]; [split; reflexivity |].
  cbn. destruct (first_desc key r) as [y |]; [destruct (key x <? key y) |];
    split; discriminate.
Qed.

Lemma first_desc_max {A : Type} (key : A -> Z) (l : list A) (x : A) :
  first_desc key l = Some x ->
  x ∈ l /\ forall y, y ∈ l -> key y <= key x.
Proof.
  revert x. induction l as [| a r IH]; [discriminate |].
  intros x. cbn. destruct (first_desc key r) as [y |] eqn:E.
  - destruct (IH y eq_refl) as [Hy Hmax].
    destruct (key a <? key y) eqn:L; intros [= <-].
    + apply Z.ltb_lt in L. split; [apply elem_of_cons; auto |].
      intros z Hz. apply elem_of_cons in Hz. destruct Hz as [-> | Hz]; [lia | auto].
    + apply Z.ltb_ge in L. split; [apply elem_of_cons; auto |].
      intros z Hz. apply elem_of_cons in Hz. destruct Hz as [-> | Hz]; [lia |].
      specialize (Hmax z Hz). lia.
  - apply first_desc_nil in E. subst r. intros [= <-].
    split; [apply elem_of_cons; auto |].
    intros z Hz. apply list_elem_of_singleton in Hz. subst z. lia.
Qed.

Lemma first_desc_latest {A : Type} (key : A -> Z) (l : list A) (e : A) :
  e ∈ l ->
  (forall x, x ∈ l -> x = e \/ key x < key e) ->
  first_desc key l = Some e.
Proof.
  intros He Hlate.
  destruct (first_desc key l) as [x |] eqn:E.
  - destruct (first_desc_max _ _ _ E) as [Hx Hmax].
    destruct (Hlate x Hx) as [-> | Hlt]; [reflexivity |].
    specialize (Hmax e He). lia.
  - apply first_desc_nil in E. subst l. inversion He.
Qed.

(** ** Serial numbers *)

Lemma next_srNo_above (db : Db) (e : InwardEntry) :
  e ∈ inwardEntries db -> e_srNo e < next_srNo db.
Proof.
  intros He. unfold next_srNo.
  destruct (first_desc e_srNo (inwardEntries db)) as [x |] eqn:E.
  - destruct (first_desc_max _ _ _ E) as [_ Hmax]. specialize (Hmax e He).
    destruct (e_srNo x =? 0) eqn:Z0; [apply Z.eqb_eq in Z0 |]; lia.
  - apply first_desc_nil in E. rewrite E in He. inversion He.
Qed.

(** X1.  [getNextSrNo] never fails and never writes; the number it returns
    is greater than the serial number of every stored entry, and is 1 for an
    empty table. *)
Theorem getNextSrNo_above (db : Db) :
  exists n : Z,
    getNextSrNo db = (inr n, db)
    /\ (forall e, e ∈ inwardEntries db -> e_srNo e < n)
    /\ (inwardEntries db = [] -> n = 1).
Proof.
  exists (next_srNo db). split; [apply getNextSrNo_run |].
  split; [apply next_srNo_above |].
  intros Hnil. unfold next_srNo. rewrite Hnil. reflexivity.
Qed.

(** ** Generated lot numbers *)

(** The lot number with the count [n] under the prefix [p]. *)
Definition numbered (p : string) (n : Z) : string :=
  p ++ "-" ++ padStart 4 "0" (string_of_Z n).

(** The entry has a lot number of the month of [w]. *)
Definition of_month (w : World) (e : InwardEntry) : Prop :=
  exists l, e_lotNo e = Some l /\ startsWith (lot_prefix w) l = true.

Lemma of_month_filter (w : World) (e : InwardEntry) :
  from_option (startsWith (lot_prefix w)) false (e_lotNo e) = true <-> of_month w e.
Proof.
  unfold of_month. destruct (e_lotNo e) as [l |]; cbn.
  - split; [eauto | intros (l' & [= <-] & H); exact H].
  - split; [discriminate | intros (l' & [=] & _)].
Qed.

Lemma numbered_count (p : string) (n : Z) :
  0 <= n ->
  default 0 (parseInt_string (default "" (pop (split "-" (numbered p n))))) = n.
Proof.
  intros Hn. unfold numbered.
  rewrite (pop_split_last _ _ (all_digits_padded 4 n Hn)). cbn [default from_option id].
  rewrite (parseInt_padded 4 n Hn). reflexivity.
Qed.

Lemma numbered_nonempty (p : string) (n : Z) : String.eqb (numbered p n) "" = false.
Proof. destruct p; reflexivity. Qed.

(** X2.  [generateLotNo] never fails and never writes, and the lot number
    it returns carries the prefix of the current month.  It is
    [LOT-yyyymm-0001] when no entry has a lot number of the month; and when
    the entry of the month that was created last has the lot number with
    count [n], a count that a double holds exactly together with its
    successor, it is the lot number with count [n + 1]. *)
Theorem generateLotNo_sequence (inexact_successor : string -> string) (w : World) (db : Db) :
  (exists lot,
      generateLotNo inexact_successor w db = (inr lot, db)
      /\ startsWith (lot_prefix w) lot = true)
  /\ ((forall e, e ∈ inwardEntries db -> ~ of_month w e) ->
      generateLotNo inexact_successor w db = (inr (numbered (lot_prefix w) 1), db))
  /\ (forall (e : InwardEntry) (p : string) (n : Z),
        e ∈ inwardEntries db ->
        e_lotNo e = Some (numbered p n) ->
        startsWith (lot_prefix w) (numbered p n) = true ->
        0 <= n < 2 ^ 53 ->
        (forall x, x ∈ inwardEntries db -> of_month w x ->
                   x = e \/ e_createdAt x < e_createdAt e) ->
        generateLotNo inexact_successor w db
        = (inr (numbered (lot_prefix w) (n + 1)), db)).
Proof.
  unfold generateLotNo, bind, query, ret.
  set (rows := List.filter _ (inwardEntries db)).
  split; [| split].
  - eexists. split; [reflexivity |].
    destruct (first_desc e_createdAt rows ≫= e_lotNo) as [l |];
      [destruct (String.eqb l "") |]; apply prefix_append.
  - intros Hnone. assert (E : rows = []).
    { destruct rows as [| x r] eqn:Er; [reflexivity |].
      assert (Hx : x ∈ rows) by (rewrite Er; apply elem_of_cons; auto).
      apply filter_elem_of in Hx. destruct Hx as [Hx Hm].
      apply of_month_filter in Hm. destruct (Hnone x Hx Hm). }
    rewrite E. reflexivity.
  - intros e p n He Hlot Hpre Hn Hlast.
    assert (E : first_desc e_createdAt rows = Some e).
    { apply first_desc_latest.
      - apply filter_elem_of. split; [exact He |]. rewrite Hlot. exact Hpre.
      - intros x Hx. apply filter_elem_of in Hx. destruct Hx as [Hx Hm].
        apply of_month_filter in Hm. auto. }
    rewrite E. cbn [mbind option_bind]. rewrite Hlot, numbered_nonempty.
    cbv zeta. rewrite (numbered_count p n (proj1 Hn)).
    assert (Hsmall : (Z.abs n <? 2 ^ 53) = true) by (apply Z.ltb_lt; lia).
    rewrite Hsmall. reflexivity.
Qed.

(** ** Lookups after a write *)

Lemma find_snoc {A : Type} (p : A -> bool) (l : list A) (x : A) :
  List.find p (l ++ [x])%list
  = match List.find p l with
    | Some y => Some y
    | None => if p x then Some x else None
    end.
Proof.
  induction l as [| a r IH]; [reflexivity |].
  cbn. destruct (p a); [reflexivity | exact IH].
Qed.

Lemma find_id_filter_same (id : string) (rows : list InwardEntry) :
  List.find (fun e => String.eqb (e_id e) id)
            (List.filter (fun e => negb (String.eqb (e_id e) id)) rows) = None.
Proof.
  apply find_is_None. intros x Hx. apply filter_elem_of in Hx.
  destruct Hx as [_ Hx]. apply negb_true_iff in Hx. exact Hx.
Qed.

Lemma find_id_filter_other (id id' : string) (rows : list InwardEntry) :
  id' <> id ->
  List.find (fun e => String.eqb (e_id e) id')
            (List.filter (fun e => negb (String.eqb (e_id e) id)) rows)
  = List.find (fun e => String.eqb (e_id e) id') rows.
Proof.
  intros Hne. induction rows as [| a r IH]; [reflexivity |].
  cbn. destruct (String.eqb (e_id a) id) eqn:Ea; cbn.
  - apply String.eqb_eq in Ea.
    assert (Ea' : String.eqb (e_id a) id' = false)
      by (apply String.eqb_neq; congruence).
    rewrite Ea'. exact IH.
  - destruct (String.eqb (e_id a) id'); [reflexivity | exact IH].
Qed.



Lemma findUnique_id_elem_of (id : string) (db : Db) (e : InwardEntry) :
  inwardEntry_findUnique_id id db = Some e -> e ∈ inwardEntries db /\ e_id e = id.
Proof.
  intros E. apply find_elem_of in E. destruct E as [Hin Hid].
  split; [exact Hin | apply String.eqb_eq; exact Hid].
Qed.

(** With unique ids, a row is determined by its id; with unique lot
    numbers, by its lot number. *)
Lemma NoDup_fmap_inj {A B : Type} (f : A -> B) (l : list A) (x y : A) :
  NoDup (map f l) -> x ∈ l -> y ∈ l -> f x = f y -> x = y.
Proof.
  induction l as [| a r IH]; [intros _ H; inversion H |].
  cbn. rewrite NoDup_cons, !elem_of_cons. intros [Ha Hr] [-> | Hx] [-> | Hy] Hf.
  - reflexivity.
  - destruct Ha. rewrite Hf. apply list_elem_of_fmap. eauto.
  - destruct Ha. rewrite <- Hf. apply list_elem_of_fmap. eauto.
  - exact (IH Hr Hx Hy Hf).
Qed.





Section WithBuiltins.

Context (toNumber : string -> num) (parseFloat_string : string -> num)
        (newDate : string -> option Z)
        (contains_insensitive : string -> string -> bool)
        (orderBy : string -> string -> list InwardEntry -> option (list InwardEntry))
        (inexact_successor : string -> string).

Local Abbreviation getAllEntries :=
  (Inward.getAllEntries toNumber newDate contains_insensitive orderBy).
Local Abbreviation createEntry :=
  (Inward.createEntry parseFloat_string newDate inexact_successor).
Local Abbreviation updateEntry := (Inward.updateEntry parseFloat_string newDate).
Local Abbreviation apply_update := (Inward.apply_update parseFloat_string).
Local Abbreviation parseFloat := (Inward.parseFloat parseFloat_string).
Local Abbreviation new_row := (InwardProps.new_row parseFloat_string newDate inexact_successor).
Local Abbreviation final_lotNo := (InwardProps.final_lotNo inexact_successor).
Local Abbreviation in_filters := (InwardProps.in_filters newDate contains_insensitive).
Local Abbreviation dates_valid := (InwardProps.dates_valid newDate).
Local Abbreviation sort_accepted := (InwardProps.sort_accepted orderBy).
Local Abbreviation date_read := (InwardProps.date_read newDate).
Local Abbreviation controller_updateEntry :=
  (Inward.controller_updateEntry parseFloat_string newDate).

(** A number that Prisma stores is finite.  Its refusal of other numbers,
    foreign keys, and indexes other than that on the lot number are not
    modelled; the statements on what a request stores are about requests
    with finite numbers, a company that exists and a serial number that is
    not in use. *)
Definition finite (x : num) : Prop := exists q : Q, x = Fin q.

(** No value, or one that satisfies [P]. *)
Definition if_sent {A : Type} (o : option A) (P : A -> Prop) : Prop :=
  forall a, o = Some a -> P a.

(** X3.  An entry that [createEntry] creates can be read back: with the
    required fields present, a date that is a date, finite numbers, an
    existing company, a serial number and a lot number that are not in use
    and an id that is new, [createEntry] succeeds, and [getEntryById] then
    returns the created entry under its id, with that date, not linked to an
    invoice, with the serial number and the lot number that were sent or
    generated; every entry stored before is still found under its id. *)
Theorem createEntry_then_getEntryById (w : World) (d : EntryData) (db : Db) (t : Z) :
  required_present d = true ->
  newDate (default "" (d_date d)) = Some t ->
  if_sent (d_quantity d) (fun v => finite (parseFloat v)) ->
  if_sent (d_rate d) (fun v => finite (parseFloat v)) ->
  company_exists (default "" (d_companyId d)) db ->
  (forall e, e ∈ inwardEntries db -> e_srNo e <> final_srNo d db) ->
  ~ lotNo_in_use (final_lotNo w d db) db ->
  ~ entry_exists (freshId w) db ->
  exists (created : EntryCreated) (db' : Db) (view : EntryView),
    createEntry w d db = (inr created, db')
    /\ getEntryById (freshId w) db' = (inr view, db')
    /\ ev_entry view = ec_entry created
    /\ e_date (ev_entry view) = t
    /\ ev_invoice view = None
    /\ e_srNo (ev_entry view) = final_srNo d db
    /\ e_lotNo (ev_entry view) = Some (final_lotNo w d db)
    /\ (forall id e,
          inwardEntry_findUnique_id id db = Some e ->
          inwardEntry_findUnique_id id db' = Some e).
Proof.
  intros Hreq Hdate _ _ Hco _ Hlot Hfresh.
  destruct (createEntry_creates parseFloat_string newDate inexact_successor w d db
              Hreq Hco Hlot (ex_intro _ t Hdate))
    as (created & db' & Hrun & Hrow & Hrows).
  apply findUnique_id_None in Hfresh.
  assert (Hfind : inwardEntry_findUnique_id (freshId w) db' = Some (new_row w d db)).
  { unfold inwardEntry_findUnique_id in Hfresh |- *.
    rewrite Hrows, find_snoc, Hfresh. cbn [InwardProps.new_row e_id].
    rewrite String.eqb_refl. reflexivity. }
  eexists created, db', _. split; [exact Hrun |].
  split; [apply getEntryById_found; exact Hfind |].
  cbn [ev_entry ev_invoice]. rewrite Hrow.
  split; [reflexivity |].
  split; [cbn [InwardProps.new_row e_date]; rewrite Hdate; reflexivity |].
  split; [reflexivity |].
  split; [reflexivity |]. split; [reflexivity |].
  intros id e E. unfold inwardEntry_findUnique_id in E |- *.
  rewrite Hrows, find_snoc, E. reflexivity.
Qed.

Lemma deleteEntry_removes (id : string) (db : Db) :
  entry_exists id db ->
  exists db' : Db,
    deleteEntry id db = (inr tt, db')
    /\ inwardEntry_findUnique_id id db' = None.
Proof.
  clear toNumber parseFloat_string newDate contains_insensitive orderBy inexact_successor.
  intros Hid. apply findUnique_id_Some in Hid. destruct Hid as [e E].
  rewrite deleteEntry_run, E. unfold inwardEntry_delete. rewrite E.
  eexists. split; [reflexivity | apply find_id_filter_same].
Qed.

(** X4.  Deleting an entry that exists succeeds; afterwards the entry is
    gone, so that reading it and deleting it again both raise the not-found
    error, while every other entry is found as before and the companies and
    invoices are untouched. *)
Theorem deleteEntry_then_getEntryById (id : string) (db : Db) :
  entry_exists id db ->
  exists db' : Db,
    deleteEntry id db = (inr tt, db')
    /\ getEntryById id db' = (inl (NotFoundError "Inward entry"), db')
    /\ deleteEntry id db' = (inl (NotFoundError "Inward entry"), db')
    /\ (forall id', id' <> id ->
          inwardEntry_findUnique_id id' db' = inwardEntry_findUnique_id id' db)
    /\ companies db' = companies db
    /\ invoices db' = invoices db.
Proof.
  clear toNumber parseFloat_string newDate contains_insensitive orderBy inexact_successor.
  intros Hid. apply findUnique_id_Some in Hid. destruct Hid as [e E].
  rewrite deleteEntry_run, E. unfold inwardEntry_delete. rewrite E.
  eexists. split; [reflexivity |].
  assert (Hgone :
    inwardEntry_findUnique_id id
      (with_inwardEntries
         (List.filter (fun e => negb (String.eqb (e_id e) id)) (inwardEntries db)) db)
    = None) by apply find_id_filter_same.
  split; [apply getEntryById_missing; exact Hgone |].
  split; [rewrite deleteEntry_run, Hgone; reflexivity |].
  split; [intros id' Hne; apply find_id_filter_other; exact Hne |].
  split; reflexivity.
Qed.

(** *** Zero and empty values *)

Lemma createEntry_row (w : World) (d : EntryData) (db db' : Db) (created : EntryCreated) :
  createEntry w d db = (inr created, db') ->
  ec_entry created = new_row w d db
  /\ inwardEntries db' = (inwardEntries db ++ [new_row w d db])%list.
Proof.
  rewrite createEntry_run.
  destruct (negb (required_present d)); [discriminate |].
  destruct (company_findUnique _ db); [| discriminate].
  destruct (inwardEntry_findUnique_lotNo _ db); [discriminate |].
  destruct (newDate _); [| discriminate].
  unfold inwardEntry_create.
  destruct (lotNo_taken _ None db); [discriminate |].
  intros [= <- <-]. split; reflexivity.
Qed.

(** X18.  The service tests its fields for truthiness, so a zero counts
    as absent.  A create request whose quantity is the number 0 is refused
    as incomplete and writes nothing.  In a create request that succeeds, a
    rate that is the number 0 is stored as no rate, and a serial number of
    0 is replaced by the next serial number, which is above that of every
    entry stored before. *)
Theorem createEntry_zero_is_absent (w : World) (d : EntryData) (db : Db) :
  (forall q : Q,
      d_quantity d = Some (VNum (Fin q)) -> (q == 0)%Q ->
      createEntry w d db
      = (inl (ValidationError
                "Date, company, manifest number, waste name, quantity, and unit are required"),
         db))
  /\ (forall (created : EntryCreated) (db' : Db),
        createEntry w d db = (inr created, db') ->
        (forall q : Q,
            d_rate d = Some (VNum (Fin q)) -> (q == 0)%Q ->
            e_rate (ec_entry created) = None)
        /\ (d_srNo d = Some 0 ->
            forall e, e ∈ inwardEntries db -> e_srNo e < e_srNo (ec_entry created))).
Proof.
  split.
  - intros q Hq Hz. rewrite createEntry_run.
    assert (E : required_present d = false).
    { unfold required_present. rewrite Hq. cbn [truthy_val truthy_num].
      apply Qeq_bool_iff in Hz. rewrite Hz. cbn [negb].
      rewrite andb_false_r. reflexivity. }
    rewrite E. reflexivity.
  - intros created db' Hrun. apply createEntry_row in Hrun. destruct Hrun as [-> _].
    cbn [InwardProps.new_row e_rate e_srNo]. split.
    + intros q Hq Hz. rewrite Hq. cbn [truthy_val truthy_num].
      apply Qeq_bool_iff in Hz. rewrite Hz. reflexivity.
    + intros Hsr e He. unfold final_srNo. rewrite Hsr. cbn.
      exact (next_srNo_above db e He).
Qed.

(** *** Updates *)




(** What identifies an entry and ties it to an invoice. *)
Definition identity_of (e : InwardEntry) : string * Z * option string * Z :=
  (e_id e, e_srNo e, e_invoiceId e, e_createdAt e).

(** X6.  Whatever the request and its outcome, [updateEntry] on a table
    with unique ids adds, removes and reorders no entry, and changes no
    entry's id, serial number, invoice link or creation time; the
    companies and the invoices are untouched. *)
Theorem updateEntry_keeps_identity (id : string) (u : UpdateData) (db : Db) :
  NoDup (map e_id (inwardEntries db)) ->
  map identity_of (inwardEntries (snd (updateEntry id u db)))
  = map identity_of (inwardEntries db)
  /\ companies (snd (updateEntry id u db)) = companies db
  /\ invoices (snd (updateEntry id u db)) = invoices db.
Proof.
  intros Hnd. rewrite updateEntry_run.
  destruct (inwardEntry_findUnique_id id db) as [e |] eqn:E; [| auto].
  cbv zeta.
  destruct (date_read u) as [date |];
    [| destruct (truthy_str (mjoin (u_lotNo u)));
       [destruct (inwardEntry_findFirst_lotNo_not _ id db) |]; auto].
  assert (Hwrite :
    forall r db', inwardEntry_update id (apply_update date u) db = (r, db') ->
    map identity_of (inwardEntries db') = map identity_of (inwardEntries db)
    /\ companies db' = companies db /\ invoices db' = invoices db).
  { unfold inwardEntry_update. rewrite E. intros r db'.
    destruct (lotNo_taken _ (Some id) db); intros [= <- <-]; [auto |].
    split; [| split; reflexivity]. cbn [with_inwardEntries inwardEntries].
    rewrite map_map. apply map_ext_in. intros x Hx. apply list_elem_of_In in Hx.
    destruct (String.eqb (e_id x) id) eqn:Ex; [| reflexivity].
    apply String.eqb_eq in Ex.
    destruct (findUnique_id_elem_of _ _ _ E) as [He Hid].
    assert (x = e) by (apply (NoDup_fmap_inj e_id (inwardEntries db)); congruence).
    subst x. reflexivity. }
  destruct (inwardEntry_update id (apply_update date u) db) as [r db'] eqn:U.
  specialize (Hwrite r db' eq_refl).
  destruct (truthy_str (mjoin (u_lotNo u)));
    [destruct (inwardEntry_findFirst_lotNo_not _ id db) |];
    try (destruct r; exact Hwrite); auto.
Qed.

(** ** Pages *)

Lemma skipn_elem_of {A : Type} (n : nat) (l : list A) (x : A) :
  x ∈ skipn n l -> x ∈ l.
Proof.
  revert l. induction n as [| n IH]; intros l; [auto |].
  destruct l as [| a r]; cbn; [auto |].
  intros H. apply elem_of_cons. right. exact (IH r H).
Qed.

(** X7.  When the database accepts the query (its dates are dates, its
    sort key and order are known and the rows come back in some order, and
    [skip] and [take] are a non-negative integer [s] and a non-negative
    integer [t]), [getAllEntries] answers without writing; the page holds
    [min t (max 0 (total - s))] entries, so never more than the page size,
    each of them a stored entry that passes the filters of the query, and
    [total] counts all the stored entries that pass them, whatever the
    page. *)
Theorem getAllEntries_page (options : ListOptions) (db : Db) (s t : Z) :
  dates_valid options ->
  sort_accepted options ->
  as_int (skip_of toNumber options) = Some s -> 0 <= s ->
  as_int (take_of options) = Some t -> 0 <= t ->
  exists result : EntryList,
    getAllEntries options db = (inr result, db)
    /\ Z.of_nat (length (entries result))
       = Z.min t (Z.max 0 (total (pagination result) - s))
    /\ total (pagination result)
       = Z.of_nat (length (filter (in_filters options) (inwardEntries db)))
    /\ (forall item, item ∈ entries result ->
          li_entry item ∈ inwardEntries db /\ in_filters options (li_entry item)).
Proof.
  intros Hdates Hsort Hs Hs0 Ht Ht0.
  unfold Inward.getAllEntries, bind, inwardEntry_findMany, inwardEntry_count, query, ret,
    window.
  apply valid_where_dates in Hdates. rewrite Hdates. cbn [negb].
  destruct (Hsort (matching newDate contains_insensitive options db))
    as (sorted & Hsorted & Hperm).
  unfold matching in Hsorted, Hperm. rewrite Hsorted.
  rewrite Hs, Ht.
  destruct (s <? 0) eqn:E1; [apply Z.ltb_lt in E1; lia |].
  destruct (0 <=? t) eqn:E2; [| apply Z.leb_gt in E2; lia].
  eexists. split; [reflexivity |].
  cbn [entries pagination total].
  split; [| split; [rewrite <- matching_in_filters; reflexivity |]].
  - rewrite length_map, length_firstn, length_skipn, (Permutation_length Hperm).
    lia.
  - intros item Hitem. apply list_elem_of_fmap in Hitem.
    destruct Hitem as (e & -> & He). cbn [list_item li_entry].
    apply firstn_elem_of, skipn_elem_of in He.
    rewrite Hperm in He. apply filter_elem_of in He. destruct He as [He Hm].
    split; [exact He | apply matches_in_filters in Hm; exact Hm].
Qed.

(** X19.  A page size of 0 is not refused.  When the database accepts the
    dates, the sort key and order and [skip] of the query and the page size
    parses to 0, [getAllEntries] answers with an empty page, and
    [totalPages], the ceiling of [total / 0], is not a number of pages: it
    is NaN when no entry passes the filters and [+Infinity] otherwise. *)
Theorem getAllEntries_no_page_size (options : ListOptions) (db : Db) (s : Z) :
  dates_valid options ->
  sort_accepted options ->
  as_int (skip_of toNumber options) = Some s -> 0 <= s ->
  take_of options = ofZ 0 ->
  exists result : EntryList,
    getAllEntries options db = (inr result, db)
    /\ entries result = []
    /\ total (pagination result)
       = Z.of_nat (length (filter (in_filters options) (inwardEntries db)))
    /\ totalPages (pagination result)
       = if total (pagination result) =? 0 then NaN else Inf true.
Proof.
  intros Hdates Hsort Hs Hs0 Ht.
  destruct (getAllEntries_answers toNumber newDate contains_insensitive orderBy
              options db s 0 Hdates Hsort Hs Hs0)
    as [result Hrun]; [rewrite Ht; reflexivity |].
  exists result. split; [exact Hrun |].
  destruct (getAllEntries_inv _ _ _ _ _ _ _ _ Hrun) as (_ & Hlimit & Htotal & _).
  split; [| split; [rewrite Htotal, matching_in_filters; reflexivity |]].
  - revert Hrun.
    unfold Inward.getAllEntries, bind, inwardEntry_findMany, inwardEntry_count, query, ret,
      window.
    destruct (negb (valid_where _)); [discriminate |].
    destruct (orderBy _ _ _) as [sorted |]; [| discriminate].
    rewrite Hs, Ht. change (as_int (ofZ 0)) with (Some 0).
    destruct (s <? 0); [discriminate |]. cbn [Z.leb Z.compare Z.to_nat firstn map].
    intros [= <-]. reflexivity.
  - apply (getAllEntries_limit_zero toNumber newDate contains_insensitive orderBy
             options db db result Hrun).
    rewrite Hlimit. exact Ht.
Qed.

(** ** The handlers that take an id *)

(** X8.  For an id that no entry has, the handlers of [getEntryById],
    [updateEntry] and [deleteEntry] send no response: they hand the
    not-found error to [next] and leave the database as it was.  For an
    entry that exists, the read handler answers 200 with the entry under
    [data.entry], and the delete handler answers 200 with a message and no
    [data], after which the entry is gone. *)
Theorem id_handlers (id : string) (u : UpdateData) (db : Db) :
  (~ entry_exists id db ->
     controller_getEntryById id db = (Next (NotFoundError "Inward entry"), db)
     /\ controller_updateEntry id u db = (Next (NotFoundError "Inward entry"), db)
     /\ controller_deleteEntry id db = (Next (NotFoundError "Inward entry"), db))
  /\ (forall e : InwardEntry,
        inwardEntry_findUnique_id id db = Some e ->
        exists v : EntryView,
          ev_entry v = e
          /\ controller_getEntryById id db
             = (Respond 200 {| success := true;
                               data := Some {| entry := v |};
                               pagination_ := None;
                               message := "Inward entry retrieved successfully" |}, db))
  /\ (entry_exists id db ->
        exists db' : Db,
          controller_deleteEntry id db
          = (Respond 200 {| success := true;
                            data := None;
                            pagination_ := None;
                            message := "Inward entry deleted successfully" |}, db')
          /\ ~ entry_exists id db').
Proof.
  split; [| split].
  - intros H. apply findUnique_id_None in H.
    unfold controller_getEntryById, Inward.controller_updateEntry, controller_deleteEntry,
      handle.
    rewrite updateEntry_run, deleteEntry_run, (getEntryById_missing _ _ H), H. auto.
  - intros e E. eexists. split; [| unfold controller_getEntryById, handle;
                                   rewrite (getEntryById_found _ _ _ E); reflexivity].
    reflexivity.
  - intros H.
    destruct (deleteEntry_removes id db H) as (db' & Hrun & Hgone).
    exists db'. split; [unfold controller_deleteEntry, handle; rewrite Hrun; reflexivity |].
    apply findUnique_id_None. exact Hgone.
Qed.

End WithBuiltins.

(** ** Statistics *)

Import InwardStats.

Local Open Scope Q_scope.

(** The number of rows linked to the invoice [iid]. *)
Definition links_to (iid : string) (rows : list InwardEntry) : nat :=
  length (List.filter (fun e => bool_decide (e_invoiceId e = Some iid)) rows).

(** The amounts of the invoices, each taken once for every row linked to
    it. *)
Fixpoint per_link (field : Invoice -> Q) (rows : list InwardEntry) (invs : list Invoice)
  : Q :=
  match invs with
  | [] => 0
  | i :: r => inject_Z (Z.of_nat (links_to (i_id i) rows)) * field i + per_link field rows r
  end.

(** What a row adds to a total. *)
Definition share (field : Invoice -> Q) (db : Db) (e : InwardEntry) : Q :=
  from_option field 0 (invoice_of e db).

Fixpoint shares (field : Invoice -> Q) (db : Db) (rows : list InwardEntry) : Q :=
  match rows with
  | [] => 0
  | e :: r => share field db e + shares field db r
  end.

Lemma fold_invoiced (field : Invoice -> Q) (db : Db) (rows : list InwardEntry) (a : Q) :
  exists q,
    fold_left (fun sum e => add sum (invoice_number field e))
      (List.filter (fun e => bool_decide (is_Some (invoice e)))
                   (map (fun e => {| row := e; invoice := invoice_of e db |}) rows))
      (Fin a) = Fin q
    /\ q == a + shares field db rows.
Proof.
  revert a. induction rows as [| e r IH]; intros a.
  - exists a. split; [reflexivity | cbn; ring].
  - cbn [map List.filter invoice shares]. unfold share.
    destruct (invoice_of e db) as [i |] eqn:Ei.
    + rewrite bool_decide_eq_true_2 by eauto.
      cbn [fold_left]. unfold invoice_number at 2. cbn [invoice from_option add].
      destruct (IH (a + field i)) as (q & Hq & Heq).
      exists q. split; [exact Hq |]. rewrite Heq. cbn [from_option]. ring.
    + rewrite bool_decide_eq_false_2 by (intros [x Hx]; discriminate).
      destruct (IH a) as (q & Hq & Heq).
      exists q. split; [exact Hq |]. rewrite Heq. cbn [from_option]. ring.
Qed.

Lemma per_link_nil (field : Invoice -> Q) (invs : list Invoice) :
  per_link field [] invs == 0.
Proof. induction invs as [| i r IH]; cbn; [reflexivity |]. rewrite IH. ring. Qed.

Lemma per_link_unlinked (field : Invoice -> Q) (e : InwardEntry) (rows : list InwardEntry)
    (invs : list Invoice) :
  (forall i, i ∈ invs -> e_invoiceId e <> Some (i_id i)) ->
  per_link field (e :: rows) invs == per_link field rows invs.
Proof.
  induction invs as [| i r IH]; intros H; cbn [per_link]; [reflexivity |].
  rewrite IH by (intros j Hj; apply H, elem_of_cons; auto).
  unfold links_to. cbn [List.filter].
  rewrite bool_decide_eq_false_2 by (apply H, elem_of_cons; auto).
  reflexivity.
Qed.

Lemma per_link_cons (field : Invoice -> Q) (db : Db) (e : InwardEntry)
    (rows : list InwardEntry) :
  NoDup (map i_id (invoices db)) ->
  per_link field (e :: rows) (invoices db)
  == share field db e + per_link field rows (invoices db).
Proof.
  unfold share, invoice_of. induction (invoices db) as [| i r IH]; intros Hnd.
  - destruct (e_invoiceId e); cbn; ring.
  - cbn [map] in Hnd. apply NoDup_cons in Hnd. destruct Hnd as [Hi Hr].
    cbn [per_link]. unfold links_to at 1. cbn [List.filter].
    destruct (e_invoiceId e) as [iid |] eqn:Ee.
    + cbn [List.find]. destruct (String.eqb (i_id i) iid) eqn:E.
      * apply String.eqb_eq in E. subst iid.
        rewrite bool_decide_eq_true_2 by reflexivity.
        rewrite per_link_unlinked.
        2: { intros j Hj Hlink. apply Hi. rewrite Ee in Hlink. injection Hlink as ->.
             apply list_elem_of_fmap. eauto. }
        cbn [length from_option]. fold (links_to (i_id i) rows).
        rewrite Nat2Z.inj_succ, <- Z.add_1_r, inject_Z_plus. ring.
      * apply String.eqb_neq in E.
        rewrite bool_decide_eq_false_2 by congruence.
        fold (links_to (i_id i) rows). rewrite (IH Hr). ring.
    + rewrite bool_decide_eq_false_2 by discriminate.
      fold (links_to (i_id i) rows). rewrite (IH Hr). cbn [from_option]. ring.
Qed.

Lemma shares_per_link (field : Invoice -> Q) (db : Db) (rows : list InwardEntry) :
  NoDup (map i_id (invoices db)) ->
  shares field db rows == per_link field rows (invoices db).
Proof.
  intros Hnd. induction rows as [| e r IH]; cbn [shares].
  - rewrite per_link_nil. reflexivity.
  - rewrite per_link_cons by exact Hnd. rewrite IH. reflexivity.
Qed.

(** X9.  [getStats] never fails and never writes, and its handler always
    answers 200 with the statistics under [data.stats].  [totalEntries] is
    the number of entries.  With unique invoice ids, [totalInvoiced] and
    [totalReceived] are finite, and they take the grand total and the
    payment of an invoice once for every entry linked to it: an invoice
    that bills [k] entries enters [k] times, an invoice that bills none
    does not enter. *)
Theorem getStats_per_link (db : Db) :
  NoDup (map i_id (invoices db)) ->
  exists (s : Stats) (invoiced received : Q),
    getStats db = (inr s, db)
    /\ controller_getStats db
       = (Respond 200 {| success := true;
                         data := Some {| stats := s |};
                         pagination_ := None;
                         message := "Statistics retrieved successfully" |}, db)
    /\ totalEntries s = Z.of_nat (length (inwardEntries db))
    /\ totalInvoiced s = Fin invoiced
    /\ invoiced == per_link i_grandTotal (inwardEntries db) (invoices db)
    /\ totalReceived s = Fin received
    /\ received == per_link i_paymentReceived (inwardEntries db) (invoices db).
Proof.
  intros Hnd.
  destruct (fold_invoiced i_grandTotal db (inwardEntries db) (inject_Z 0))
    as (invoiced & Hi & Hiq).
  destruct (fold_invoiced i_paymentReceived db (inwardEntries db) (inject_Z 0))
    as (received & Hr & Hrq).
  eexists _, invoiced, received.
  split; [reflexivity |]. split; [reflexivity |].
  cbn [totalEntries totalInvoiced totalReceived].
  split; [unfold inwardEntry_findMany_invoice; rewrite length_map; reflexivity |].
  split; [exact Hi |].
  split; [rewrite Hiq, shares_per_link by exact Hnd; ring |].
  split; [exact Hr |].
  rewrite Hrq, shares_per_link by exact Hnd. ring.
Qed.

(** ** Runs on the sample databases *)

Local Close Scope Q_scope.

Local Abbreviation e3 := (Samples.entry "e3" 3 "LOT-202401-0003" "MF-3" 300).

Lemma e3_in_sample : e3 ∈ inwardEntries Samples.db.
Proof. apply list_elem_of_In. cbn. auto. Qed.

Lemma sample_keys_unique : keys_unique Samples.db.
Proof. split; apply (bool_decide_unpack _); vm_compute; exact I. Qed.

Lemma e9_not_in_sample : ~ entry_exists "e9" Samples.db.
Proof.
  intros (e & Hin & Hid). apply list_elem_of_In in Hin. cbn in Hin.
  destruct Hin as [<- | [<- | [<- | []]]]; discriminate.
Qed.

(** The order of the sample database is a rearrangement of the rows. *)
Lemma insert_by_perm {A : Type} (key : A -> Z) (x : A) (l : list A) :
  insert_by key x l ≡ₚ x :: l.
Proof.
  induction l as [| y r IH]; [reflexivity |].
  cbn. destruct (key x <=? key y); [reflexivity |].
  rewrite IH. apply Permutation_swap.
Qed.

Lemma sort_asc_perm {A : Type} (key : A -> Z) (l : list A) : sort_asc key l ≡ₚ l.
Proof.
  induction l as [| x r IH]; [reflexivity |].
  cbn. rewrite insert_by_perm, IH. reflexivity.
Qed.

Lemma sample_sort_accepted (q : ListQuery) :
  q_sortBy q = None -> q_sortOrder q = None ->
  sort_accepted Samples.orderBy (options_of_query q).
Proof.
  intros Hby Horder rows. cbn [options_of_query o_sortBy o_sortOrder].
  rewrite Hby, Horder.
  exists (sort_asc (fun e => - e_date e) rows).
  split; [reflexivity | apply sort_asc_perm].
Qed.

Lemma sample_dates_valid (q : ListQuery) :
  q_startDate q = None -> q_endDate q = None ->
  dates_valid Samples.newDate (options_of_query q).
Proof.
  intros Hs He. unfold dates_valid. cbn [options_of_query o_startDate o_endDate].
  rewrite Hs, He. split; apply given_None.
Qed.

(** The next serial number of the sample table is above that of [e3]. *)
Lemma getNextSrNo_above_witness :
  exists n : Z, getNextSrNo Samples.db = (inr n, Samples.db) /\ 3 < n.
Proof.
  destruct (getNextSrNo_above Samples.db) as (n & Hrun & Habove & _).
  exists n. split; [exact Hrun | exact (Habove e3 e3_in_sample)].
Defined.

(** After [LOT-202401-0003], the entry created last in January 2024, comes
    [LOT-202401-0004]. *)
Lemma generateLotNo_sequence_witness :
  generateLotNo Samples.inexact_successor Samples.world Samples.db
  = (inr "LOT-202401-0004", Samples.db).
Proof.
  apply (proj2 (proj2 (generateLotNo_sequence Samples.inexact_successor
                         Samples.world Samples.db))
           e3 "LOT-202401" 3).
  - exact e3_in_sample.
  - reflexivity.
  - reflexivity.
  - split; [lia | reflexivity].
  - intros x Hx _. apply list_elem_of_In in Hx. cbn in Hx.
    destruct Hx as [<- | [<- | [<- | []]]]; cbn; auto; right; lia.
Defined.

(** A request dated 15 January 2024. *)
Lemma createEntry_then_getEntryById_witness :
  exists (created : EntryCreated) (db' : Db) (view : EntryView),
    Inward.createEntry Samples.parseFloat_string Samples.newDate Samples.inexact_successor
      Samples.world (Samples.create_body "c1" None) Samples.db = (inr created, db')
    /\ getEntryById "e4" db' = (inr view, db')
    /\ ev_entry view = ec_entry created
    /\ e_date (ev_entry view) = 1705276800000
    /\ e_lotNo (ev_entry view) = Some "LOT-202401-0004".
Proof.
  destruct (createEntry_then_getEntryById Samples.parseFloat_string Samples.newDate
              Samples.inexact_successor
              Samples.world (Samples.create_body "c1" None) Samples.db 1705276800000)
    as (created & db' & view & Hrun & Hget & Hsame & Hdate & _ & _ & Hlot & _).
  - reflexivity.
  - reflexivity.
  - intros v [= <-]. eexists. reflexivity.
  - intros v [=].
  - exists Samples.acme. split; [exact acme_in_sample | reflexivity].
  - intros e Hin. apply list_elem_of_In in Hin. cbn in Hin.
    destruct Hin as [<- | [<- | [<- | []]]]; discriminate.
  - intros (e & Hin & Hl). apply list_elem_of_In in Hin. cbn in Hin.
    destruct Hin as [<- | [<- | [<- | []]]]; discriminate.
  - intros (e & Hin & Hl). apply list_elem_of_In in Hin. cbn in Hin.
    destruct Hin as [<- | [<- | [<- | []]]]; discriminate.
  - exists created, db', view. auto.
Defined.

Lemma deleteEntry_then_getEntryById_witness :
  exists db' : Db,
    deleteEntry "e2" Samples.db = (inr tt, db')
    /\ getEntryById "e2" db' = (inl (NotFoundError "Inward entry"), db')
    /\ inwardEntry_findUnique_id "e3" db' = Some e3.
Proof.
  destruct (deleteEntry_then_getEntryById "e2" Samples.db)
    as (db' & Hrun & Hget & _ & Hothers & _).
  - eexists. split; [exact e2_in_sample | reflexivity].
  - exists db'. split; [exact Hrun |]. split; [exact Hget |].
    rewrite (Hothers "e3") by discriminate. reflexivity.
Defined.


Lemma updateEntry_keeps_identity_witness :
  map identity_of
      (inwardEntries
         (snd (Inward.updateEntry Samples.parseFloat_string Samples.newDate
                 "e2" (Samples.update_lotNo "LOT-9") Samples.db)))
  = [ ("e1", 1, None, 100); ("e2", 2, None, 200); ("e3", 3, None, 300) ].
Proof.
  refine (eq_trans
            (proj1 (updateEntry_keeps_identity Samples.parseFloat_string Samples.newDate
                      "e2" (Samples.update_lotNo "LOT-9") Samples.db _)) _).
  - exact (proj1 sample_keys_unique).
  - reflexivity.
Defined.

(** [GET /api/inward?limit=2] on three entries: a page of two. *)
Lemma getAllEntries_page_witness :
  exists result : EntryList,
    Inward.getAllEntries Samples.toNumber Samples.newDate Samples.contains_insensitive
      Samples.orderBy (options_of_query Samples.list_query) Samples.db
    = (inr result, Samples.db)
    /\ Z.of_nat (length (entries result)) = 2
    /\ total (pagination result) = 3.
Proof.
  destruct (getAllEntries_page Samples.toNumber Samples.newDate
              Samples.contains_insensitive Samples.orderBy
              (options_of_query Samples.list_query) Samples.db 0 2)
    as (result & Hrun & Hlen & Htotal & _).
  - apply sample_dates_valid; reflexivity.
  - apply sample_sort_accepted; reflexivity.
  - reflexivity.
  - lia.
  - reflexivity.
  - lia.
  - exists result. split; [exact Hrun |].
    rewrite Hlen, Htotal. split; reflexivity.
Defined.

(** [GET /api/inward?limit=0] on the sample table. *)
Lemma getAllEntries_no_page_size_witness :
  exists result : EntryList,
    Inward.getAllEntries Samples.toNumber Samples.newDate Samples.contains_insensitive
      Samples.orderBy (options_of_query MoreSamples.no_page_size) Samples.db
    = (inr result, Samples.db)
    /\ entries result = []
    /\ totalPages (pagination result) = Inf true.
Proof.
  destruct (getAllEntries_no_page_size Samples.toNumber Samples.newDate
              Samples.contains_insensitive Samples.orderBy
              (options_of_query MoreSamples.no_page_size) Samples.db 0)
    as (result & Hrun & Hnone & Htotal & Hpages).
  - apply sample_dates_valid; reflexivity.
  - apply sample_sort_accepted; reflexivity.
  - reflexivity.
  - lia.
  - reflexivity.
  - exists result. split; [exact Hrun |]. split; [exact Hnone |].
    rewrite Hpages, Htotal. reflexivity.
Defined.

Lemma id_handlers_witness :
  controller_getEntryById "e9" Samples.db = (Next (NotFoundError "Inward entry"), Samples.db)
  /\ exists db' : Db,
       controller_deleteEntry "e2" Samples.db
       = (Respond 200 {| success := true;
                         data := None;
                         pagination_ := None;
                         message := "Inward entry deleted successfully" |}, db')
       /\ ~ entry_exists "e2" db'.
Proof.
  split.
  - apply (proj1 (id_handlers Samples.parseFloat_string Samples.newDate
                    "e9" (Samples.update_lotNo "x") Samples.db)).
    exact e9_not_in_sample.
  - apply (proj2 (proj2 (id_handlers Samples.parseFloat_string Samples.newDate
                           "e2" (Samples.update_lotNo "x") Samples.db))).
    eexists. split; [exact e2_in_sample | reflexivity].
Defined.

(** Invoice [inv1] bills two entries and [inv2] none: the invoiced total
    is twice the grand total of [inv1]. *)
Lemma getStats_per_link_witness :
  exists (s : Stats) (invoiced received : Q),
    getStats MoreSamples.billed_db = (inr s, MoreSamples.billed_db)
    /\ totalEntries s = 3
    /\ totalInvoiced s = Fin invoiced /\ (invoiced == 200)%Q
    /\ totalReceived s = Fin received /\ (received == 80)%Q.
Proof.
  destruct (getStats_per_link MoreSamples.billed_db)
    as (s & invoiced & received & Hrun & _ & Hn & Hi & Hiq & Hr & Hrq).
  - apply (bool_decide_unpack _). vm_compute. exact I.
  - exists s, invoiced, received.
    split; [exact Hrun |]. split; [exact Hn |].
    split; [exact Hi |]. split; [rewrite Hiq; reflexivity |].
    split; [exact Hr |]. rewrite Hrq. reflexivity.
Defined.

(** A request for a quantity of 0, and one with a rate of 0. *)
Lemma createEntry_zero_is_absent_witness :
  (exists e : AppError,
      Inward.createEntry Samples.parseFloat_string Samples.newDate
        Samples.inexact_successor Samples.world
        (MoreSamples.with_numbers (Some (VNum (ofZ 0))) None (Samples.create_body "c1" None))
        Samples.db = (inl e, Samples.db)
      /\ kind_of e = Validation)
  /\ exists (created : EntryCreated) (db' : Db),
       Inward.createEntry Samples.parseFloat_string Samples.newDate
         Samples.inexact_successor Samples.world
         (MoreSamples.with_numbers (Some (VNum (ofZ 3))) (Some (VNum (ofZ 0)))
            (Samples.create_body "c1" None))
         Samples.db = (inr created, db')
       /\ e_rate (ec_entry created) = None.
Proof.
  split.
  - eexists. split.
    + apply (proj1 (createEntry_zero_is_absent Samples.parseFloat_string Samples.newDate
                      Samples.inexact_successor Samples.world
                      (MoreSamples.with_numbers (Some (VNum (ofZ 0))) None
                         (Samples.create_body "c1" None))
                      Samples.db) (inject_Z 0)); reflexivity.
    + reflexivity.
  - destruct (Inward.createEntry Samples.parseFloat_string Samples.newDate
                Samples.inexact_successor Samples.world
                (MoreSamples.with_numbers (Some (VNum (ofZ 3))) (Some (VNum (ofZ 0)))
                   (Samples.create_body "c1" None))
                Samples.db) as [[e | created] db'] eqn:R; [vm_compute in R; discriminate R |].
    exists created, db'. split; [reflexivity |].
    apply (proj1 (proj2 (createEntry_zero_is_absent Samples.parseFloat_string
                           Samples.newDate Samples.inexact_successor Samples.world
                           (MoreSamples.with_numbers (Some (VNum (ofZ 3)))
                              (Some (VNum (ofZ 0))) (Samples.create_body "c1" None))
                           Samples.db) created db' R)
             (inject_Z 0)); reflexivity.
Defined.

End InwardMoreProps.

(* ===================================================================== *)
(** * The material handlers of the companies controller                   *)
(* ===================================================================== *)

Module CompanyMaterialsProps.
Import Companies CompaniesProps CompanyMaterials.

(** X10.  [addMaterial] answers 201 and [updateMaterial] 200, both with
    the material under [data.material]: for the role ['admin'] it is the
    material the service returned; for any other role, or none, it has no
    [rate] and is otherwise the same.  A [null] material is never sent: the
    handler fails on it and hands the error to [next]. *)
Theorem material_handlers_strip (role : option string) (m : material) :
  (exists m' : material,
      addMaterial role (Some m)
      = Respond {| status := 201;
                   success := true;
                   data := {| material_ := m' |};
                   pagination := None;
                   message := "Material added successfully" |}
      /\ updateMaterial role (Some m)
         = Respond {| status := 200;
                      success := true;
                      data := {| material_ := m' |};
                      pagination := None;
                      message := "Material updated successfully" |}
      /\ same_but_rate m' m
      /\ (role = Some "admin" -> m' = m)
      /\ (role <> Some "admin" -> rate_free m'))
  /\ (forall response, addMaterial role None <> Respond response)
  /\ (forall response, updateMaterial role None <> Respond response).
Proof.
  split; [| split; intros response; discriminate].
  exists (strip role m). split; [reflexivity |]. split; [reflexivity |].
  unfold strip. split; [| split].
  - destruct (negb (is_admin role)); [apply without_rate_same | apply same_but_rate_refl].
  - intros Hrole. apply is_admin_true in Hrole. rewrite Hrole. reflexivity.
  - intros Hrole. apply is_admin_false in Hrole. rewrite Hrole. apply without_rate_free.
Qed.

(** A staff member who adds a material gets it back without its rate. *)
Lemma material_handlers_strip_witness :
  exists m' : material,
    addMaterial (Some "staff") (Some solvent)
    = Respond {| status := 201;
                 success := true;
                 data := {| material_ := m' |};
                 pagination := None;
                 message := "Material added successfully" |}
    /\ m' !! "rate" = None
    /\ m' !! "materialName" = Some (SStr "Spent solvent").
Proof.
  destruct (proj1 (material_handlers_strip (Some "staff") solvent))
    as (m' & Hadd & _ & Hsame & _ & Hfree).
  exists m'. split; [exact Hadd |].
  split; [apply Hfree; discriminate |].
  rewrite (Hsame "materialName") by discriminate. reflexivity.
Defined.

End CompanyMaterialsProps.

(* ===================================================================== *)
(** * The pagination control of the data table                            *)
(* ===================================================================== *)

Module DataTableProps.
Import DataTable.

Lemma pageButtons_seqZ (currentPage totalPages : Z) :
  pageButtons currentPage totalPages
  = seqZ (pageNum currentPage totalPages 0) (Z.min 5 totalPages).
Proof.
  unfold pageButtons, seqZ. apply map_ext. intros i. unfold pageNum.
  repeat match goal with |- context [if ?b then _ else _] => destruct b end; lia.
Qed.

(** The first of the numbered buttons. *)
Lemma pageNum_first (currentPage totalPages : Z) :
  1 <= totalPages ->
  1 <= pageNum currentPage totalPages 0
  /\ pageNum currentPage totalPages 0 + Z.min 5 totalPages - 1 <= totalPages
  /\ (1 <= currentPage <= totalPages ->
        pageNum currentPage totalPages 0 <= currentPage
        < pageNum currentPage totalPages 0 + Z.min 5 totalPages)
  /\ (3 <= currentPage <= totalPages - 2 ->
        pageNum currentPage totalPages 0 = currentPage - 2).
Proof.
  intros Ht. unfold pageNum.
  destruct (totalPages <=? 5) eqn:E1; [apply Z.leb_le in E1; lia |].
  apply Z.leb_gt in E1.
  destruct (currentPage <=? 3) eqn:E2; [apply Z.leb_le in E2; lia |].
  apply Z.leb_gt in E2.
  destruct (currentPage >=? totalPages - 2) eqn:E3; lia.
Qed.

(** X11.  For any current page, the numbered buttons of a table with
    [totalPages >= 1] are [min 5 totalPages] consecutive pages within
    [1 .. totalPages].  When the current page is one of the table's, it is
    among them, and it is the middle one if two pages lie on either side
    of it. *)
Theorem pageButtons_window (currentPage totalPages : Z) :
  1 <= totalPages ->
  exists first : Z,
    pageButtons currentPage totalPages = seqZ first (Z.min 5 totalPages)
    /\ 1 <= first
    /\ first + Z.min 5 totalPages - 1 <= totalPages
    /\ (1 <= currentPage <= totalPages ->
          first <= currentPage < first + Z.min 5 totalPages)
    /\ (3 <= currentPage <= totalPages - 2 -> first = currentPage - 2).
Proof.
  intros Ht. exists (pageNum currentPage totalPages 0).
  split; [apply pageButtons_seqZ | apply pageNum_first; exact Ht].
Qed.

Lemma pageButtons_window_witness :
  pageButtons 7 20 = [5; 6; 7; 8; 9].
Proof.
  destruct (pageButtons_window 7 20) as (first & Hb & _ & _ & _ & Hmid); [lia |].
  rewrite Hb, Hmid by lia. reflexivity.
Defined.

(** X12.  While the current page is one of the table's pages, every page
    that a click on the bar hands to [onPageChange] is one of them too:
    [Previous] is disabled on page 1 and [Following] on the last page.
    Nothing can be clicked when there is at most one page.  When the
    current page lies beyond the last one, [Following] is enabled and asks
    for a page further beyond. *)
Theorem click_in_range (p : Props) (c : Control) :
  (forall page : Z,
      1 <= currentPage_of p <= totalPages_of p ->
      click p c = Some page ->
      1 <= page <= totalPages_of p)
  /\ (totalPages_of p <= 1 -> click p c = None)
  /\ (1 < totalPages_of p < currentPage_of p ->
      onPageChange p = true ->
      click p Following = Some (currentPage_of p + 1)).
Proof.
  unfold click, barShown, previousDisabled, nextDisabled, buttons, barShown.
  split; [| split].
  - intros page Hc.
    destruct (1 <? totalPages_of p) eqn:E; [| discriminate].
    apply Z.ltb_lt in E.
    destruct (onPageChange p); [| discriminate]. cbn [andb].
    destruct c as [| | index].
    + destruct (currentPage_of p =? 1) eqn:E1; [discriminate |].
      apply Z.eqb_neq in E1. intros [= <-]. lia.
    + destruct (currentPage_of p =? totalPages_of p) eqn:E1; [discriminate |].
      apply Z.eqb_neq in E1. intros [= <-]. lia.
    + destruct (pageNum_first (currentPage_of p) (totalPages_of p))
        as (H1 & H2 & _); [lia |].
      rewrite pageButtons_seqZ. intros Hl. apply lookup_seqZ in Hl. lia.
  - intros Ht. destruct (1 <? totalPages_of p) eqn:E; [| reflexivity].
    apply Z.ltb_lt in E. lia.
  - intros Ht Hon. rewrite Hon.
    destruct (1 <? totalPages_of p) eqn:E; [| apply Z.ltb_ge in E; lia].
    destruct (currentPage_of p =? totalPages_of p) eqn:E1; [| reflexivity].
    apply Z.eqb_eq in E1. lia.
Qed.

(** The last page of three: [Following] is disabled, [Previous] asks for
    page 2. *)
Lemma click_in_range_witness :
  click {| currentPage := Some 3; totalPages := Some 3; onPageChange := true |} Following
  = None
  /\ exists page : Z,
       click {| currentPage := Some 3; totalPages := Some 3; onPageChange := true |} Previous
       = Some page
       /\ 1 <= page <= 3.
Proof.
  split; [reflexivity |].
  exists 2. split; [reflexivity |].
  apply (proj1 (click_in_range
                  {| currentPage := Some 3; totalPages := Some 3; onPageChange := true |}
                  Previous) 2).
  - cbn. lia.
  - reflexivity.
Defined.

End DataTableProps.

(* ===================================================================== *)
(** * More of the create-invoice form                                     *)
(* ===================================================================== *)

Module InvoiceFormMoreProps.
Import Js InvoiceForm JsProps InvoiceFormProps.

Local Open Scope Q_scope.

(** ** The entry checkbox *)

Lemma filter_all {A : Type} (p : A -> bool) (l : list A) :
  (forall x, x ∈ l -> p x = true) -> List.filter p l = l.
Proof.
  induction l as [| a r IH]; intros H; [reflexivity |].
  cbn. rewrite (H a) by (apply elem_of_cons; auto).
  rewrite IH; [reflexivity |]. intros x Hx. apply H, elem_of_cons. auto.
Qed.

Lemma filter_snoc_out {A : Type} (p : A -> bool) (l : list A) (x : A) :
  (forall y, y ∈ l -> p y = true) -> p x = false -> List.filter p (l ++ [x])%list = l.
Proof.
  intros Hl Hx. rewrite List.filter_app. cbn. rewrite Hx, app_nil_r.
  apply filter_all, Hl.
Qed.

Lemma remove_first_snoc {A : Type} (p : A -> bool) (l : list A) (x : A) :
  (forall y, y ∈ l -> p y = false) -> p x = true -> remove_first p (l ++ [x])%list = l.
Proof.
  intros Hl Hx. induction l as [| a r IH]; cbn; [rewrite Hx; reflexivity |].
  rewrite (Hl a) by (apply elem_of_cons; auto).
  rewrite IH; [reflexivity |]. intros y Hy. apply Hl, elem_of_cons. auto.
Qed.

Lemma existsb_none {A : Type} (p : A -> bool) (l : list A) :
  (forall y, y ∈ l -> p y = false) -> existsb p l = false.
Proof.
  intros H. apply not_true_is_false. intros E. apply existsb_exists in E.
  destruct E as (y & Hy & Hp). apply list_elem_of_In in Hy.
  rewrite (H y Hy) in Hp. discriminate.
Qed.

Lemma other_string (l : list string) (s : string) :
  s ∉ l -> forall y, y ∈ l -> negb (String.eqb y s) = true.
Proof.
  intros Hs y Hy. apply negb_true_iff, String.eqb_neq. intros ->. contradiction.
Qed.

(** The form shows no row for the manifest number of the entry. *)
Definition manifest_unused (entry : InwardEntryInfo) (st : State) : Prop :=
  (ie_manifestNo entry ∉ f_manifestNos (formData st))
  /\ (forall m, m ∈ f_materials (formData st) ->
                m_manifestNo m <> Some (ie_manifestNo entry)).

(** X13.  Ticking an entry that is not selected selects it and adds one
    material row, so that the sum of the amounts grows by the quantity of
    the entry times its rate (0 when it has none).  When the form showed
    no row and no manifest number for the manifest of the entry, unticking
    it again gives back the form as it was. *)
Theorem entry_tick_untick (entry : InwardEntryInfo) (st : State) :
  ie_id entry ∉ f_inwardEntryIds (formData st) ->
  isSelected (entry_onChange entry true st) entry = true
  /\ sum_amounts (f_materials (formData (entry_onChange entry true st)))
     == sum_amounts (f_materials (formData st))
        + ie_quantity entry * or_zero (ie_rate entry)
  /\ (manifest_unused entry st ->
      entry_onChange entry false (entry_onChange entry true st) = st).
Proof.
  intros Hid. split; [| split].
  - unfold isSelected, entry_onChange. cbn. apply bool_decide_eq_true.
    apply elem_of_app. right. apply list_elem_of_singleton. reflexivity.
  - unfold entry_onChange. cbn [formData with_form with_links f_materials].
    rewrite sum_amounts_app. unfold sum_amounts at 2. cbn. ring.
  - intros [Hman Hrows].
    destruct st as [f ex mode alert]. destruct f. cbn in Hid, Hman, Hrows.
    unfold entry_onChange.
    cbn [formData with_form with_links f_materials f_manifestNos f_inwardEntryIds
         f_date f_companyId f_transporterId f_customerName f_outwardEntryIds f_subtotal
         f_cgstRate f_sgstRate f_gstNo f_billedTo f_shippedTo f_description
         f_additionalCharges f_additionalChargesDescription f_applyGst
         existingInvoice isAppendMode showAppendAlert].
    rewrite (filter_snoc_out _ _ _ (other_string _ _ Hid))
      by (rewrite String.eqb_refl; reflexivity).
    rewrite remove_first_snoc.
    2: { intros m Hm. apply andb_false_iff. left.
         apply bool_decide_eq_false. exact (Hrows m Hm). }
    2: { cbn. rewrite bool_decide_eq_true_2 by reflexivity. apply String.eqb_refl. }
    rewrite existsb_none
      by (intros m Hm; apply bool_decide_eq_false; exact (Hrows m Hm)).
    rewrite (bool_decide_eq_false_2 _ Hman), andb_true_r.
    destruct (negb (String.eqb (ie_manifestNo entry) "")).
    + rewrite (filter_snoc_out _ _ _ (other_string _ _ Hman))
        by (rewrite String.eqb_refl; reflexivity).
      reflexivity.
    + rewrite (filter_all _ _ (other_string _ _ Hman)). reflexivity.
Qed.

(** ** The material rows *)

(** X14.  [updateMaterial] on a row that is shown sets its quantity or its
    rate and leaves the other of the two, the name, the unit and the
    manifest number as they were; the amount of the row becomes its
    quantity times its rate.  The other rows, the number of rows, the
    selected entries and the manifest numbers do not change. *)
Theorem updateMaterial_amount (index : nat) (field : MaterialField) (value : Q)
    (st : State) (m : Material) :
  f_materials (formData st) !! index = Some m ->
  exists m' : Material,
    f_materials (formData (updateMaterial index field value st)) !! index = Some m'
    /\ m_amount m' = Some (or_zero (m_quantity m') * or_zero (m_rate m'))
    /\ match field with
       | Quantity => m_quantity m' = Some value /\ m_rate m' = m_rate m
       | Rate => m_rate m' = Some value /\ m_quantity m' = m_quantity m
       end
    /\ (m_materialName m', m_unit m', m_manifestNo m', m_description m')
       = (m_materialName m, m_unit m, m_manifestNo m, m_description m)
    /\ length (f_materials (formData (updateMaterial index field value st)))
       = length (f_materials (formData st))
    /\ (forall j, j <> index ->
          f_materials (formData (updateMaterial index field value st)) !! j
          = f_materials (formData st) !! j)
    /\ f_inwardEntryIds (formData (updateMaterial index field value st))
       = f_inwardEntryIds (formData st)
    /\ f_manifestNos (formData (updateMaterial index field value st))
       = f_manifestNos (formData st).
Proof.
  intros Hm. unfold updateMaterial. rewrite Hm.
  cbn [formData with_form with_materials with_links f_materials f_inwardEntryIds
       f_manifestNos].
  eexists. split.
  { apply list_lookup_insert_eq. apply lookup_lt_Some in Hm. exact Hm. }
  split; [destruct field; reflexivity |].
  split; [destruct field; split; reflexivity |].
  split; [reflexivity |].
  split; [apply length_insert |].
  split; [intros j Hj; apply list_lookup_insert_ne; congruence |].
  split; reflexivity.
Qed.

Lemma sum_amounts_delete (ms : list Material) (index : nat) (m : Material) :
  ms !! index = Some m ->
  sum_amounts (delete index ms) == sum_amounts ms - or_zero (m_amount m).
Proof.
  rewrite !sum_amounts_total. revert index.
  induction ms as [| a r IH]; intros [| i]; cbn; try discriminate.
  - intros [= ->]. ring.
  - intros H. rewrite (IH i H). ring.
Qed.

(** X15.  [removeMaterial] on a row that is shown removes that row only:
    the rows before it stay, the rows after it move up, and the sum of the
    amounts drops by the amount of the row.  It does not touch the
    selection: the selected entries and the manifest numbers are as before,
    so a later submission still sends the link to the entry whose row was
    removed. *)
Theorem removeMaterial_keeps_links (index : nat) (st : State) (m : Material) :
  f_materials (formData st) !! index = Some m ->
  S (length (f_materials (formData (removeMaterial index st))))
  = length (f_materials (formData st))
  /\ (forall j, (j < index)%nat ->
        f_materials (formData (removeMaterial index st)) !! j
        = f_materials (formData st) !! j)
  /\ (forall j, (index <= j)%nat ->
        f_materials (formData (removeMaterial index st)) !! j
        = f_materials (formData st) !! S j)
  /\ sum_amounts (f_materials (formData (removeMaterial index st)))
     == sum_amounts (f_materials (formData st)) - or_zero (m_amount m)
  /\ f_inwardEntryIds (formData (removeMaterial index st))
     = f_inwardEntryIds (formData st)
  /\ f_manifestNos (formData (removeMaterial index st))
     = f_manifestNos (formData st)
  /\ (forall (props : Props) (target : string) (payload : UpdatePayload),
        handleSubmit props (removeMaterial index st) = UpdateInvoice target payload ->
        up_inwardEntryIds payload = f_inwardEntryIds (formData st))
  /\ (forall (props : Props) (payload : CreateInvoiceData),
        handleSubmit props (removeMaterial index st) = CreateInvoice payload ->
        cr_inwardEntryIds payload = nonempty_list (f_inwardEntryIds (formData st))).
Proof.
  intros Hm. unfold removeMaterial.
  cbn [formData with_form with_materials with_links f_materials f_inwardEntryIds
       f_manifestNos].
  split.
  { pose proof (lookup_lt_Some _ _ _ Hm) as Hlt.
    rewrite length_delete by eauto. lia. }
  split; [intros j Hj; apply list_lookup_delete_lt; exact Hj |].
  split; [intros j Hj; apply list_lookup_delete_ge; exact Hj |].
  split; [apply sum_amounts_delete; exact Hm |].
  split; [reflexivity |]. split; [reflexivity |].
  split.
  - intros props target payload H. apply handleSubmit_update in H.
    destruct H as (_ & _ & -> & _). reflexivity.
  - intros props payload. unfold handleSubmit.
    destruct (_ && _); [discriminate |].
    destruct (_ && _); [discriminate |].
    destruct (_ && _); [discriminate |].
    cbn [isAppendMode existingInvoice with_form].
    destruct (isAppendMode st); [destruct (existingInvoice st); [discriminate |] |];
      intros [= <-]; reflexivity.
Qed.

(** ** The invoice that an append updates *)

(** [ex] is the invoice that a check found: the first one with a status
    other than ['paid'] in the list answered for a company. *)
Definition found_open (srv : Server) (ex : Invoice) : Prop :=
  exists companyId : string,
    companyId <> ""
    /\ List.find (fun inv => negb (String.eqb (inv_status inv) "paid"))
                 (getInvoices srv companyId Inward 5)
       = Some ex.

Definition existing_inv (props : Props) (srv : Server) (st : State) : Prop :=
  forall ex, existingInvoice st = Some ex -> type props = Inward /\ found_open srv ex.

Lemma existing_inv_frame (props : Props) (srv : Server) (st st' : State) :
  existingInvoice st' = existingInvoice st ->
  existing_inv props srv st -> existing_inv props srv st'.
Proof. intros E H ex Hex. rewrite E in Hex. exact (H ex Hex). Qed.

Lemma checkExistingInvoice_open (props : Props) (srv : Server) (answered : bool)
    (st : State) :
  existing_inv props srv st ->
  existing_inv props srv (checkExistingInvoice props srv answered st).
Proof.
  intros Hst ex. unfold checkExistingInvoice.
  case_bool_decide as Hty; cbn [andb]; [| discriminate].
  destruct (String.eqb (f_companyId (formData st)) "") eqn:Hc; cbn [negb]; [discriminate |].
  apply String.eqb_neq in Hc.
  destruct answered; [| apply Hst].
  destruct (List.find _ _) as [candidate |] eqn:F; [| discriminate].
  cbn [existingInvoice]. intros [= <-].
  split; [exact Hty |]. exists (f_companyId (formData st)). auto.
Qed.

Lemma populate_check_open (props : Props) (srv : Server) (answered : bool) (st : State) :
  existing_inv props srv st ->
  existing_inv props srv
    (populatePreselected props srv (checkExistingInvoice props srv answered st)).
Proof.
  intros Hst.
  apply (existing_inv_frame props srv (checkExistingInvoice props srv answered st));
    [apply populatePreselected_frame | apply checkExistingInvoice_open; exact Hst].
Qed.

Lemma after_company_change_open (props : Props) (srv : Server) (answered again : bool)
    (st : State) :
  existing_inv props srv st ->
  existing_inv props srv (after_company_change props srv answered again st).
Proof.
  intros Hst. unfold after_company_change.
  destruct (String.eqb _ _); repeat apply populate_check_open; exact Hst.
Qed.

Lemma mounted_existing_inv (props : Props) (srv : Server) (today : string)
    (answered again : bool) :
  existing_inv props srv (mounted props srv today answered again).
Proof.
  assert (H : existing_inv props srv (populatePreselected props srv (initial props today))).
  { intros ex Hex. rewrite (proj1 (populatePreselected_frame _ _ _)) in Hex.
    discriminate. }
  unfold mounted. destruct (String.eqb _ _); [exact H |].
  apply after_company_change_open. exact H.
Qed.

Lemma handle_existing_inv (props : Props) (srv : Server) (st : State) (ev : Event) :
  existing_inv props srv st ->
  existing_inv props srv (handle props srv st ev).
Proof.
  intros Hinv.
  destruct ev as [v answered again | v | i | | | i | i fld q | sel | inp | c s];
    cbn [handle].
  - assert (H : existing_inv props srv (company_onChange props srv v st))
      by (apply (existing_inv_frame props srv st); [reflexivity | exact Hinv]).
    destruct (String.eqb v (f_companyId (formData st)));
      [exact H | apply after_company_change_open; exact H].
  - apply (existing_inv_frame props srv st); [reflexivity | exact Hinv].
  - destruct (_ !! i) as [entry |]; [| exact Hinv].
    apply (existing_inv_frame props srv st); [| exact Hinv].
    unfold entry_onChange; destruct (negb _); reflexivity.
  - unfold handleAppendConfirm. destruct (existingInvoice st) as [ex |] eqn:E; [| exact Hinv].
    apply (existing_inv_frame props srv st); [cbn; congruence | exact Hinv].
  - apply (existing_inv_frame props srv st); [reflexivity | exact Hinv].
  - apply (existing_inv_frame props srv st); [reflexivity | exact Hinv].
  - apply (existing_inv_frame props srv st); [| exact Hinv].
    unfold updateMaterial; destruct (_ !! i); reflexivity.
  - apply (existing_inv_frame props srv st); [reflexivity | exact Hinv].
  - apply (existing_inv_frame props srv st); [reflexivity | exact Hinv].
  - apply (existing_inv_frame props srv st); [reflexivity | exact Hinv].
Qed.

(** What a submission checks first. *)
Lemma handleSubmit_company (props : Props) (st : State) (target : string)
    (payload : UpdatePayload) :
  type props = Inward ->
  handleSubmit props st = UpdateInvoice target payload ->
  f_companyId (formData st) <> "".
Proof.
  intros Hty. unfold handleSubmit.
  rewrite bool_decide_eq_true_2 by exact Hty. cbn [andb].
  destruct (String.eqb (f_companyId (formData st)) "") eqn:E; [discriminate |].
  intros _. apply String.eqb_neq. exact E.
Qed.

(** X16.  Whatever the user does in the open form, and whichever list
    requests fail, a submission that updates an invoice is made from an
    Inward form with a company chosen, and the invoice it updates is one
    that a check found: the first invoice with a status other than ['paid']
    in the list answered for a company.  So a form for an Outward or a
    Transporter invoice never updates an existing invoice, and no update
    goes to an invoice that was listed as paid. *)
Theorem update_targets_open_invoice (props : Props) (srv : Server) (today : string)
    (st : State) (target : string) (payload : UpdatePayload) :
  reachable props srv today st ->
  handleSubmit props st = UpdateInvoice target payload ->
  type props = Inward
  /\ f_companyId (formData st) <> ""
  /\ exists ex : Invoice,
       inv_id ex = target
       /\ inv_status ex <> "paid"
       /\ found_open srv ex.
Proof.
  intros Hst Hsub.
  assert (Hinv : existing_inv props srv st).
  { clear Hsub. revert st Hst. apply reachable_ind_inv.
    - apply mounted_existing_inv.
    - intros st ev H _. apply handle_existing_inv, H. }
  pose proof Hsub as Hupdate.
  apply handleSubmit_update in Hupdate. destruct Hupdate as (_ & (ex & Hex & Hid) & _).
  destruct (Hinv ex Hex) as (Hty & Hfound).
  split; [exact Hty |]. split; [exact (handleSubmit_company _ _ _ _ Hty Hsub) |].
  exists ex. split; [exact Hid |]. split; [| exact Hfound].
  destruct Hfound as (c & _ & F). apply find_elem_of in F. destruct F as [_ Hp].
  apply negb_true_iff, String.eqb_neq in Hp. exact Hp.
Qed.

(** ** The company of the entries that a new invoice links *)

(** The id is that of an inward entry of the company chosen in the form. *)
Definition of_chosen_company (srv : Server) (st : State) (id : string) : Prop :=
  f_companyId (formData st) <> ""
  /\ exists e, e ∈ inwardTable srv /\ ie_id e = id
               /\ ie_companyId e = f_companyId (formData st).

Definition company_inv (srv : Server) (st : State) : Prop :=
  (isAppendMode st = true -> is_Some (existingInvoice st))
  /\ (isAppendMode st = false ->
      forall id, id ∈ f_inwardEntryIds (formData st) -> of_chosen_company srv st id).

Lemma company_inv_frame (srv : Server) (st st' : State) :
  isAppendMode st' = isAppendMode st ->
  existingInvoice st' = existingInvoice st ->
  f_inwardEntryIds (formData st') = f_inwardEntryIds (formData st) ->
  f_companyId (formData st') = f_companyId (formData st) ->
  company_inv srv st -> company_inv srv st'.
Proof.
  intros E1 E2 E3 E4 [H1 H2]. unfold company_inv, of_chosen_company.
  rewrite E1, E2, E3, E4. split; assumption.
Qed.

Lemma entry_onChange_company (entry : InwardEntryInfo) (checked : bool) (st : State) :
  f_companyId (formData (entry_onChange entry checked st)) = f_companyId (formData st).
Proof. unfold entry_onChange. destruct checked; reflexivity. Qed.

Lemma handle_company_inv (props : Props) (srv : Server) (st : State) (ev : Event) :
  preselectedEntryIds props = [] ->
  company_inv srv st ->
  enabled props srv st ev = true ->
  company_inv srv (handle props srv st ev).
Proof.
  intros Hpre [Hmode Hids] En.
  destruct ev as [v answered again | v | i | | | i | i fld q | sel | inp | c s];
    cbn [handle].
  - (* SelectCompany *)
    cbn in En. apply andb_true_iff in En. destruct En as [_ Hm].
    apply negb_true_iff in Hm.
    destruct (String.eqb v (f_companyId (formData st))).
    + split; [cbn; congruence | cbn; intros _ id Hid; inversion Hid].
    + rewrite (after_company_change_plain _ _ _ _ _ Hpre). split.
      * rewrite checkExistingInvoice_appendMode by exact Hm. discriminate.
      * rewrite checkExistingInvoice_formData. cbn. intros _ id Hid. inversion Hid.
  - (* SelectTransporter *)
    apply (company_inv_frame srv st); try reflexivity. split; assumption.
  - (* ToggleEntry *)
    cbn in En. destruct (inwardEntries props srv st !! i) as [entry |] eqn:L;
      [| discriminate].
    apply andb_true_iff in En. destruct En as [En _].
    apply andb_true_iff in En. destruct En as [_ Hc].
    apply negb_true_iff, String.eqb_neq in Hc.
    destruct (entry_onChange_frame entry (negb (isSelected st entry)) st)
      as (E1 & E2 & _ & _).
    unfold company_inv, of_chosen_company.
    rewrite E1, E2, entry_onChange_company.
    split; [exact Hmode |]. intros Hm id Hid.
    assert (Hentry : of_chosen_company srv st (ie_id entry)).
    { split; [exact Hc |]. exists entry.
      apply list_elem_of_lookup_2 in L. unfold inwardEntries in L.
      destruct (inwardEntriesData props srv _) as [data |] eqn:D; [| inversion L].
      destruct (inwardEntriesData_company _ _ _ _ _ D L) as [Hin Hco]. auto. }
    unfold entry_onChange in Hid. destruct (negb (isSelected st entry)); cbn in Hid.
    + apply elem_of_app in Hid. destruct Hid as [Hid | Hid]; [exact (Hids Hm id Hid) |].
      apply list_elem_of_singleton in Hid. subst id. exact Hentry.
    + apply filter_elem_of in Hid. exact (Hids Hm id (proj1 Hid)).
  - (* AppendConfirm *)
    cbn in En. apply appendOffered_true in En. destruct En as [_ [ex Eex]].
    unfold handleAppendConfirm. rewrite Eex.
    split; [intros _; cbn; eauto | cbn; discriminate].
  - (* CreateNew *)
    apply (company_inv_frame srv st); try reflexivity. split; assumption.
  - (* RemoveMaterial *)
    apply (company_inv_frame srv st); try reflexivity. split; assumption.
  - (* UpdateMaterial *)
    apply (company_inv_frame srv st); [| | | | split; assumption];
      unfold updateMaterial; destruct (_ !! i); reflexivity.
  - (* SelectOutward *)
    apply (company_inv_frame srv st); try reflexivity. split; assumption.
  - (* Edit *)
    apply (company_inv_frame srv st); try reflexivity. split; assumption.
  - (* SettingsLoaded *)
    apply (company_inv_frame srv st); try reflexivity. split; assumption.
Qed.

Lemma handleSubmit_create_company (props : Props) (st : State)
    (payload : CreateInvoiceData) :
  handleSubmit props st = CreateInvoice payload ->
  cr_companyId payload = nonempty_str (f_companyId (formData st))
  /\ cr_type payload = type props.
Proof.
  unfold handleSubmit.
  destruct (_ && _); [discriminate |].
  destruct (_ && _); [discriminate |].
  destruct (_ && _); [discriminate |].
  destruct (isAppendMode st); [destruct (existingInvoice st); [discriminate |] |];
    intros [= <-]; split; reflexivity.
Qed.

(** X17.  In a form opened without preselected entries, whatever the user
    does, a submission that creates an invoice links only inward entries of
    the company that the invoice is created for: every id in its
    [inwardEntryIds] is that of an entry of the server whose company is the
    [companyId] of the payload. *)
Theorem created_invoice_links_company (props : Props) (srv : Server) (today : string)
    (st : State) (payload : CreateInvoiceData) :
  preselectedEntryIds props = [] ->
  reachable props srv today st ->
  handleSubmit props st = CreateInvoice payload ->
  forall id, id ∈ default [] (cr_inwardEntryIds payload) ->
    exists e : InwardEntryInfo,
      e ∈ inwardTable srv /\ ie_id e = id /\ cr_companyId payload = Some (ie_companyId e).
Proof.
  intros Hpre Hst Hsub id Hid.
  assert (Hinv : company_inv srv st).
  { clear Hsub Hid. revert st Hst. apply reachable_ind_inv.
    - intros answered again.
      rewrite (mounted_plain _ _ _ _ _ Hpre). unfold initial. split; [discriminate |].
      cbn. rewrite Hpre. intros _ x Hx. inversion Hx.
    - intros st ev. apply handle_company_inv, Hpre. }
  destruct Hinv as [Hmode Hids].
  destruct (handleSubmit_create_company _ _ _ Hsub) as [Hco _].
  apply handleSubmit_create in Hsub. destruct Hsub as (Hcreate & E & _).
  rewrite E in Hid.
  assert (Hm : isAppendMode st = false).
  { destruct (isAppendMode st); [| reflexivity].
    destruct (Hmode eq_refl) as [ex Hex]. destruct Hcreate; congruence. }
  destruct (Hids Hm id Hid) as (Hc & e & Hin & Hide & Hcompany).
  exists e. split; [exact Hin |]. split; [exact Hide |].
  rewrite Hco, Hcompany. unfold nonempty_str.
  apply String.eqb_neq in Hc. rewrite Hc. reflexivity.
Qed.

(** ** Runs *)

Import FormSamples.

(** Entry [e1] of the sample server, ticked in a form that has company
    [c1] chosen, and unticked again. *)
Lemma entry_tick_untick_witness :
  exists st : State,
    run plain server (mounted plain server today true true) [SelectCompany "c1" true true] = Some st
    /\ isSelected (entry_onChange (inward "e1" "MF-1" None) true st)
                  (inward "e1" "MF-1" None) = true
    /\ entry_onChange (inward "e1" "MF-1" None) false
         (entry_onChange (inward "e1" "MF-1" None) true st) = st.
Proof.
  eexists. split; [reflexivity |].
  match goal with
  | |- context [entry_onChange ?e true ?st] =>
      destruct (entry_tick_untick e st) as (Hsel & _ & Hback)
  end.
  - cbn. apply not_elem_of_nil.
  - split; [exact Hsel |]. apply Hback. split.
    + cbn. apply not_elem_of_nil.
    + cbn. intros m Hm. inversion Hm.
Defined.

Lemma updateMaterial_amount_witness :
  exists m' : Material,
    f_materials (formData (updateMaterial 1 Quantity 3 (with_form two_materials
                                                           (initial plain today)))) !! 1%nat
    = Some m'
    /\ m_quantity m' = Some 3
    /\ m_amount m' = Some (or_zero (m_quantity m') * or_zero (m_rate m')).
Proof.
  destruct (updateMaterial_amount 1 Quantity 3
              (with_form two_materials (initial plain today))
              (default (material_of_entry (inward "e1" "MF-1" None))
                       (f_materials two_materials !! 1%nat)))
    as (m' & Hrow & Hamount & Hfield & _).
  - reflexivity.
  - exists m'. split; [exact Hrow |]. split; [apply Hfield | exact Hamount].
Defined.

Lemma removeMaterial_keeps_links_witness :
  exists st : State,
    run plain server (mounted plain server today true true) [SelectCompany "c1" true true; ToggleEntry 0]
    = Some st
    /\ f_materials (formData (removeMaterial 0 st)) = []
    /\ f_inwardEntryIds (formData (removeMaterial 0 st)) = ["e1"].
Proof.
  eexists. split; [reflexivity |].
  match goal with
  | |- context [removeMaterial 0 ?st] =>
      destruct (removeMaterial_keeps_links 0 st (material_of_entry (inward "e1" "MF-1" None)))
        as (_ & _ & _ & _ & Hids & _)
  end.
  - reflexivity.
  - split; [reflexivity |]. rewrite Hids. reflexivity.
Defined.

(** The append of the sample run updates [inv1], the pending invoice of
    company [c1]. *)
Lemma update_targets_open_invoice_witness :
  exists (st : State) (payload : UpdatePayload) (ex : Invoice),
    run plain server (mounted plain server today true true) appended = Some st
    /\ handleSubmit plain st = UpdateInvoice "inv1" payload
    /\ inv_id ex = "inv1"
    /\ inv_status ex <> "paid"
    /\ found_open server ex.
Proof.
  destruct (run plain server (mounted plain server today true true) appended) as [st |] eqn:R;
    [| discriminate R].
  assert (Hst : reachable plain server today st).
  { apply (run_reachable plain server today appended (mounted plain server today true true));
      [apply reachable_mounted | exact R]. }
  destruct (handleSubmit plain st) as [msg | target payload | payload] eqn:S;
    [exfalso | | exfalso].
  1,3: revert S; vm_compute in R; injection R as <-; vm_compute; discriminate.
  assert (Ht : target = "inv1").
  { revert S. vm_compute in R. injection R as <-. vm_compute. congruence. }
  subst target.
  destruct (update_targets_open_invoice plain server today st "inv1" payload Hst S)
    as (_ & _ & ex & Hid & Hpaid & Hfound).
  exists st, payload, ex. auto.
Defined.

(** The invoice that is updated need not be of the company chosen in the
    form: after a list request that failed, the form still holds the
    invoice found for the company chosen before. *)
Example update_after_failed_request :
  exists (st : State) (payload : UpdatePayload),
    run plain two_companies (mounted plain two_companies today true true)
      [SelectCompany "c1" true true; SelectCompany "c2" false true; AppendConfirm]
    = Some st
    /\ f_companyId (formData st) = "c2"
    /\ handleSubmit plain st = UpdateInvoice "inv1" payload
    /\ getInvoices two_companies "c2" Inward 5 = [].
Proof.
  eexists _, _. split; [vm_compute; reflexivity |].
  split; [reflexivity |]. split; [vm_compute; reflexivity | reflexivity].
Qed.

(** The invoice created for company [c1] with entry [e1] ticked. *)
Lemma created_invoice_links_company_witness :
  exists (st : State) (payload : CreateInvoiceData) (e : InwardEntryInfo),
    run plain server (mounted plain server today true true) picked = Some st
    /\ handleSubmit plain st = CreateInvoice payload
    /\ cr_inwardEntryIds payload = Some ["e1"]
    /\ e ∈ inwardTable server
    /\ ie_id e = "e1"
    /\ cr_companyId payload = Some (ie_companyId e).
Proof.
  destruct (run plain server (mounted plain server today true true) picked) as [st |] eqn:R;
    [| discriminate R].
  assert (Hst : reachable plain server today st).
  { apply (run_reachable plain server today picked (mounted plain server today true true));
      [apply reachable_mounted | exact R]. }
  destruct (handleSubmit plain st) as [msg | target payload | payload] eqn:S;
    [exfalso | exfalso |].
  1,2: revert S; vm_compute in R; injection R as <-; vm_compute; discriminate.
  assert (Hids : cr_inwardEntryIds payload = Some ["e1"]).
  { revert S. vm_compute in R. injection R as <-. vm_compute. intros [= <-]. reflexivity. }
  destruct (created_invoice_links_company plain server today st payload eq_refl Hst S "e1")
    as (e & Hin & Hid & Hco).
  - rewrite Hids. cbn. apply elem_of_cons. auto.
  - exists st, payload, e. auto 10.
Defined.

End InvoiceFormMoreProps.
